(** * Job submission and polling of the Sora video front end

    A shallow embedding of the two variants of the single-page application
    kept in the repository:

    - [App]      embeds [src/App.tsx];
    - [Part000]  embeds the second copy of the application (the file
                 [unnamed/part_000]), the one with the not-found retry
                 counter, the resolution rule and the [result] payload.

    React state and refs become fields of a [World] record, the browser's
    timer table and the HTTP requests sent become fields of the same record,
    and every callback of the source (a handler up to its first [await], the
    continuation after the [await], the [catch] block) becomes a function
    from [World] to [World]. *)

From Stdlib Require Import Ascii String ZArith NArith List Bool Lia.
From stdpp Require Import base option list gmap fin_maps strings pretty.

Import ListNotations.
Local Open Scope string_scope.
#[local] Set Warnings "-register-all".

(** ** JavaScript values

    Response bodies and error objects are [any] in the source.  Numbers are
    kept as integers: the code only tests them against [undefined], against
    zero (truthiness) and against the literal [404]. *)

Inductive JsVal : Type :=
| JUndefined
| JNull
| JBool (b : bool)
| JNum (n : Z)
| JStr (s : string)
| JObj (props : list (string * JsVal)).

(** [ToBoolean]. *)
Definition truthy (v : JsVal) : bool :=
  match v with
  | JUndefined | JNull => false
  | JBool b => b
  | JNum n => negb (n =? 0)%Z
  | JStr s => negb (String.eqb s "")
  | JObj _ => true
  end.

(** [a || b]. *)
Definition js_or (a b : JsVal) : JsVal := if truthy a then a else b.

(** [v !== undefined]. *)
Definition is_defined (v : JsVal) : bool :=
  match v with JUndefined => false | _ => true end.

(** [v === 'lit'] for a string literal. *)
Definition is_str (v : JsVal) (lit : string) : bool :=
  match v with JStr s => String.eqb s lit | _ => false end.

Fixpoint assoc (k : string) (ps : list (string * JsVal)) : JsVal :=
  match ps with
  | [] => JUndefined
  | (k', v) :: ps' => if String.eqb k k' then v else assoc k ps'
  end.

(** [v?.k]: [undefined] on [undefined] and [null], the property otherwise
    (primitives have none of the properties the code reads). *)
Definition opt_prop (v : JsVal) (k : string) : JsVal :=
  match v with
  | JObj ps => assoc k ps
  | _ => JUndefined
  end.

(** String conversion of a template literal, [`${v}`]. *)
Definition js_to_string (v : JsVal) : string :=
  match v with
  | JUndefined => "undefined"
  | JNull => "null"
  | JBool true => "true"
  | JBool false => "false"
  | JNum n => pretty n
  | JStr s => s
  | JObj _ => "[object Object]"
  end.

(** ** Strings as sequences of code units

    A prompt is a sequence of UTF-16 code units; the embedding covers the
    code units below 256 (one [ascii] each, read as Latin-1).  In that range
    the white space of [trim] and of the class [\s] is TAB, LF, VT, FF, CR,
    SPACE and NO-BREAK SPACE, and [toLowerCase] moves A-Z and the accented
    capitals U+00C0-U+00DE (without the multiplication sign U+00D7) up by
    32. *)

Definition code (c : ascii) : N := N_of_ascii c.

Definition in_range (lo hi : N) (c : ascii) : bool :=
  ((lo <=? code c) && (code c <=? hi))%N.

Definition isSpace (c : ascii) : bool :=
  in_range 9 13 c || (code c =? 32)%N || (code c =? 160)%N.

Definition toLowerCase_char (c : ascii) : ascii :=
  if in_range 65 90 c || (in_range 192 222 c && negb (code c =? 215)%N)
  then ascii_of_N (code c + 32)
  else c.

Definition toLowerCase (s : list ascii) : list ascii := map toLowerCase_char s.

Fixpoint trimStart (s : list ascii) : list ascii :=
  match s with
  | [] => []
  | c :: s' => if isSpace c then trimStart s' else s
  end.

Definition trimEnd (s : list ascii) : list ascii := rev (trimStart (rev s)).

Definition trim (s : list ascii) : list ascii := trimEnd (trimStart s).

(** [s.split(/\s+/)]: the pieces between the maximal runs of white space.
    [cur] is the piece being read (reversed) and [in_sep] tells that the
    previous code unit belonged to a separator.  A leading or trailing
    separator gives an empty first or last piece, and the empty string
    gives one empty piece. *)
Fixpoint split_go (in_sep : bool) (cur : list ascii) (s : list ascii)
  : list (list ascii) :=
  match s with
  | [] => [rev cur]
  | c :: s' =>
      if isSpace c
      then if in_sep then split_go true cur s'
           else rev cur :: split_go true [] s'
      else split_go false (c :: cur) s'
  end.

Definition split_ws (s : list ascii) : list (list ascii) := split_go false [] s.

(** [filter(Boolean)] on strings: the empty string is the only falsy one. *)
Definition nonempty (s : list ascii) : bool :=
  match s with [] => false | _ => true end.

(** [words.join(sep)]. *)
Fixpoint join (sep : list ascii) (ws : list (list ascii)) : list ascii :=
  match ws with
  | [] => []
  | [w] => w
  | w :: ws' => w ++ sep ++ join sep ws'
  end.

(** The class [[a-z0-9_]] under the [i] flag: both cases of the ASCII
    letters belong to it, and no code unit above 127 is folded into it. *)
Definition in_class_i (c : ascii) : bool :=
  in_range 97 122 c || in_range 65 90 c || in_range 48 57 c || (code c =? 95)%N.

(** [name.replace(/[^a-z0-9_]/gi, '_')]. *)
Definition replace_unsafe (s : list ascii) : list ascii :=
  map (fun c => if in_class_i c then c else "_"%char) s.

(** [getVideoFilename], the same text in both variants. *)
Definition getVideoFilename (promptText : string) : string :=
  let words := List.filter nonempty
                 (split_ws (trim (list_ascii_of_string promptText))) in
  let name :=
    if (0 <? length words)%nat
    then toLowerCase (join ["_"%char] (firstn 2 words))
    else list_ascii_of_string "video" in
  let safeName := replace_unsafe name in
  string_of_list_ascii safeName ++ ".mp4".


(** ** The browser: timers and HTTP requests

    [setInterval] and [setTimeout] draw their handles from one table, and
    [clearInterval] removes whatever timer the handle names.  A timer runs
    the status check of the job it was created for ([target]).  Handles are
    positive, hence truthy, so [if (pollingInterval.current)] is a test
    against [null]. *)

Record Timer : Type := mkTimer {
  repeating : bool;     (* [setInterval] (true) or [setTimeout] (false) *)
  ms : Z;               (* the delay or period passed to the browser *)
  target : string       (* the job id the callback closes over *)
}.

(** The body of the create request is [{prompt, width, height, n_seconds}]
    with width and height read off the two sides of the 'x' of the
    resolution; the request is recorded by the resolution string they are
    computed from. *)
Inductive Request : Type :=
| PostGenerate (prompt : string) (resolution : string) (n_seconds : Z)
| GetJob (jobId : string).

#[global] Instance Request_eq_dec : EqDecision Request.
Proof. solve_decision. Defined.

Record Browser : Type := mkBrowser {
  timers : gmap positive Timer;   (* the active timers *)
  nextTimer : positive;           (* the next handle the browser hands out *)
  requests : list Request;        (* every request sent, most recent first *)
  inflight : list Request         (* requests whose promise is not settled *)
}.

Definition setTimer (tm : Timer) (b : Browser) : positive * Browser :=
  (nextTimer b,
   {| timers := <[nextTimer b := tm]> (timers b);
      nextTimer := Pos.succ (nextTimer b);
      requests := requests b;
      inflight := inflight b |}).

Definition clearTimer (t : positive) (b : Browser) : Browser :=
  {| timers := delete t (timers b);
     nextTimer := nextTimer b;
     requests := requests b;
     inflight := inflight b |}.

Definition send (rq : Request) (b : Browser) : Browser :=
  {| timers := timers b;
     nextTimer := nextTimer b;
     requests := rq :: requests b;
     inflight := rq :: inflight b |}.

Fixpoint remove_first (rq : Request) (l : list Request) : list Request :=
  match l with
  | [] => []
  | x :: l' => if decide (x = rq) then l' else x :: remove_first rq l'
  end.

(** The promise of [rq] settles: possible only for a request in flight. *)
Definition settle (rq : Request) (b : Browser) : option Browser :=
  if decide (rq ∈ inflight b)
  then Some {| timers := timers b;
               nextTimer := nextTimer b;
               requests := requests b;
               inflight := remove_first rq (inflight b) |}
  else None.

Definition freshBrowser : Browser :=
  {| timers := ∅; nextTimer := 1%positive; requests := []; inflight := [] |}.

(** The recurring timers of the table. *)
Definition recurring (b : Browser) : gmap positive Timer :=
  filter (fun kv => repeating kv.2 = true) (timers b).

(** Every recurring timer of the table [m] is the one the ref [h] holds. *)
Definition tracks (h : option positive) (m : gmap positive Timer) : Prop :=
  forall t tm, m !! t = Some tm -> repeating tm = true -> h = Some t.

(** The table holds one-off timers only. *)
Definition no_recurring (m : gmap positive Timer) : Prop :=
  forall t tm, m !! t = Some tm -> repeating tm = false.

(** The table holds recurring timers only. *)
Definition no_oneoff (m : gmap positive Timer) : Prop :=
  forall t tm, m !! t = Some tm -> repeating tm = true.

(** Every recurring timer of the table has the period [period]. *)
Definition cadence (period : Z) (m : gmap positive Timer) : Prop :=
  forall t tm, m !! t = Some tm -> repeating tm = true -> ms tm = period.

(** [clearInterval] on what the ref holds. *)
Definition cleared (h : option positive) (m : gmap positive Timer)
  : gmap positive Timer :=
  match h with
  | Some t => delete t m
  | None => m
  end.

(** What one callback can do to the ref [h] and the timer table [m], [n]
    being the next handle.  [starts]: the callback may call
    [startJobPolling]; [leaks]: it may reset the ref without clearing the
    timer; [retries]: it may run the not-found branch. *)
Inductive effect (starts leaks retries : bool)
    (h : option positive) (m : gmap positive Timer) (n : positive)
  : option positive -> gmap positive Timer -> Prop :=
| eff_same : effect starts leaks retries h m n h m
| eff_gone (t : positive) : effect starts leaks retries h m n h (delete t m)
| eff_stop : effect starts leaks retries h m n None (cleared h m)
| eff_start (tm : Timer) :
    starts = true -> repeating tm = true ->
    effect starts leaks retries h m n (Some n) (<[n := tm]> (cleared h m))
| eff_retry (tm : Timer) :
    retries = true -> repeating tm = false ->
    effect starts leaks retries h m n h (<[n := tm]> m)
| eff_slow (t : positive) (tm : Timer) :
    retries = true -> h = Some t -> repeating tm = true -> ms tm = 5000%Z ->
    effect starts leaks retries h m n (Some n) (<[n := tm]> (delete t m))
| eff_leak :
    leaks = true -> effect starts leaks retries h m n None m.

(** ** Values shared by the two variants *)

(** What the clock and the location bar give when a callback runs. *)
Record Env : Type := mkEnv {
  isoNow : string;      (* [new Date().toISOString()] *)
  dateNow : Z;          (* [Date.now()] *)
  origin : string       (* [window.location.origin] *)
}.

Inductive Emoji : Type := Hourglass | Cycle | Gear | CheckMark | CrossMark.

(** The error a rejected promise carries, by the three things the handlers
    read from it. *)
Record JsError : Type := mkJsError {
  response_status : JsVal;   (* [error.response?.status] *)
  response_detail : JsVal;   (* [error.response?.data?.detail] *)
  message : string           (* [error.message] *)
}.

(** [new Error(msg)]. *)
Definition newError (msg : string) : JsError :=
  {| response_status := JUndefined; response_detail := JUndefined; message := msg |}.

Module Form.
Record Values : Type := mkValues {
  prompt : string;
  duration : Z;
  resolution : string
}.
(** The errors object of the form library, one entry per failing field. *)
Record Errors : Type := mkErrors {
  prompt_error : option string;
  duration_error : option string;
  resolution_error : option string
}.
Definition noErrors : Errors :=
  {| prompt_error := None; duration_error := None; resolution_error := None |}.
Definition hasErrors (e : Errors) : bool :=
  match prompt_error e, duration_error e, resolution_error e with
  | None, None, None => false
  | _, _, _ => true
  end.
Definition initialValues : Values :=
  {| prompt := ""; duration := 5; resolution := "854x480" |}.
End Form.

(** The body of a status response after destructuring: the six properties
    the poll reads, [JUndefined] for a property the body does not have.  A
    body that cannot be destructured ([null]) throws inside the [try]: that
    is the rejection of the request with the error thrown. *)
Module Resp.
Record t : Type := mk {
  status : JsVal;
  result : JsVal;
  error : JsVal;
  progress : JsVal;
  openai_status : JsVal;
  openai_response : JsVal
}.
End Resp.

Record GenerationDetails : Type := mkDetails {
  gd_prompt : string;
  gd_duration : Z;
  gd_resolution : string;
  gd_createdAt : string
}.

Definition MIN_VIDEO_DURATION : Z := 1.
Definition MAX_VIDEO_DURATION : Z := 10.

(** The [prompt] and [duration] rules, the same text in both variants. *)
Definition validate_prompt (value : string) : option string :=
  if (0 <? length (trim (list_ascii_of_string value)))%nat
  then None
  else Some "Prompt is required".

Definition validate_duration (value : Z) : option string :=
  if ((MIN_VIDEO_DURATION <=? value) && (value <=? MAX_VIDEO_DURATION))%Z
  then None
  else Some ("Duration must be between " ++ pretty MIN_VIDEO_DURATION
             ++ " and " ++ pretty MAX_VIDEO_DURATION ++ " seconds").

(** [v === n] for a number literal. *)
Definition is_num (v : JsVal) (n : Z) : bool :=
  match v with JNum m => (m =? n)%Z | _ => false end.

(** * The variant with the not-found retry counter ([unnamed/part_000]) *)

Module Part000.

Module VideoJob.
Record t : Type := mk {
  id : string;
  status : JsVal;
  error : JsVal;
  videoUrl : JsVal;
  progress : JsVal;
  videoId : JsVal;
  openAiStatus : JsVal;
  openAiResponse : JsVal;
  result : JsVal;
  generationDetails : option GenerationDetails;
  prompt : string;
  duration : Z;
  resolution : string;
  createdAt : string
}.
End VideoJob.

Definition supportedResolutions : list (string * string) :=
  [ ("480x480", "480x480 (1:1)");
    ("480x854", "480x854 (9:16 Portrait)");
    ("854x480", "854x480 (16:9)");
    ("720x720", "720x720 (1:1)");
    ("1080x1080", "1080x1080 (1:1 Square)") ].

Definition validate_resolution (value : string) : option string :=
  let isValid := existsb (fun res => String.eqb res.1 value) supportedResolutions in
  if isValid then None else Some "Please select a valid resolution".

Definition validate (v : Form.Values) : Form.Errors :=
  {| Form.prompt_error := validate_prompt (Form.prompt v);
     Form.duration_error := validate_duration (Form.duration v);
     Form.resolution_error := validate_resolution (Form.resolution v) |}.

(** ** The retry counter

    [retryCount.current] starts as the object literal [{}] and is indexed
    by job ids, so it is a plain object with [Object.prototype] behind it.
    The code stores numbers in it, and the strings that [+ 1] builds when
    the value it read was no number. *)

(** What a property of the counter object holds. *)
Inductive Count : Type :=
| Num (n : Z)
| Text (ones : nat).
    (* the string conversion of the inherited member of that name, followed
       by [ones] characters 1; it starts with the word function or is
       [object Object] followed by 1s, so it is no numeral *)

(** The property names every object of a browser inherits from
    [Object.prototype]. *)
Definition objectPrototype : list string :=
  [ "constructor"; "__proto__"; "hasOwnProperty"; "isPrototypeOf";
    "propertyIsEnumerable"; "toLocaleString"; "toString"; "valueOf";
    "__defineGetter__"; "__defineSetter__"; "__lookupGetter__";
    "__lookupSetter__" ].

Definition inherited (k : string) : bool := existsb (String.eqb k) objectPrototype.

(** The result of reading a property. *)
Inductive Read : Type :=
| Undefined               (* neither an own nor an inherited property *)
| Own (c : Count)         (* what the code stored *)
| Member.                 (* an inherited function, or the prototype itself *)

(** [retryCount.current[jobId]].  The name [__proto__] is an accessor of
    the prototype: it always reads as the prototype object. *)
Definition readCount (m : gmap string Count) (jobId : string) : Read :=
  if String.eqb jobId "__proto__" then Member
  else match m !! jobId with
       | Some c => Own c
       | None => if inherited jobId then Member else Undefined
       end.

(** [retryCount.current[jobId] = c] for a number or a string [c]: an own
    property is written, except under the name [__proto__], whose setter
    ignores a value that is neither an object nor null. *)
Definition writeCount (jobId : string) (c : Count) (m : gmap string Count)
  : gmap string Count :=
  if String.eqb jobId "__proto__" then m else <[jobId := c]> m.

(** [(v || 0) + 1]: a number is incremented (0 and [undefined] are falsy and
    replaced by 0), a function or an object is converted to its text and
    the text 1 is appended, and so it is to a string. *)
Definition increment (v : Read) : Count :=
  match v with
  | Undefined => Num (0 + 1)
  | Own (Num n) => Num ((if (n =? 0)%Z then 0 else n) + 1)
  | Own (Text ones) => Text (S ones)
  | Member => Text 1
  end.

(** [v >= max]: [undefined], a function, an object and a string that is no
    numeral convert to NaN, which is not at least anything. *)
Definition atLeast (v : Read) (max : Z) : bool :=
  match v with
  | Own (Num n) => (max <=? n)%Z
  | _ => false
  end.

(** The counter object after
    [retryCount.current[jobId] = (retryCount.current[jobId] || 0) + 1]. *)
Definition incremented (jobId : string) (m : gmap string Count) : gmap string Count :=
  writeCount jobId (increment (readCount m jobId)) m.

(** The number the counter of a job stands at: the number stored, 0 when
    nothing is stored or inherited; none when the property reads as
    something else. *)
Definition count (m : gmap string Count) (jobId : string) : option Z :=
  match readCount m jobId with
  | Undefined => Some 0%Z
  | Own (Num n) => Some n
  | Own (Text _) | Member => None
  end.

(** The component: its state hooks, its two refs, the form and the browser.
    ([isSaving] belongs to the download button and is left out.) *)
Record World : Type := mkWorld {
  job : option VideoJob.t;
  isLoading : bool;
  error : JsVal;
  statusEmoji : Emoji;
  showDownloadModal : bool;
  isGenerating : bool;
  pollingInterval : option positive;     (* [pollingInterval.current] *)
  retryCount : gmap string Count;        (* [retryCount.current] *)
  formValues : Form.Values;
  formErrors : Form.Errors;
  browser : Browser
}.

Definition initial : World :=
  {| job := None; isLoading := false; error := JNull; statusEmoji := Hourglass;
     showDownloadModal := false; isGenerating := false;
     pollingInterval := None; retryCount := ∅;
     formValues := Form.initialValues; formErrors := Form.noErrors;
     browser := freshBrowser |}.

Definition setJob (f : option VideoJob.t -> option VideoJob.t) (w : World) : World :=
  mkWorld (f (job w)) (isLoading w) (error w) (statusEmoji w) (showDownloadModal w)
    (isGenerating w) (pollingInterval w) (retryCount w) (formValues w) (formErrors w)
    (browser w).

Definition setIsLoading (b : bool) (w : World) : World :=
  mkWorld (job w) b (error w) (statusEmoji w) (showDownloadModal w)
    (isGenerating w) (pollingInterval w) (retryCount w) (formValues w) (formErrors w)
    (browser w).

Definition setError (e : JsVal) (w : World) : World :=
  mkWorld (job w) (isLoading w) e (statusEmoji w) (showDownloadModal w)
    (isGenerating w) (pollingInterval w) (retryCount w) (formValues w) (formErrors w)
    (browser w).

Definition setStatusEmoji (e : Emoji) (w : World) : World :=
  mkWorld (job w) (isLoading w) (error w) e (showDownloadModal w)
    (isGenerating w) (pollingInterval w) (retryCount w) (formValues w) (formErrors w)
    (browser w).

Definition setShowDownloadModal (b : bool) (w : World) : World :=
  mkWorld (job w) (isLoading w) (error w) (statusEmoji w) b
    (isGenerating w) (pollingInterval w) (retryCount w) (formValues w) (formErrors w)
    (browser w).

Definition setIsGenerating (b : bool) (w : World) : World :=
  mkWorld (job w) (isLoading w) (error w) (statusEmoji w) (showDownloadModal w)
    b (pollingInterval w) (retryCount w) (formValues w) (formErrors w)
    (browser w).

Definition set_pollingInterval (h : option positive) (w : World) : World :=
  mkWorld (job w) (isLoading w) (error w) (statusEmoji w) (showDownloadModal w)
    (isGenerating w) h (retryCount w) (formValues w) (formErrors w)
    (browser w).

Definition set_retryCount (m : gmap string Count) (w : World) : World :=
  mkWorld (job w) (isLoading w) (error w) (statusEmoji w) (showDownloadModal w)
    (isGenerating w) (pollingInterval w) m (formValues w) (formErrors w)
    (browser w).

Definition set_form (v : Form.Values) (e : Form.Errors) (w : World) : World :=
  mkWorld (job w) (isLoading w) (error w) (statusEmoji w) (showDownloadModal w)
    (isGenerating w) (pollingInterval w) (retryCount w) v e
    (browser w).

Definition set_browser (b : Browser) (w : World) : World :=
  mkWorld (job w) (isLoading w) (error w) (statusEmoji w) (showDownloadModal w)
    (isGenerating w) (pollingInterval w) (retryCount w) (formValues w) (formErrors w)
    b.

(** [pollingInterval.current = setInterval(() => checkJobStatus(jobId), period)]. *)
Definition setInterval (jobId : string) (period : Z) (w : World) : World :=
  let '(t, b) := setTimer (mkTimer true period jobId) (browser w) in
  set_pollingInterval (Some t) (set_browser b w).

(** [setTimeout(() => checkJobStatus(jobId), delay)]; the handle is dropped. *)
Definition setTimeout (jobId : string) (delay : Z) (w : World) : World :=
  let '(_, b) := setTimer (mkTimer false delay jobId) (browser w) in
  set_browser b w.

Definition clearInterval (t : positive) (w : World) : World :=
  set_browser (clearTimer t (browser w)) w.

(** [if (pollingInterval.current) { clearInterval(...); pollingInterval.current = null; }] *)
Definition stopPolling (w : World) : World :=
  match pollingInterval w with
  | Some t => set_pollingInterval None (clearInterval t w)
  | None => w
  end.

Definition details (v : Form.Values) (now : string) : GenerationDetails :=
  {| gd_prompt := Form.prompt v; gd_duration := Form.duration v;
     gd_resolution := Form.resolution v; gd_createdAt := now |}.

(** [startJobPolling]; [v] is [form.values] of the render whose submit
    handler is running, that is the values that were submitted. *)
Definition startJobPolling (env : Env) (v : Form.Values) (jobId : string)
    (initialJob : VideoJob.t) (w : World) : World :=
  let w := stopPolling w in
  let initialJobWithDetails :=
    {| VideoJob.id := jobId;
       VideoJob.status := JStr "pending";
       VideoJob.error := VideoJob.error initialJob;
       VideoJob.videoUrl := VideoJob.videoUrl initialJob;
       VideoJob.progress := JNum 0;
       VideoJob.videoId := VideoJob.videoId initialJob;
       VideoJob.openAiStatus := VideoJob.openAiStatus initialJob;
       VideoJob.openAiResponse := VideoJob.openAiResponse initialJob;
       VideoJob.result := VideoJob.result initialJob;
       VideoJob.generationDetails := Some (details v (isoNow env));
       VideoJob.prompt := Form.prompt v;
       VideoJob.duration := Form.duration v;
       VideoJob.resolution := Form.resolution v;
       VideoJob.createdAt := isoNow env |} in
  let w := setJob (fun _ => Some initialJobWithDetails) w in
  setInterval jobId 2000 w.

Definition MAX_RETRIES : Z := 5.
Definition RETRY_DELAY : Z := 2000.

(** [checkJobStatus] up to its [await]: the status request leaves. *)
Definition checkJobStatus_begin (jobId : string) (w : World) : World :=
  set_browser (send (GetJob jobId) (browser w)) w.

(** The object built by the updater of [setJob] in the [try] block. *)
Definition mergePoll (prev : VideoJob.t) (r : Resp.t) : VideoJob.t :=
  {| VideoJob.id := VideoJob.id prev;
     VideoJob.status := js_or (Resp.status r) (VideoJob.status prev);
     VideoJob.error := js_or (Resp.error r) (VideoJob.error prev);
     VideoJob.videoUrl :=
       js_or (opt_prop (Resp.result r) "video_url") (VideoJob.videoUrl prev);
     VideoJob.progress :=
       if is_defined (Resp.progress r) then Resp.progress r else VideoJob.progress prev;
     VideoJob.videoId := VideoJob.videoId prev;
     VideoJob.openAiStatus := js_or (Resp.openai_status r) (VideoJob.openAiStatus prev);
     VideoJob.openAiResponse :=
       js_or (Resp.openai_response r) (VideoJob.openAiResponse prev);
     VideoJob.result := js_or (Resp.result r) (VideoJob.result prev);
     VideoJob.generationDetails := VideoJob.generationDetails prev;
     VideoJob.prompt := VideoJob.prompt prev;
     VideoJob.duration := VideoJob.duration prev;
     VideoJob.resolution := VideoJob.resolution prev;
     VideoJob.createdAt := VideoJob.createdAt prev |}.

(** [checkJobStatus] after the [await], when the request succeeded. *)
Definition checkJobStatus_resolved (jobId : string) (r : Resp.t) (w : World) : World :=
  let w := set_retryCount (writeCount jobId (Num 0) (retryCount w)) w in
  let w := setJob (fun prev =>
                     match prev with
                     | None => None
                     | Some p => Some (mergePoll p r)
                     end) w in
  if is_str (Resp.status r) "completed" then
    let w := stopPolling w in
    let w := setIsLoading false w in
    let w := setIsGenerating false w in
    let w := setStatusEmoji CheckMark w in
    setShowDownloadModal true w
  else if is_str (Resp.status r) "failed" then
    let w := stopPolling w in
    let w := setIsLoading false w in
    let w := setIsGenerating false w in
    let w := setStatusEmoji CrossMark w in
    let errorMsg := js_or (Resp.error r) (JStr "Video generation failed") in
    setError errorMsg w
  else
    setStatusEmoji Gear w.

(** [{ ...prev, status: 'processing', openAiStatus: 'Finalizing video...' }] *)
Definition finalizing (prev : VideoJob.t) : VideoJob.t :=
  {| VideoJob.id := VideoJob.id prev;
     VideoJob.status := JStr "processing";
     VideoJob.error := VideoJob.error prev;
     VideoJob.videoUrl := VideoJob.videoUrl prev;
     VideoJob.progress := VideoJob.progress prev;
     VideoJob.videoId := VideoJob.videoId prev;
     VideoJob.openAiStatus :=
       JStr "Finalizing video... (this may take a few more moments)";
     VideoJob.openAiResponse := VideoJob.openAiResponse prev;
     VideoJob.result := VideoJob.result prev;
     VideoJob.generationDetails := VideoJob.generationDetails prev;
     VideoJob.prompt := VideoJob.prompt prev;
     VideoJob.duration := VideoJob.duration prev;
     VideoJob.resolution := VideoJob.resolution prev;
     VideoJob.createdAt := VideoJob.createdAt prev |}.

(** [{ ...prev, error: e }] *)
Definition withError (e : JsVal) (prev : VideoJob.t) : VideoJob.t :=
  {| VideoJob.id := VideoJob.id prev;
     VideoJob.status := VideoJob.status prev;
     VideoJob.error := e;
     VideoJob.videoUrl := VideoJob.videoUrl prev;
     VideoJob.progress := VideoJob.progress prev;
     VideoJob.videoId := VideoJob.videoId prev;
     VideoJob.openAiStatus := VideoJob.openAiStatus prev;
     VideoJob.openAiResponse := VideoJob.openAiResponse prev;
     VideoJob.result := VideoJob.result prev;
     VideoJob.generationDetails := VideoJob.generationDetails prev;
     VideoJob.prompt := VideoJob.prompt prev;
     VideoJob.duration := VideoJob.duration prev;
     VideoJob.resolution := VideoJob.resolution prev;
     VideoJob.createdAt := VideoJob.createdAt prev |}.

(** [{ ...prev, openAiStatus: s }] *)
Definition withOpenAiStatus (s : JsVal) (prev : VideoJob.t) : VideoJob.t :=
  {| VideoJob.id := VideoJob.id prev;
     VideoJob.status := VideoJob.status prev;
     VideoJob.error := VideoJob.error prev;
     VideoJob.videoUrl := VideoJob.videoUrl prev;
     VideoJob.progress := VideoJob.progress prev;
     VideoJob.videoId := VideoJob.videoId prev;
     VideoJob.openAiStatus := s;
     VideoJob.openAiResponse := VideoJob.openAiResponse prev;
     VideoJob.result := VideoJob.result prev;
     VideoJob.generationDetails := VideoJob.generationDetails prev;
     VideoJob.prompt := VideoJob.prompt prev;
     VideoJob.duration := VideoJob.duration prev;
     VideoJob.resolution := VideoJob.resolution prev;
     VideoJob.createdAt := VideoJob.createdAt prev |}.

(** The [catch] block of [checkJobStatus]. *)
Definition checkJobStatus_catch (jobId : string) (err : JsError) (w : World) : World :=
  let w :=
    if is_num (response_status err) 404 then
      let w := set_retryCount (incremented jobId (retryCount w)) w in
      if atLeast (readCount (retryCount w) jobId) MAX_RETRIES then
        let w := setJob (fun prev =>
                           match prev with
                           | Some p => Some (finalizing p)
                           | None => None
                           end) w in
        match pollingInterval w with
        | Some t => setInterval jobId 5000 (clearInterval t w)
        | None => w
        end
      else
        setTimeout jobId RETRY_DELAY w
    else
      let msg := js_or (JStr (message err)) (JStr "Failed to check job status") in
      let w := setJob (fun prev =>
                         match prev with
                         | Some p => Some (withError msg p)
                         | None => None
                         end) w in
      set_pollingInterval None w in
  setIsLoading false w.

(** The cleanup of the effect: [if (pollingInterval.current) clearInterval(...)]. *)
Definition unmount (w : World) : World :=
  match pollingInterval w with
  | Some t => clearInterval t w
  | None => w
  end.

Definition provisionalJob (env : Env) (v : Form.Values) : VideoJob.t :=
  {| VideoJob.id := "";
     VideoJob.status := JStr "pending";
     VideoJob.error := JUndefined;
     VideoJob.videoUrl := JUndefined;
     VideoJob.progress := JNum 0;
     VideoJob.videoId := JUndefined;
     VideoJob.openAiStatus := JStr "Sending request to OpenAI...";
     VideoJob.openAiResponse := JUndefined;
     VideoJob.result := JUndefined;
     VideoJob.generationDetails := Some (details v (isoNow env));
     VideoJob.prompt := Form.prompt v;
     VideoJob.duration := Form.duration v;
     VideoJob.resolution := Form.resolution v;
     VideoJob.createdAt := isoNow env |}.

(** [handleSubmit] up to its [await]: the provisional record is stored and
    the create request leaves. *)
Definition handleSubmit_begin (env : Env) (v : Form.Values) (w : World) : World :=
  let w := setIsLoading true w in
  let w := setIsGenerating true w in
  let w := setError JNull w in
  let w := setStatusEmoji Cycle w in
  let w := setJob (fun _ => Some (provisionalJob env v)) w in
  set_browser
    (send (PostGenerate (Form.prompt v) (Form.resolution v) (Form.duration v))
       (browser w)) w.

(** The [catch] block of [handleSubmit]. *)
Definition handleSubmit_catch (err : JsError) (w : World) : World :=
  let errorMsg :=
    js_or (response_detail err)
      (js_or (JStr (message err)) (JStr "Failed to start video generation")) in
  let w := setError errorMsg w in
  let w := setStatusEmoji CrossMark w in
  let w := setIsLoading false w in
  setJob (fun prev =>
            match prev with
            | Some p => Some (withOpenAiStatus (JStr ("Error: " ++ js_to_string errorMsg)) p)
            | None => None
            end) w.

(** [handleSubmit] after the [await], for the response body [data].  The
    job id is kept in its string form, the one the request path and the
    key of the retry counter are built from.  [env0] is the clock when the
    handler started, [env] the clock now. *)
Definition handleSubmit_resolved (env0 env : Env) (v : Form.Values) (data : JsVal)
    (w : World) : World :=
  if truthy data && truthy (opt_prop data "id") then
    let jobWithStatus :=
      withOpenAiStatus (JStr "Request received. Processing video generation...")
        (provisionalJob env0 v) in
    startJobPolling env v (js_to_string (opt_prop data "id")) jobWithStatus w
  else
    handleSubmit_catch (newError "No job ID received in response") w.

(** [form.onSubmit(handleSubmit)] of the form library: the rules run on the
    current values, the errors are stored, and the handler is called only
    when no rule failed. *)
Definition form_onSubmit (env : Env) (w : World) : World :=
  let errs := validate (formValues w) in
  let w := set_form (formValues w) errs w in
  if Form.hasErrors errs then w else handleSubmit_begin env (formValues w) w.

(** What can happen to the mounted component. *)
Inductive Event : Type :=
| Input (v : Form.Values)                           (* the user edits the form *)
| Submit                                            (* the form is submitted *)
| CreateResolved (env0 : Env) (v : Form.Values) (data : JsVal)
| CreateRejected (v : Form.Values) (err : JsError)
| Fire (t : positive)                               (* a timer elapses *)
| PollResolved (jobId : string) (r : Resp.t)
| PollRejected (jobId : string) (err : JsError)
| Unmount.

Definition createRequest (v : Form.Values) : Request :=
  PostGenerate (Form.prompt v) (Form.resolution v) (Form.duration v).

(** One event.  [None]: the event cannot happen in [w] (no such timer, no
    such request in flight). *)
Definition step (env : Env) (ev : Event) (w : World) : option World :=
  match ev with
  | Input v => Some (set_form v (formErrors w) w)
  | Submit => Some (form_onSubmit env w)
  | CreateResolved env0 v data =>
      b ← settle (createRequest v) (browser w);
      Some (handleSubmit_resolved env0 env v data (set_browser b w))
  | CreateRejected v err =>
      b ← settle (createRequest v) (browser w);
      Some (handleSubmit_catch err (set_browser b w))
  | Fire t =>
      tm ← timers (browser w) !! t;
      let w := if repeating tm then w else clearInterval t w in
      Some (checkJobStatus_begin (target tm) w)
  | PollResolved jobId r =>
      b ← settle (GetJob jobId) (browser w);
      Some (checkJobStatus_resolved jobId r (set_browser b w))
  | PollRejected jobId err =>
      b ← settle (GetJob jobId) (browser w);
      Some (checkJobStatus_catch jobId err (set_browser b w))
  | Unmount => Some (unmount w)
  end.

Fixpoint run (env : Env) (evs : list Event) (w : World) : option World :=
  match evs with
  | [] => Some w
  | ev :: evs' => w' ← step env ev w; run env evs' w'
  end.

(** Every recurring timer of the table is the one the ref holds. *)
Definition tracked (w : World) : Prop :=
  tracks (pollingInterval w) (timers (browser w)).

(** Every recurring timer of the table runs at the slow cadence. *)
Definition slow (w : World) : Prop := cadence 5000 (timers (browser w)).

(** No recurring timer is left and the ref is cleared. *)
Definition stopped (w : World) : Prop :=
  pollingInterval w = None /\ no_recurring (timers (browser w)).

(** A terminal status. *)
Definition terminal (r : Resp.t) : bool :=
  is_str (Resp.status r) "completed" || is_str (Resp.status r) "failed".

(** The events that call [startJobPolling]. *)
Definition starts_job (ev : Event) : bool :=
  match ev with CreateResolved _ _ _ => true | _ => false end.

(** The events that run the branch of [checkJobStatus] for an error other
    than a not-found, the one that resets the ref without [clearInterval]. *)
Definition other_poll_error (ev : Event) : bool :=
  match ev with
  | PollRejected _ err => negb (is_num (response_status err) 404)
  | _ => false
  end.

(** No event of [evs] starts the poll loop of a new job. *)
Definition no_new_job (evs : list Event) : bool :=
  forallb (fun ev => negb (starts_job ev)) evs.

(** No event of [evs] is a poll error other than a not-found. *)
Definition no_other_poll_error (evs : list Event) : bool :=
  forallb (fun ev => negb (other_poll_error ev)) evs.

Definition reachable (env : Env) (w : World) : Prop :=
  exists evs, run env evs initial = Some w.

End Part000.

(** * The variant of [src/App.tsx] *)

Module App.

Module VideoJob.
Record t : Type := mk {
  id : string;
  status : JsVal;
  error : JsVal;
  videoUrl : JsVal;
  progress : JsVal;
  videoId : JsVal;
  openAiStatus : JsVal;
  openAiResponse : JsVal;
  generationDetails : option GenerationDetails
}.
End VideoJob.

(** The options of the resolution selector; this variant declares no
    resolution rule. *)
Definition supportedResolutions : list (string * string) :=
  [ ("480x480", "480x480 (1:1)");
    ("480x854", "480x854 (9:16 Portrait)");
    ("854x480", "854x480 (16:9)");
    ("720x720", "720x720 (1:1)");
    ("1080x1080", "1080x1080 (1:1 Square)");
    ("1080x1920", "1080x1920 (9:16 Portrait)");
    ("1920x1080", "1920x1080 (16:9)") ].

Definition validate (v : Form.Values) : Form.Errors :=
  {| Form.prompt_error := validate_prompt (Form.prompt v);
     Form.duration_error := validate_duration (Form.duration v);
     Form.resolution_error := None |}.

Record World : Type := mkWorld {
  job : option VideoJob.t;
  isLoading : bool;
  error : JsVal;
  statusEmoji : Emoji;
  showDownloadModal : bool;
  openAiStatus : JsVal;
  pollingInterval : option positive;     (* [pollingInterval.current] *)
  formValues : Form.Values;
  formErrors : Form.Errors;
  browser : Browser
}.

Definition initial : World :=
  {| job := None; isLoading := false; error := JNull; statusEmoji := Hourglass;
     showDownloadModal := false; openAiStatus := JStr "";
     pollingInterval := None;
     formValues := Form.initialValues; formErrors := Form.noErrors;
     browser := freshBrowser |}.

Definition setJob (f : option VideoJob.t -> option VideoJob.t) (w : World) : World :=
  mkWorld (f (job w)) (isLoading w) (error w) (statusEmoji w) (showDownloadModal w)
    (openAiStatus w) (pollingInterval w) (formValues w) (formErrors w) (browser w).

Definition setIsLoading (b : bool) (w : World) : World :=
  mkWorld (job w) b (error w) (statusEmoji w) (showDownloadModal w)
    (openAiStatus w) (pollingInterval w) (formValues w) (formErrors w) (browser w).

Definition setError (e : JsVal) (w : World) : World :=
  mkWorld (job w) (isLoading w) e (statusEmoji w) (showDownloadModal w)
    (openAiStatus w) (pollingInterval w) (formValues w) (formErrors w) (browser w).

Definition setStatusEmoji (e : Emoji) (w : World) : World :=
  mkWorld (job w) (isLoading w) (error w) e (showDownloadModal w)
    (openAiStatus w) (pollingInterval w) (formValues w) (formErrors w) (browser w).

Definition setShowDownloadModal (b : bool) (w : World) : World :=
  mkWorld (job w) (isLoading w) (error w) (statusEmoji w) b
    (openAiStatus w) (pollingInterval w) (formValues w) (formErrors w) (browser w).

Definition setOpenAiStatus (s : JsVal) (w : World) : World :=
  mkWorld (job w) (isLoading w) (error w) (statusEmoji w) (showDownloadModal w)
    s (pollingInterval w) (formValues w) (formErrors w) (browser w).

Definition set_pollingInterval (h : option positive) (w : World) : World :=
  mkWorld (job w) (isLoading w) (error w) (statusEmoji w) (showDownloadModal w)
    (openAiStatus w) h (formValues w) (formErrors w) (browser w).

Definition set_form (v : Form.Values) (e : Form.Errors) (w : World) : World :=
  mkWorld (job w) (isLoading w) (error w) (statusEmoji w) (showDownloadModal w)
    (openAiStatus w) (pollingInterval w) v e (browser w).

Definition set_browser (b : Browser) (w : World) : World :=
  mkWorld (job w) (isLoading w) (error w) (statusEmoji w) (showDownloadModal w)
    (openAiStatus w) (pollingInterval w) (formValues w) (formErrors w) b.

(** [pollingInterval.current = setInterval(poll, period)]. *)
Definition setInterval (jobId : string) (period : Z) (w : World) : World :=
  let '(t, b) := setTimer (mkTimer true period jobId) (browser w) in
  set_pollingInterval (Some t) (set_browser b w).

Definition clearInterval (t : positive) (w : World) : World :=
  set_browser (clearTimer t (browser w)) w.

(** [if (pollingInterval.current !== null) { clearInterval(...); pollingInterval.current = null; }] *)
Definition stopPolling (w : World) : World :=
  match pollingInterval w with
  | Some t => set_pollingInterval None (clearInterval t w)
  | None => w
  end.

(** [poll] up to its [await]. *)
Definition poll_begin (jobId : string) (w : World) : World :=
  set_browser (send (GetJob jobId) (browser w)) w.

(** The [videoUrl] computed inside the updater of [setJob]. *)
Definition pollVideoUrl (env : Env) (r : Resp.t) : JsVal :=
  if truthy (opt_prop (Resp.result r) "video_url")
  then opt_prop (Resp.result r) "video_url"
  else if truthy (opt_prop (Resp.result r) "video_id")
       then JStr (origin env ++ "/api/v1/videos/"
                  ++ js_to_string (opt_prop (Resp.result r) "video_id")
                  ++ "?t=" ++ pretty (dateNow env))
       else JUndefined.

(** The updater of [setJob] in [poll], for a record that exists. *)
Definition mergePoll (env : Env) (prev : VideoJob.t) (r : Resp.t) : VideoJob.t :=
  {| VideoJob.id := VideoJob.id prev;
     VideoJob.status := js_or (Resp.status r) (VideoJob.status prev);
     VideoJob.error := js_or (Resp.error r) (VideoJob.error prev);
     VideoJob.videoUrl := js_or (pollVideoUrl env r) (VideoJob.videoUrl prev);
     VideoJob.progress :=
       if is_defined (Resp.progress r) then Resp.progress r else VideoJob.progress prev;
     VideoJob.videoId := VideoJob.videoId prev;
     VideoJob.openAiStatus := js_or (Resp.openai_status r) (VideoJob.openAiStatus prev);
     VideoJob.openAiResponse :=
       js_or (Resp.openai_response r) (VideoJob.openAiResponse prev);
     VideoJob.generationDetails := VideoJob.generationDetails prev |}.

(** The updater of [setJob] in [poll], when there is no record. *)
Definition createdByPoll (env : Env) (jobId : string) (r : Resp.t) : VideoJob.t :=
  {| VideoJob.id := jobId;
     VideoJob.status := js_or (Resp.status r) (JStr "pending");
     VideoJob.error := Resp.error r;
     VideoJob.videoUrl := pollVideoUrl env r;
     VideoJob.progress := js_or (Resp.progress r) (JNum 0);
     VideoJob.videoId := JUndefined;
     VideoJob.openAiStatus := Resp.openai_status r;
     VideoJob.openAiResponse := Resp.openai_response r;
     VideoJob.generationDetails :=
       Some {| gd_prompt := ""; gd_duration := 0; gd_resolution := "";
               gd_createdAt := isoNow env |} |}.

(** [poll] after the [await], for a body that parsed.  (A body that does
    not parse throws inside the [try]: that is [poll_catch] with the error
    'Invalid response format from server'.) *)
Definition poll_resolved (env : Env) (jobId : string) (r : Resp.t) (w : World) : World :=
  let w := if truthy (Resp.openai_status r)
           then setOpenAiStatus
                  (JStr ("OpenAI Status: " ++ js_to_string (Resp.openai_status r))) w
           else w in
  let w := setJob (fun prev =>
                     match prev with
                     | None => Some (createdByPoll env jobId r)
                     | Some p => Some (mergePoll env p r)
                     end) w in
  if is_str (Resp.status r) "completed" then
    let w := stopPolling w in
    let w := setIsLoading false w in
    let w := setStatusEmoji CheckMark w in
    let w := setOpenAiStatus (JStr "Video generation completed successfully!") w in
    setShowDownloadModal true w
  else if is_str (Resp.status r) "failed" then
    let w := stopPolling w in
    let w := setIsLoading false w in
    let w := setStatusEmoji CrossMark w in
    let errorMsg := js_or (Resp.error r) (JStr "Video generation failed") in
    let w := setError errorMsg w in
    setOpenAiStatus (JStr ("Error: " ++ js_to_string errorMsg)) w
  else
    let w := setStatusEmoji Gear w in
    setOpenAiStatus
      (js_or (Resp.openai_status r)
         (JStr ("Processing" ++
                if truthy (Resp.progress r)
                then " - " ++ js_to_string (Resp.progress r) ++ "%"
                else "..."))) w.

(** The [catch] block of [poll]. *)
Definition poll_catch (err : JsError) (w : World) : World :=
  let errorMessage := js_or (JStr (message err)) (JStr "Unknown error") in
  let errorMsg :=
    js_or (response_detail err)
      (js_or errorMessage (JStr "Failed to check job status")) in
  let w := setError (JStr ("Error: " ++ js_to_string errorMsg)) w in
  let w := setStatusEmoji CrossMark w in
  let w := setOpenAiStatus (JStr "Failed to check job status") w in
  let w := stopPolling w in
  setIsLoading false w.

(** [startJobPolling]: cancel, poll once at once, then every 2 seconds. *)
Definition startJobPolling (jobId : string) (w : World) : World :=
  let w := stopPolling w in
  let w := poll_begin jobId w in
  setInterval jobId 2000 w.

(** The cleanup of the effect. *)
Definition unmount (w : World) : World := stopPolling w.

(** [handleGenerate] up to its [await]. *)
Definition handleGenerate_begin (v : Form.Values) (w : World) : World :=
  let w := setIsLoading true w in
  let w := setError JNull w in
  let w := setStatusEmoji Cycle w in
  let w := setOpenAiStatus (JStr "Sending request to OpenAI...") w in
  set_browser
    (send (PostGenerate (Form.prompt v) (Form.resolution v) (Form.duration v))
       (browser w)) w.

(** The [catch] block of [handleGenerate]. *)
Definition handleGenerate_catch (err : JsError) (w : World) : World :=
  let errorMsg :=
    js_or (response_detail err)
      (js_or (JStr (message err)) (JStr "Failed to start video generation")) in
  let w := setError (JStr ("Error: " ++ js_to_string errorMsg)) w in
  let w := setIsLoading false w in
  setStatusEmoji CrossMark w.

(** [handleGenerate] after the [await], for the response body [data]. *)
Definition handleGenerate_resolved (env : Env) (v : Form.Values) (data : JsVal)
    (w : World) : World :=
  if truthy data && truthy (opt_prop data "id") then
    let jobId := js_to_string (opt_prop data "id") in
    let w := setJob (fun _ =>
                 Some {| VideoJob.id := jobId;
                         VideoJob.status := JStr "pending";
                         VideoJob.error := JUndefined;
                         VideoJob.videoUrl := JUndefined;
                         VideoJob.progress := JNum 0;
                         VideoJob.videoId := JUndefined;
                         VideoJob.openAiStatus := JUndefined;
                         VideoJob.openAiResponse := JUndefined;
                         VideoJob.generationDetails :=
                           Some {| gd_prompt := Form.prompt v;
                                   gd_duration := Form.duration v;
                                   gd_resolution := Form.resolution v;
                                   gd_createdAt := isoNow env |} |}) w in
    let w := setOpenAiStatus
               (JStr "Request received. Processing video generation...") w in
    startJobPolling jobId w
  else
    handleGenerate_catch (newError "No job ID received in response") w.

(** [form.onSubmit(handleGenerate)] of the form library. *)
Definition form_onSubmit (w : World) : World :=
  let errs := validate (formValues w) in
  let w := set_form (formValues w) errs w in
  if Form.hasErrors errs then w else handleGenerate_begin (formValues w) w.

Inductive Event : Type :=
| Input (v : Form.Values)
| Submit
| CreateResolved (v : Form.Values) (data : JsVal)
| CreateRejected (v : Form.Values) (err : JsError)
| Fire (t : positive)
| PollResolved (jobId : string) (r : Resp.t)
| PollRejected (jobId : string) (err : JsError)
| Unmount.

Definition createRequest (v : Form.Values) : Request :=
  PostGenerate (Form.prompt v) (Form.resolution v) (Form.duration v).

Definition step (env : Env) (ev : Event) (w : World) : option World :=
  match ev with
  | Input v => Some (set_form v (formErrors w) w)
  | Submit => Some (form_onSubmit w)
  | CreateResolved v data =>
      b ← settle (createRequest v) (browser w);
      Some (handleGenerate_resolved env v data (set_browser b w))
  | CreateRejected v err =>
      b ← settle (createRequest v) (browser w);
      Some (handleGenerate_catch err (set_browser b w))
  | Fire t =>
      tm ← timers (browser w) !! t;
      let w := if repeating tm then w else clearInterval t w in
      Some (poll_begin (target tm) w)
  | PollResolved jobId r =>
      b ← settle (GetJob jobId) (browser w);
      Some (poll_resolved env jobId r (set_browser b w))
  | PollRejected jobId err =>
      b ← settle (GetJob jobId) (browser w);
      Some (poll_catch err (set_browser b w))
  | Unmount => Some (unmount w)
  end.

Fixpoint run (env : Env) (evs : list Event) (w : World) : option World :=
  match evs with
  | [] => Some w
  | ev :: evs' => w' ← step env ev w; run env evs' w'
  end.

(** The timer table holds nothing but the recurring timer of the ref. *)
Definition tracked (w : World) : Prop :=
  tracks (pollingInterval w) (timers (browser w)) /\
  no_oneoff (timers (browser w)).

(** No timer is left and the ref is cleared. *)
Definition stopped (w : World) : Prop :=
  pollingInterval w = None /\ timers (browser w) = ∅.

(** A terminal status. *)
Definition terminal (r : Resp.t) : bool :=
  is_str (Resp.status r) "completed" || is_str (Resp.status r) "failed".

(** The events that call [startJobPolling]. *)
Definition starts_job (ev : Event) : bool :=
  match ev with CreateResolved _ _ => true | _ => false end.

(** No event of [evs] starts the poll loop of a new job. *)
Definition no_new_job (evs : list Event) : bool :=
  forallb (fun ev => negb (starts_job ev)) evs.

Definition reachable (env : Env) (w : World) : Prop :=
  exists evs, run env evs initial = Some w.

End App.

(** The status requests among the requests sent. *)
Definition polls (b : Browser) : list Request :=
  List.filter (fun rq => match rq with GetJob _ => true | _ => false end) (requests b).

(** * The filename derivation as the specification words it

    Tokens are the maximal runs of code units that are not white space. *)

Fixpoint tokens_go (cur : list ascii) (s : list ascii) : list (list ascii) :=
  match s with
  | [] => match cur with [] => [] | _ => [rev cur] end
  | c :: s' =>
      if isSpace c
      then match cur with
           | [] => tokens_go [] s'
           | _ => rev cur :: tokens_go [] s'
           end
      else tokens_go (c :: cur) s'
  end.

Definition tokens (s : string) : list (list ascii) :=
  tokens_go [] (list_ascii_of_string s).

(** The class [[a-z0-9_]]. *)
Definition safe_char (c : ascii) : bool :=
  in_range 97 122 c || in_range 48 57 c || (code c =? 95)%N.

(** First two tokens, lowercased, joined with an underscore. *)
Definition stem (promptText : string) : list ascii :=
  join ["_"%char] (map toLowerCase (firstn 2 (tokens promptText))).

(** The derivation with the unsafe characters stripped, as the
    specification has it. *)
Definition deriveFilename_stripping (promptText : string) : string :=
  match tokens promptText with
  | [] => "video.mp4"
  | _ => string_of_list_ascii (List.filter safe_char (stem promptText)) ++ ".mp4"
  end.

(** The derivation with every unsafe character replaced by an underscore. *)
Definition deriveFilename_replacing (promptText : string) : string :=
  match tokens promptText with
  | [] => "video.mp4"
  | _ => string_of_list_ascii
           (map (fun c => if safe_char c then c else "_"%char) (stem promptText))
         ++ ".mp4"
  end.

(** A prompt that is empty or made of white space only. *)
Definition blank (s : string) : bool := forallb isSpace (list_ascii_of_string s).

(** * Concrete inputs used by the examples *)

Definition env0 : Env :=
  {| isoNow := "2025-01-01T00:00:00.000Z";
     dateNow := 1735689600000;
     origin := "https://sora-wafl.azurewebsites.net" |}.

Definition catValues : Form.Values :=
  {| Form.prompt := "cat on a skateboard"; Form.duration := 5;
     Form.resolution := "854x480" |}.

(** [{ id: "job-1" }] *)
Definition created : JsVal := JObj [("id", JStr "job-1")].

Definition notFound : JsError :=
  {| response_status := JNum 404; response_detail := JUndefined;
     message := "Request failed with status code 404" |}.

Definition serverError : JsError :=
  {| response_status := JNum 500; response_detail := JUndefined;
     message := "Request failed with status code 500" |}.

Definition networkError : JsError :=
  {| response_status := JUndefined; response_detail := JUndefined;
     message := "Network Error" |}.

(** [{ status: "completed", result: { video_url: "https://x/y.mp4" } }] *)
Definition completedResp : Resp.t :=
  {| Resp.status := JStr "completed";
     Resp.result := JObj [("video_url", JStr "https://x/y.mp4")];
     Resp.error := JUndefined; Resp.progress := JUndefined;
     Resp.openai_status := JUndefined; Resp.openai_response := JUndefined |}.

(** [{ status: "failed" }] *)
Definition failedResp : Resp.t :=
  {| Resp.status := JStr "failed"; Resp.result := JUndefined;
     Resp.error := JUndefined; Resp.progress := JUndefined;
     Resp.openai_status := JUndefined; Resp.openai_response := JUndefined |}.

(** [{ status: "processing", progress: 30 }] *)
Definition processingResp : Resp.t :=
  {| Resp.status := JStr "processing"; Resp.result := JUndefined;
     Resp.error := JUndefined; Resp.progress := JNum 30;
     Resp.openai_status := JUndefined; Resp.openai_response := JUndefined |}.

(** [{ progress: 55 }] *)
Definition progressOnly : Resp.t :=
  {| Resp.status := JUndefined; Resp.result := JUndefined;
     Resp.error := JUndefined; Resp.progress := JNum 55;
     Resp.openai_status := JUndefined; Resp.openai_response := JUndefined |}.

(** [{ status: "", error: "", progress: 0 }] *)
Definition blankResp : Resp.t :=
  {| Resp.status := JStr ""; Resp.result := JUndefined;
     Resp.error := JStr ""; Resp.progress := JNum 0;
     Resp.openai_status := JUndefined; Resp.openai_response := JUndefined |}.

(** A job known to be processing at 40 percent, in each variant. *)
Definition processing40 : Part000.VideoJob.t :=
  {| Part000.VideoJob.id := "job-1";
     Part000.VideoJob.status := JStr "processing";
     Part000.VideoJob.error := JUndefined;
     Part000.VideoJob.videoUrl := JUndefined;
     Part000.VideoJob.progress := JNum 40;
     Part000.VideoJob.videoId := JUndefined;
     Part000.VideoJob.openAiStatus := JStr "Request received. Processing video generation...";
     Part000.VideoJob.openAiResponse := JUndefined;
     Part000.VideoJob.result := JUndefined;
     Part000.VideoJob.generationDetails := Some (Part000.details catValues (isoNow env0));
     Part000.VideoJob.prompt := "cat on a skateboard";
     Part000.VideoJob.duration := 5;
     Part000.VideoJob.resolution := "854x480";
     Part000.VideoJob.createdAt := isoNow env0 |}.

Definition processing40App : App.VideoJob.t :=
  {| App.VideoJob.id := "job-1";
     App.VideoJob.status := JStr "processing";
     App.VideoJob.error := JUndefined;
     App.VideoJob.videoUrl := JUndefined;
     App.VideoJob.progress := JNum 40;
     App.VideoJob.videoId := JUndefined;
     App.VideoJob.openAiStatus := JUndefined;
     App.VideoJob.openAiResponse := JUndefined;
     App.VideoJob.generationDetails := Some (Part000.details catValues (isoNow env0)) |}.

(** The form is filled in and submitted, and the create request answers
    [{ id: "job-1" }]. *)
Definition submitted : list Part000.Event :=
  [ Part000.Input catValues; Part000.Submit;
    Part000.CreateResolved env0 catValues created ].

Definition submittedApp : list App.Event :=
  [ App.Input catValues; App.Submit; App.CreateResolved catValues created ].

(** The world the events [evs] lead to from the mounted component. *)
Definition worldAfter (evs : list Part000.Event) : Part000.World :=
  default Part000.initial (Part000.run env0 evs Part000.initial).

Definition worldAfterApp (evs : list App.Event) : App.World :=
  default App.initial (App.run env0 evs App.initial).

(** The recurring timer fires and the status request is answered 404. *)
Definition miss : list Part000.Event :=
  [ Part000.Fire 1; Part000.PollRejected "job-1" notFound ].

(** Job "job-1" is being polled; four polls were answered 404 and the
    answer to a fifth one is awaited. *)
Definition fourMisses : Part000.World :=
  worldAfter (submitted ++ miss ++ miss ++ miss ++ miss ++ [Part000.Fire 1]).

(** Job "job-1" is being polled and the answer to the first poll is
    awaited. *)
Definition firstPoll : Part000.World :=
  worldAfter (submitted ++ [Part000.Fire 1]).

Definition firstPollApp : App.World := worldAfterApp submittedApp.

(** One poll is answered 404, which schedules the one-off retry 2; the next
    poll is answered "completed". *)
Definition completedWithRetryPending : list Part000.Event :=
  submitted ++ miss ++ [ Part000.Fire 1; Part000.PollResolved "job-1" completedResp ].

(** The first poll of "job-1" fails with a 500. *)
Definition afterServerError : list Part000.Event :=
  submitted ++ [ Part000.Fire 1; Part000.PollRejected "job-1" serverError ].

(** [{ id: "job-2" }] *)
Definition created2 : JsVal := JObj [("id", JStr "job-2")].

(** After that failure the form is submitted again; the create request
    answers with the same job id, or with a new one. *)
Definition resubmitted : list Part000.Event :=
  afterServerError ++ [ Part000.Submit; Part000.CreateResolved env0 catValues created ].

Definition resubmitted2 : list Part000.Event :=
  afterServerError ++ [ Part000.Submit; Part000.CreateResolved env0 catValues created2 ].

(** Two polls are in flight when the answer "completed" to one of them is
    processed; the answer to the other is still to come. *)
Definition completedWithPollInFlight : list Part000.Event :=
  submitted ++ [ Part000.Fire 1; Part000.Fire 1;
                 Part000.PollResolved "job-1" completedResp ].

Definition completedWithPollInFlightApp : list App.Event :=
  submittedApp ++ [ App.Fire 1; App.PollResolved "job-1" completedResp ].

(** The create request fails with a 500. *)
Definition createFailed : list Part000.Event :=
  [ Part000.Input catValues; Part000.Submit;
    Part000.CreateRejected catValues serverError ].

Definition createFailedApp : list App.Event :=
  [ App.Input catValues; App.Submit; App.CreateRejected catValues serverError ].

(** A create response without a job identifier, [{ ok: true }]. *)
Definition createdWithoutId : JsVal := JObj [("ok", JBool true)].

(** The create request of the filled-in form is in flight. *)
Definition submitting : Part000.World :=
  worldAfter [ Part000.Input catValues; Part000.Submit ].

Definition submittingApp : App.World :=
  worldAfterApp [ App.Input catValues; App.Submit ].

(** The mounted component with the form filled in with [v]. *)
Definition filled (v : Form.Values) : Part000.World :=
  Part000.set_form v Form.noErrors Part000.initial.

Definition filledApp (v : Form.Values) : App.World :=
  App.set_form v Form.noErrors App.initial.

(** * The HTTP client ([api/client], the file [unnamed/part_001])

    The request interceptor, on the configuration of a request.  (The
    response interceptor logs and rejects with the error it was given: a
    rejection reaches the handlers unchanged.) *)

Module ApiClient.

Record Config : Type := mkConfig {
  method : option string;
  url : string;
  headers : gmap string string;
  params : gmap string JsVal;      (* an absent [params] is the empty object *)
  data : JsVal
}.

Definition baseURL : string := "https://sora-wafl.azurewebsites.net".
Definition timeout : Z := 30000.

(** [s.toLowerCase()] *)
Definition lower (s : string) : string :=
  string_of_list_ascii (toLowerCase (list_ascii_of_string s)).

(** [config.method?.toLowerCase() === 'get'] *)
Definition isGet (config : Config) : bool :=
  match method config with
  | Some m => String.eqb (lower m) "get"
  | None => false
  end.

(** The request interceptor; [now] is [Date.now()]. *)
Definition onRequest (now : Z) (config : Config) : Config :=
  {| method := method config;
     url := url config;
     headers := <["Accept" := "application/json"]>
                  (<["Content-Type" := "application/json"]> (headers config));
     params := if isGet config
               then <["_t" := JNum now]> (params config)
               else params config;
     data := data config |}.

(** [apiClient.get(path)] and [apiClient.post(path, body)] before the
    interceptor. *)
Definition getConfig (path : string) : Config :=
  {| method := Some "get"; url := path; headers := ∅; params := ∅;
     data := JUndefined |}.

Definition postConfig (path : string) (body : JsVal) : Config :=
  {| method := Some "post"; url := path; headers := ∅; params := ∅;
     data := body |}.

(** The status request of a job as it leaves the client. *)
Definition statusRequest (now : Z) (jobId : string) : Config :=
  onRequest now (getConfig ("/api/job/" ++ jobId)).

End ApiClient.

(** * What the page shows *)

(** The conditions of the markup of [unnamed/part_000]. *)
Module Part000View.

(** [(isLoading || isGenerating)]: the full-screen overlay is rendered. *)
Definition showsOverlay (w : Part000.World) : bool :=
  Part000.isLoading w || Part000.isGenerating w.

(** [disabled={isLoading}] on the inputs and on the submit button. *)
Definition formDisabled (w : Part000.World) : bool := Part000.isLoading w.

(** [job?.status === 'completed' && job.result?.video_url]: the download
    button of the form is rendered. *)
Definition offersDownload (w : Part000.World) : bool :=
  match Part000.job w with
  | Some j => is_str (Part000.VideoJob.status j) "completed"
              && truthy (opt_prop (Part000.VideoJob.result j) "video_url")
  | None => false
  end.

(** [getVideoFilename(form.values.prompt)], the name the download gets. *)
Definition downloadName (w : Part000.World) : string :=
  getVideoFilename (Form.prompt (Part000.formValues w)).

End Part000View.

(** The conditions of the markup of [src/App.tsx]. *)
Module AppView.

Definition showsOverlay (w : App.World) : bool := App.isLoading w.

Definition formDisabled (w : App.World) : bool := App.isLoading w.

(** [job?.status === 'completed' && job.videoUrl] *)
Definition offersDownload (w : App.World) : bool :=
  match App.job w with
  | Some j => is_str (App.VideoJob.status j) "completed"
              && truthy (App.VideoJob.videoUrl j)
  | None => false
  end.

Definition downloadName (w : App.World) : string :=
  getVideoFilename (Form.prompt (App.formValues w)).

End AppView.

(** * The download helper *)

(** The anchor element the helper creates. *)
Module Anchor.
Record t : Type := mk {
  href : string;
  download : string;
  target : string;
  rel : string
}.
End Anchor.

(** The children the helper appends to the body: each created element is a
    node of its own, told from the others by a number. *)
Fixpoint removeChild (n : nat) (body : list (nat * Anchor.t))
  : list (nat * Anchor.t) :=
  match body with
  | [] => []
  | x :: body' => if Nat.eqb x.1 n then body' else x :: removeChild n body'
  end.

Definition dquote : string := String (ascii_of_nat 34) EmptyString.
Definition newline : string := String (ascii_of_nat 10) EmptyString.

(** [handleDownload] of [src/App.tsx], with the timers it sets. *)
Module AppDownload.

(** What [new URL(videoUrl)], [searchParams.set('t', Date.now())] and
    [toString()] give: the address with the parameter, or the error
    [new URL] throws on a string that is no absolute address. *)
Inductive UrlOutcome : Type :=
| Parsed (address : string)
| Threw (msg : string).

(** The callbacks the helper hands to [setTimeout]. *)
Inductive Callback : Type :=
| RemoveAnchor (n : nat)       (* after 100 ms *)
| ShowHint                     (* 2000 ms after the anchor was removed *)
| StopSaving.                  (* after 1000 ms, from the [finally] block *)

Record Page : Type := mkPage {
  world : App.World;
  isSaving : bool;
  nextNode : nat;                     (* the number of the next element created *)
  body : list (nat * Anchor.t);       (* the anchors appended to the body *)
  clicked : list Anchor.t;            (* the anchors clicked, latest first *)
  pending : list (Z * Callback)       (* the timers of the helper, with their delay *)
}.


Definition failure (errorMessage : string) : string :=
  "Failed to start download: " ++ errorMessage ++ newline
  ++ "You can right-click the video and select "
  ++ dquote ++ "Save video as..." ++ dquote.

(** [handleDownload(videoUrl, filename)]; the result is what the promise
    resolves to. *)
Definition handleDownload (u : UrlOutcome) (filename : string) (pg : Page)
  : bool * Page :=
  let w := App.setError JNull (world pg) in
  match u with
  | Parsed address =>
      let a := {| Anchor.href := address; Anchor.download := filename;
                  Anchor.target := "_blank"; Anchor.rel := "noopener noreferrer" |} in
      (true,
       {| world := w;
          isSaving := true;
          nextNode := S (nextNode pg);
          body := body pg ++ [(nextNode pg, a)];
          clicked := a :: clicked pg;
          pending := pending pg ++ [(100%Z, RemoveAnchor (nextNode pg));
                                    (1000%Z, StopSaving)] |})
  | Threw msg =>
      (false,
       {| world := App.setError (JStr (failure msg)) w;
          isSaving := true;
          nextNode := nextNode pg;
          body := body pg;
          clicked := clicked pg;
          pending := pending pg ++ [(1000%Z, StopSaving)] |})
  end.




(** The numbers of the children are below the number of the next element. *)
Definition wellNumbered (pg : Page) : Prop :=
  Forall (fun x => x.1 < nextNode pg) (body pg).

(** The page around the world [w], with no download under way. *)
Definition idle (w : App.World) : Page :=
  {| world := w; isSaving := false; nextNode := 0; body := []; clicked := [];
     pending := [] |}.

End AppDownload.

(** [handleDownload] of [unnamed/part_000], when no DOM call throws. *)
Module Part000Download.

Record Page : Type := mkPage {
  world : Part000.World;
  isSaving : bool;
  nextNode : nat;
  body : list (nat * Anchor.t);
  clicked : list Anchor.t;
  revoked : list string               (* the arguments of [revokeObjectURL] *)
}.

Definition handleDownload (videoUrl filename : string) (pg : Page) : Page :=
  let a := {| Anchor.href := videoUrl; Anchor.download := filename;
              Anchor.target := EmptyString; Anchor.rel := EmptyString |} in
  {| world := world pg;
     isSaving := false;
     nextNode := S (nextNode pg);
     body := removeChild (nextNode pg) (body pg ++ [(nextNode pg, a)]);
     clicked := a :: clicked pg;
     revoked := videoUrl :: revoked pg |}.

Definition wellNumbered (pg : Page) : Prop :=
  Forall (fun x => x.1 < nextNode pg) (body pg).

(** The anchor of one call. *)
Definition anchorOf (call : string * string) : Anchor.t :=
  {| Anchor.href := call.1; Anchor.download := call.2;
     Anchor.target := EmptyString; Anchor.rel := EmptyString |}.

(** Clicks on the download buttons one after the other, each with its
    address and its file name. *)
Definition downloads (calls : list (string * string)) (pg : Page) : Page :=
  fold_left (fun pg call => handleDownload call.1 call.2 pg) calls pg.

(** The page around the world [w], before any download. *)
Definition idle (w : Part000.World) : Page :=
  {| world := w; isSaving := false; nextNode := 0; body := []; clicked := [];
     revoked := [] |}.

End Part000Download.

(** * Runs of events *)

(** The four things one callback does to the browser, in this order and
    each at most once: the promise of [st] settles, the timer [cl] is
    cleared, the request [sd] is sent, the timer [tm] is set. *)
Definition shape (st : option Request) (cl : option positive)
    (sd : option Request) (tm : option Timer) (b : Browser) : option Browser :=
  b0 ← match st with Some rq => settle rq b | None => Some b end;
  let b1 := match cl with Some t => clearTimer t b0 | None => b0 end in
  let b2 := match sd with Some rq => send rq b1 | None => b1 end in
  Some (match tm with Some x => (setTimer x b2).2 | None => b2 end).

(** Every handle of the timer table is below the next handle. *)
Definition fresh (b : Browser) : Prop :=
  forall t tm, timers b !! t = Some tm -> (t < nextTimer b)%positive.

(** Every request in flight has been sent. *)
Definition accounted (b : Browser) : Prop :=
  forall rq, rq ∈ inflight b -> rq ∈ requests b.

(** Every timer and every status request is for one of the job ids [ids]. *)
Definition only_for (ids : list string) (b : Browser) : Prop :=
  (forall t tm, timers b !! t = Some tm -> target tm ∈ ids) /\
  (forall jobId, GetJob jobId ∈ requests b -> jobId ∈ ids).

(** The identifier a create response hands out, if it has one. *)
Definition handedOut (data : JsVal) : list string :=
  if truthy data && truthy (opt_prop data "id")
  then [js_to_string (opt_prop data "id")]
  else [].

Module Part000Trace.

(** The identifiers handed out along [evs]. *)
Fixpoint jobIds (evs : list Part000.Event) : list string :=
  match evs with
  | [] => []
  | Part000.CreateResolved _ _ data :: evs' => handedOut data ++ jobIds evs'
  | _ :: evs' => jobIds evs'
  end.

(** The requests an event may send: the create request of a form that
    passed the rules, on a submission; the status request of the job of a
    timer, when that timer elapses. *)
Definition legit_send (ev : Part000.Event) (w : Part000.World) (rq : Request) : Prop :=
  (ev = Part000.Submit /\
   rq = Part000.createRequest (Part000.formValues w) /\
   Form.hasErrors (Part000.validate (Part000.formValues w)) = false) \/
  (exists t x, ev = Part000.Fire t /\
     timers (Part000.browser w) !! t = Some x /\ rq = GetJob (target x)).

(** The timers an event may set: for the identifier a create response
    hands out, or for the job of a status request that was in flight. *)
Definition legit_set (ev : Part000.Event) (w : Part000.World) (x : Timer) : Prop :=
  (exists envS v data, ev = Part000.CreateResolved envS v data /\
     handedOut data = [target x]) \/
  (exists err, ev = Part000.PollRejected (target x) err /\
     GetJob (target x) ∈ inflight (Part000.browser w)).

(** The events that replace the job record: a submission and the start of
    the poll loop. *)
Definition replaces_job (ev : Part000.Event) : bool :=
  match ev with
  | Part000.Submit | Part000.CreateResolved _ _ _ => true
  | _ => false
  end.

(** The events that can end a poll loop: a terminal status, a poll error
    other than a not-found, the teardown of the view. *)
Definition ends_polling (ev : Part000.Event) : bool :=
  match ev with
  | Part000.PollResolved _ r => Part000.terminal r
  | Part000.PollRejected _ err => negb (is_num (response_status err) 404)
  | Part000.Unmount => true
  | _ => false
  end.

(** The events that run a terminal branch of the status check. *)
Definition terminal_answer (ev : Part000.Event) : bool :=
  match ev with
  | Part000.PollResolved _ r => Part000.terminal r
  | _ => false
  end.

(** No event of [evs] runs a terminal branch of the status check. *)
Definition no_terminal_answer (evs : list Part000.Event) : bool :=
  forallb (fun ev => negb (terminal_answer ev)) evs.

(** No event of [evs] can end a poll loop. *)
Definition keeps_polling (evs : list Part000.Event) : bool :=
  forallb (fun ev => negb (ends_polling ev)) evs.

(** The ref holds a recurring timer of the table. *)
Definition polling (w : Part000.World) : Prop :=
  exists t tm, Part000.pollingInterval w = Some t /\
               timers (Part000.browser w) !! t = Some tm /\
               repeating tm = true.

(** The parameters of a create request pass the three rules. *)
Definition valid_request (rq : Request) : Prop :=
  match rq with
  | PostGenerate p r d =>
      blank p = false /\ (1 <= d <= 10)%Z /\
      In r (map fst Part000.supportedResolutions)
  | GetJob _ => True
  end.

(** What every later record [p'] of a job keeps of an earlier record [p]:
    the identifier and the request parameters as they are, and a status,
    an error, a result and a video address once they are there. *)
Definition keeps (p p' : Part000.VideoJob.t) : Prop :=
  Part000.VideoJob.id p' = Part000.VideoJob.id p /\
  Part000.VideoJob.prompt p' = Part000.VideoJob.prompt p /\
  Part000.VideoJob.duration p' = Part000.VideoJob.duration p /\
  Part000.VideoJob.resolution p' = Part000.VideoJob.resolution p /\
  Part000.VideoJob.createdAt p' = Part000.VideoJob.createdAt p /\
  Part000.VideoJob.generationDetails p' = Part000.VideoJob.generationDetails p /\
  (truthy (Part000.VideoJob.status p) = true ->
     truthy (Part000.VideoJob.status p') = true) /\
  (truthy (Part000.VideoJob.error p) = true ->
     truthy (Part000.VideoJob.error p') = true) /\
  (truthy (Part000.VideoJob.result p) = true ->
     truthy (Part000.VideoJob.result p') = true) /\
  (truthy (Part000.VideoJob.videoUrl p) = true ->
     truthy (Part000.VideoJob.videoUrl p') = true).

(** No event of [evs] replaces the job record. *)
Definition same_job (evs : list Part000.Event) : bool :=
  forallb (fun ev => negb (replaces_job ev)) evs.

(** [n] not-founds in a row for [jobId]. *)
Fixpoint notFounds (n : nat) (jobId : string) (err : JsError) (w : Part000.World)
  : Part000.World :=
  match n with
  | O => w
  | S n' => Part000.checkJobStatus_catch jobId err (notFounds n' jobId err w)
  end.

End Part000Trace.

Module AppTrace.

Fixpoint jobIds (evs : list App.Event) : list string :=
  match evs with
  | [] => []
  | App.CreateResolved _ data :: evs' => handedOut data ++ jobIds evs'
  | _ :: evs' => jobIds evs'
  end.

Definition legit_send (ev : App.Event) (w : App.World) (rq : Request) : Prop :=
  (ev = App.Submit /\
   rq = App.createRequest (App.formValues w) /\
   Form.hasErrors (App.validate (App.formValues w)) = false) \/
  (exists t x, ev = App.Fire t /\
     timers (App.browser w) !! t = Some x /\ rq = GetJob (target x)) \/
  (exists v data jobId, ev = App.CreateResolved v data /\
     handedOut data = [jobId] /\ rq = GetJob jobId).

Definition legit_set (ev : App.Event) (w : App.World) (x : Timer) : Prop :=
  exists v data, ev = App.CreateResolved v data /\ handedOut data = [target x].

Definition keeps (q q' : App.VideoJob.t) : Prop :=
  App.VideoJob.id q' = App.VideoJob.id q /\
  App.VideoJob.generationDetails q' = App.VideoJob.generationDetails q /\
  (truthy (App.VideoJob.status q) = true ->
     truthy (App.VideoJob.status q') = true) /\
  (truthy (App.VideoJob.error q) = true ->
     truthy (App.VideoJob.error q') = true) /\
  (truthy (App.VideoJob.videoUrl q) = true ->
     truthy (App.VideoJob.videoUrl q') = true).

(** The parameters of a create request pass the two rules of the variant. *)
Definition valid_request (rq : Request) : Prop :=
  match rq with
  | PostGenerate p r d => blank p = false /\ (1 <= d <= 10)%Z
  | GetJob _ => True
  end.

End AppTrace.

(** ** Runs in which the fifth not-found finds no timer to slow down *)

(** A not-found is answered "completed" one poll later; the one-off retry 2
    is pending then, and it and its four successors are answered 404. *)
Definition fiveMissesAfterCompleted : list Part000.Event :=
  completedWithRetryPending ++
  [ Part000.Fire 2; Part000.PollRejected "job-1" notFound;
    Part000.Fire 3; Part000.PollRejected "job-1" notFound;
    Part000.Fire 4; Part000.PollRejected "job-1" notFound;
    Part000.Fire 5; Part000.PollRejected "job-1" notFound;
    Part000.Fire 6; Part000.PollRejected "job-1" notFound ].

(** The first poll fails with a 500, the next five are answered 404. *)
Definition fiveMissesAfterError : list Part000.Event :=
  afterServerError ++ miss ++ miss ++ miss ++ miss ++ miss.

(** [{ id: "constructor" }], and six polls of that job answered 404. *)
Definition createdAsConstructor : JsVal := JObj [("id", JStr "constructor")].

Definition missOfConstructor : list Part000.Event :=
  [ Part000.Fire 1; Part000.PollRejected "constructor" notFound ].

Definition sixMissesOfConstructor : list Part000.Event :=
  [ Part000.Input catValues; Part000.Submit;
    Part000.CreateResolved env0 catValues createdAsConstructor ] ++
  missOfConstructor ++ missOfConstructor ++ missOfConstructor ++
  missOfConstructor ++ missOfConstructor ++ missOfConstructor.

(** * Filename derivation *)

Section Filename.

Lemma filter_split_go (s : list ascii) :
  forall (in_sep : bool) (cur : list ascii),
    (in_sep = true -> cur = []) ->
    List.filter nonempty (split_go in_sep cur s) = tokens_go cur s.
Proof.
  induction s as [|c s IH]; intros in_sep cur Hsep; simpl.
  - destruct cur as [|x cur]; [reflexivity|].
    destruct (rev (x :: cur)) eqn:E; [|reflexivity].
    apply (f_equal (@length ascii)) in E. rewrite length_rev in E. discriminate.
  - destruct (isSpace c).
    + destruct in_sep.
      * rewrite (Hsep eq_refl). apply IH. reflexivity.
      * simpl. rewrite IH by reflexivity.
        destruct cur as [|x cur]; [reflexivity|].
        destruct (rev (x :: cur)) eqn:E; [|reflexivity].
        apply (f_equal (@length ascii)) in E. rewrite length_rev in E. discriminate.
    + apply IH. discriminate.
Qed.

Lemma tokens_go_trimStart (s : list ascii) :
  tokens_go [] (trimStart s) = tokens_go [] s.
Proof.
  induction s as [|c s IH]; simpl; [reflexivity|].
  destruct (isSpace c) eqn:E; [exact IH|].
  simpl. rewrite E. reflexivity.
Qed.

Lemma tokens_go_app_spaces (sp : list ascii) :
  forallb isSpace sp = true ->
  forall s cur, tokens_go cur (s ++ sp)%list = tokens_go cur s.
Proof.
  intros Hsp. induction s as [|c s IH]; intros cur; simpl.
  - revert cur. induction sp as [|x sp IHsp]; intros cur; [reflexivity|].
    simpl in Hsp. apply andb_prop in Hsp as [Hx Hsp]. simpl. rewrite Hx.
    destruct cur; rewrite (IHsp Hsp); reflexivity.
  - destruct (isSpace c); [destruct cur|]; rewrite ?IH; reflexivity.
Qed.

Lemma trimStart_split (s : list ascii) :
  exists sp, forallb isSpace sp = true /\ s = (sp ++ trimStart s)%list.
Proof.
  induction s as [|c s [sp [Hsp Hs]]]; simpl.
  - exists []. split; reflexivity.
  - destruct (isSpace c) eqn:E.
    + exists (c :: sp). simpl. rewrite E, Hsp. split; [reflexivity|]. congruence.
    + exists []. split; reflexivity.
Qed.

Lemma forallb_rev {A} (f : A -> bool) (l : list A) :
  forallb f (rev l) = forallb f l.
Proof.
  induction l as [|x l IH]; simpl; [reflexivity|].
  rewrite forallb_app, IH. simpl. rewrite andb_true_r. apply andb_comm.
Qed.

Lemma tokens_go_trimEnd (s : list ascii) :
  tokens_go [] (trimEnd s) = tokens_go [] s.
Proof.
  unfold trimEnd.
  destruct (trimStart_split (rev s)) as [sp [Hsp Hs]].
  apply (f_equal (@rev ascii)) in Hs. rewrite rev_involutive, rev_app_distr in Hs.
  rewrite Hs at 2. symmetry. apply tokens_go_app_spaces.
  rewrite forallb_rev. exact Hsp.
Qed.

(** [trim], [split] and [filter(Boolean)] together compute the tokens. *)
Lemma words_are_tokens (p : string) :
  List.filter nonempty (split_ws (trim (list_ascii_of_string p))) = tokens p.
Proof.
  unfold split_ws, tokens, trim.
  rewrite filter_split_go by discriminate.
  rewrite tokens_go_trimEnd. apply tokens_go_trimStart.
Qed.

Lemma toLowerCase_join (ws : list (list ascii)) :
  toLowerCase (join ["_"%char] ws) = join ["_"%char] (map toLowerCase ws).
Proof.
  induction ws as [|w ws IH]; [reflexivity|].
  destruct ws as [|w' ws]; [reflexivity|].
  change (join ["_"%char] (w :: w' :: ws)) with (w ++ ["_"%char] ++ join ["_"%char] (w' :: ws))%list.
  unfold toLowerCase in *. rewrite !map_app, IH. reflexivity.
Qed.

Lemma lowered_not_upper (c : ascii) : in_range 65 90 (toLowerCase_char c) = false.
Proof. destruct c as [[] [] [] [] [] [] [] []]; reflexivity. Qed.

Lemma class_of_lowered (c : ascii) :
  in_class_i (toLowerCase_char c) = safe_char (toLowerCase_char c).
Proof.
  unfold in_class_i, safe_char. rewrite lowered_not_upper, orb_false_r. reflexivity.
Qed.

Lemma replace_lowered (s : list ascii) :
  replace_unsafe (toLowerCase s) =
  map (fun c => if safe_char c then c else "_"%char) (toLowerCase s).
Proof.
  unfold replace_unsafe, toLowerCase. rewrite !map_map.
  apply map_ext. intros c. rewrite class_of_lowered. reflexivity.
Qed.

Lemma getVideoFilename_replacing (p : string) :
  getVideoFilename p = deriveFilename_replacing p.
Proof.
  unfold getVideoFilename, deriveFilename_replacing, stem.
  rewrite words_are_tokens.
  destruct (tokens p) as [|w ws] eqn:E; [reflexivity|].
  change (0 <? length (w :: ws))%nat with true. cbv iota.
  rewrite replace_lowered, toLowerCase_join. reflexivity.
Qed.

Lemma safe_after_replace (s : list ascii) :
  forallb safe_char (map (fun c => if safe_char c then c else "_"%char) s) = true.
Proof.
  induction s as [|c s IH]; simpl; [reflexivity|].
  rewrite IH, andb_true_r. destruct (safe_char c) eqn:E; [exact E|reflexivity].
Qed.

End Filename.

(** C2 (amended).  For every prompt the filename is built from the first
    two white-space separated tokens, lowercased and joined with an
    underscore, with every character outside [a-z0-9_] REPLACED by an
    underscore (not removed), followed by ".mp4"; a prompt without tokens
    gives "video.mp4".  The result never contains a character outside the
    class before its extension.  So "A beautiful sunset" gives
    "a_beautiful.mp4", the empty prompt gives "video.mp4", and
    "Hello, World!!" gives "hello__world__.mp4". *)
Theorem C2_filename_replaces_unsafe_characters :
  forall promptText : string,
    getVideoFilename promptText = deriveFilename_replacing promptText /\
    (exists name : list ascii,
        getVideoFilename promptText = string_of_list_ascii name ++ ".mp4" /\
        forallb safe_char name = true) /\
    getVideoFilename "A beautiful sunset" = "a_beautiful.mp4" /\
    getVideoFilename "" = "video.mp4" /\
    getVideoFilename "Hello, World!!" = "hello__world__.mp4".
Proof.
  intros p. split; [apply getVideoFilename_replacing|].
  split; [|repeat split; reflexivity].
  rewrite getVideoFilename_replacing. unfold deriveFilename_replacing.
  destruct (tokens p).
  - exists (list_ascii_of_string "video"). split; reflexivity.
  - eexists. split; [reflexivity|]. apply safe_after_replace.
Qed.

(** C2 (as stated) fails on "Hello, World!!": the comma and the exclamation
    marks become underscores, so the code returns "hello__world__.mp4",
    which is neither "hello_world.mp4" nor what stripping would give. *)
Lemma C2_counterexample_punctuation :
  getVideoFilename "Hello, World!!" = "hello__world__.mp4" /\
  deriveFilename_stripping "Hello, World!!" = "hello_world.mp4" /\
  getVideoFilename "Hello, World!!" <> "hello_world.mp4" /\
  getVideoFilename "Hello, World!!" <> deriveFilename_stripping "Hello, World!!".
Proof. repeat split; try reflexivity; vm_compute; discriminate. Qed.

(** * Merging a status response into the job record *)

Section Merge.

Lemma js_or_undefined (v : JsVal) : js_or JUndefined v = v.
Proof. reflexivity. Qed.

Lemma js_or_empty (v : JsVal) : js_or (JStr "") v = v.
Proof. reflexivity. Qed.

Lemma job_stopPolling_B (w : Part000.World) :
  Part000.job (Part000.stopPolling w) = Part000.job w.
Proof. unfold Part000.stopPolling. destruct (Part000.pollingInterval w); reflexivity. Qed.

Lemma job_stopPolling_A (w : App.World) :
  App.job (App.stopPolling w) = App.job w.
Proof. unfold App.stopPolling. destruct (App.pollingInterval w); reflexivity. Qed.

(** Whatever the status, the status check stores the merged record. *)
Lemma resolved_merges_B (jobId : string) (r : Resp.t) (w : Part000.World) :
  Part000.job (Part000.checkJobStatus_resolved jobId r w) =
  (fun p => Part000.mergePoll p r) <$> Part000.job w.
Proof.
  unfold Part000.checkJobStatus_resolved.
  destruct (is_str (Resp.status r) "completed");
    [|destruct (is_str (Resp.status r) "failed")];
    cbn; rewrite ?job_stopPolling_B; cbn; destruct (Part000.job w); reflexivity.
Qed.

Lemma resolved_merges_A (env : Env) (jobId : string) (r : Resp.t) (w : App.World) :
  App.job (App.poll_resolved env jobId r w) =
  Some (match App.job w with
        | None => App.createdByPoll env jobId r
        | Some p => App.mergePoll env p r
        end).
Proof.
  unfold App.poll_resolved.
  destruct (is_str (Resp.status r) "completed");
    [|destruct (is_str (Resp.status r) "failed")];
    cbn; rewrite ?job_stopPolling_A; cbn;
    destruct (truthy (Resp.openai_status r)); cbn; destruct (App.job w); reflexivity.
Qed.

Lemma pollVideoUrl_no_result (env : Env) (r : Resp.t) :
  Resp.result r = JUndefined -> App.pollVideoUrl env r = JUndefined.
Proof. intros H. unfold App.pollVideoUrl. rewrite H. reflexivity. Qed.

End Merge.

(** C3.  The merge of a status response into the job record is field-wise
    and additive in both variants: a field the response does not carry
    ([undefined] after destructuring) keeps the value the record had, the
    fields no response carries are copied, and the merged record is what
    the poll stores.  Merging [{progress: 55}] into a job with status
    "processing" and progress 40 gives status "processing" and progress 55. *)
Theorem C3_merge_is_additive :
  forall (env : Env) (r : Resp.t) (p : Part000.VideoJob.t) (q : App.VideoJob.t),
    let p' := Part000.mergePoll p r in
    let q' := App.mergePoll env q r in
    (Resp.status r = JUndefined ->
       Part000.VideoJob.status p' = Part000.VideoJob.status p /\
       App.VideoJob.status q' = App.VideoJob.status q) /\
    (Resp.progress r = JUndefined ->
       Part000.VideoJob.progress p' = Part000.VideoJob.progress p /\
       App.VideoJob.progress q' = App.VideoJob.progress q) /\
    (Resp.error r = JUndefined ->
       Part000.VideoJob.error p' = Part000.VideoJob.error p /\
       App.VideoJob.error q' = App.VideoJob.error q) /\
    (Resp.openai_status r = JUndefined ->
       Part000.VideoJob.openAiStatus p' = Part000.VideoJob.openAiStatus p /\
       App.VideoJob.openAiStatus q' = App.VideoJob.openAiStatus q) /\
    (Resp.openai_response r = JUndefined ->
       Part000.VideoJob.openAiResponse p' = Part000.VideoJob.openAiResponse p /\
       App.VideoJob.openAiResponse q' = App.VideoJob.openAiResponse q) /\
    (Resp.result r = JUndefined ->
       Part000.VideoJob.result p' = Part000.VideoJob.result p /\
       Part000.VideoJob.videoUrl p' = Part000.VideoJob.videoUrl p /\
       App.VideoJob.videoUrl q' = App.VideoJob.videoUrl q) /\
    (Part000.VideoJob.id p' = Part000.VideoJob.id p /\
     Part000.VideoJob.videoId p' = Part000.VideoJob.videoId p /\
     Part000.VideoJob.generationDetails p' = Part000.VideoJob.generationDetails p /\
     Part000.VideoJob.prompt p' = Part000.VideoJob.prompt p /\
     Part000.VideoJob.duration p' = Part000.VideoJob.duration p /\
     Part000.VideoJob.resolution p' = Part000.VideoJob.resolution p /\
     Part000.VideoJob.createdAt p' = Part000.VideoJob.createdAt p /\
     App.VideoJob.id q' = App.VideoJob.id q /\
     App.VideoJob.videoId q' = App.VideoJob.videoId q /\
     App.VideoJob.generationDetails q' = App.VideoJob.generationDetails q) /\
    (forall jobId w, Part000.job w = Some p ->
       Part000.job (Part000.checkJobStatus_resolved jobId r w) = Some p') /\
    (forall jobId w, App.job w = Some q ->
       App.job (App.poll_resolved env jobId r w) = Some q') /\
    (r = progressOnly ->
     Part000.VideoJob.status p = JStr "processing" ->
     Part000.VideoJob.progress p = JNum 40 ->
     App.VideoJob.status q = JStr "processing" ->
     App.VideoJob.progress q = JNum 40 ->
       Part000.VideoJob.status p' = JStr "processing" /\
       Part000.VideoJob.progress p' = JNum 55 /\
       App.VideoJob.status q' = JStr "processing" /\
       App.VideoJob.progress q' = JNum 55).
Proof.
  intros env r p q p' q'. subst p' q'.
  repeat match goal with |- _ /\ _ => split end;
    try (intros H; cbn; rewrite ?H, ?(pollVideoUrl_no_result env r H);
         repeat split; reflexivity);
    try reflexivity.
  - intros jobId w Hw. rewrite resolved_merges_B, Hw. reflexivity.
  - intros jobId w Hw. rewrite resolved_merges_A, Hw. reflexivity.
  - intros -> Hs Hp Hs' Hp'. cbn. rewrite Hs, Hs'. repeat split; reflexivity.
Qed.

Lemma C3_merge_is_additive_witness :
  Resp.status progressOnly = JUndefined /\
  Part000.VideoJob.status (Part000.mergePoll processing40 progressOnly) = JStr "processing" /\
  Part000.VideoJob.progress (Part000.mergePoll processing40 progressOnly) = JNum 55 /\
  App.VideoJob.status (App.mergePoll env0 processing40App progressOnly) = JStr "processing" /\
  App.VideoJob.progress (App.mergePoll env0 processing40App progressOnly) = JNum 55.
Proof.
  split; [reflexivity|].
  pose proof (C3_merge_is_additive env0 progressOnly processing40 processing40App) as H.
  cbv zeta in H.
  destruct H as (_ & _ & _ & _ & _ & _ & _ & _ & _ & Hex).
  apply Hex; reflexivity.
Defined.

(** C10.  The merge treats its fields asymmetrically.  [progress] is
    tested for presence: an explicit 0 (any value other than [undefined])
    overwrites the progress of the record.  [status] and [error] are tested
    for truthiness: an explicit empty string (any falsy value) leaves the
    status or the error of the record as it was. *)
Theorem C10_presence_versus_truthiness :
  forall (env : Env) (r : Resp.t) (p : Part000.VideoJob.t) (q : App.VideoJob.t),
    let p' := Part000.mergePoll p r in
    let q' := App.mergePoll env q r in
    (Resp.progress r = JNum 0 ->
       Part000.VideoJob.progress p' = JNum 0 /\ App.VideoJob.progress q' = JNum 0) /\
    (Resp.progress r <> JUndefined ->
       Part000.VideoJob.progress p' = Resp.progress r /\
       App.VideoJob.progress q' = Resp.progress r) /\
    (Resp.status r = JStr "" ->
       Part000.VideoJob.status p' = Part000.VideoJob.status p /\
       App.VideoJob.status q' = App.VideoJob.status q) /\
    (Resp.error r = JStr "" ->
       Part000.VideoJob.error p' = Part000.VideoJob.error p /\
       App.VideoJob.error q' = App.VideoJob.error q) /\
    (truthy (Resp.status r) = false ->
       Part000.VideoJob.status p' = Part000.VideoJob.status p /\
       App.VideoJob.status q' = App.VideoJob.status q) /\
    (truthy (Resp.error r) = false ->
       Part000.VideoJob.error p' = Part000.VideoJob.error p /\
       App.VideoJob.error q' = App.VideoJob.error q).
Proof.
  intros env r p q p' q'. subst p' q'.
  repeat match goal with |- _ /\ _ => split end; intros H; cbn.
  - rewrite H. split; reflexivity.
  - destruct (Resp.progress r); try contradiction; split; reflexivity.
  - rewrite H. split; reflexivity.
  - rewrite H. split; reflexivity.
  - unfold js_or. rewrite H. split; reflexivity.
  - unfold js_or. rewrite H. split; reflexivity.
Qed.

Lemma C10_presence_versus_truthiness_witness :
  Resp.progress blankResp = JNum 0 /\
  Resp.status blankResp = JStr "" /\
  Resp.error blankResp = JStr "" /\
  Part000.VideoJob.progress (Part000.mergePoll processing40 blankResp) = JNum 0 /\
  App.VideoJob.progress (App.mergePoll env0 processing40App blankResp) = JNum 0 /\
  Part000.VideoJob.status (Part000.mergePoll processing40 blankResp) = JStr "processing" /\
  App.VideoJob.status (App.mergePoll env0 processing40App blankResp) = JStr "processing" /\
  Part000.VideoJob.error (Part000.mergePoll processing40 blankResp) = JUndefined /\
  App.VideoJob.error (App.mergePoll env0 processing40App blankResp) = JUndefined.
Proof.
  pose proof (C10_presence_versus_truthiness env0 blankResp processing40 processing40App) as H.
  cbv zeta in H.
  destruct H as (Hp & _ & Hs & He & _ & _).
  destruct (Hp eq_refl) as [Hp1 Hp2].
  destruct (Hs eq_refl) as [Hs1 Hs2].
  destruct (He eq_refl) as [He1 He2].
  repeat split; first [assumption | reflexivity].
Defined.

(** * Validation before submission *)

Section Validation.

Lemma trimStart_nil (s : list ascii) :
  trimStart s = [] <-> forallb isSpace s = true.
Proof.
  induction s as [|c s IH]; simpl; [tauto|].
  destruct (isSpace c); simpl; [exact IH|]. split; discriminate.
Qed.

Lemma trimStart_head (s : list ascii) (c : ascii) (t : list ascii) :
  trimStart s = c :: t -> isSpace c = false.
Proof.
  induction s as [|x s IH]; simpl; [discriminate|].
  destruct (isSpace x) eqn:E; [exact IH|]. intros [= <- _]. exact E.
Qed.

Lemma trim_nil (s : list ascii) : trim s = [] <-> forallb isSpace s = true.
Proof.
  unfold trim, trimEnd. split.
  - intros H. apply (f_equal (@rev ascii)) in H. rewrite rev_involutive in H.
    simpl in H. apply trimStart_nil in H. rewrite forallb_rev in H.
    apply trimStart_nil. destruct (trimStart s) as [|c t] eqn:E; [reflexivity|].
    apply trimStart_head in E. simpl in H. rewrite E in H. discriminate.
  - intros H. apply trimStart_nil in H. rewrite H. reflexivity.
Qed.

Lemma validate_prompt_blank (p : string) :
  blank p = true -> validate_prompt p = Some "Prompt is required".
Proof.
  intros H. unfold validate_prompt. apply trim_nil in H. rewrite H. reflexivity.
Qed.

Lemma validate_prompt_ok (p : string) :
  blank p = false -> validate_prompt p = None.
Proof.
  intros H. unfold validate_prompt.
  destruct (trim (list_ascii_of_string p)) eqn:E; [|reflexivity].
  apply trim_nil in E. unfold blank in H. congruence.
Qed.

Lemma validate_duration_ok (d : Z) :
  (1 <= d <= 10)%Z -> validate_duration d = None.
Proof.
  intros [H1 H2]. unfold validate_duration, MIN_VIDEO_DURATION, MAX_VIDEO_DURATION.
  apply Z.leb_le in H1, H2. rewrite H1, H2. reflexivity.
Qed.

Lemma validate_duration_bad (d : Z) :
  (d < 1 \/ 10 < d)%Z -> validate_duration d <> None.
Proof.
  intros H. unfold validate_duration, MIN_VIDEO_DURATION, MAX_VIDEO_DURATION.
  destruct (1 <=? d)%Z eqn:E1; [destruct (d <=? 10)%Z eqn:E2|]; simpl; try discriminate.
  apply Z.leb_le in E1, E2. lia.
Qed.

Lemma validate_resolution_ok (res : string) :
  In res (map fst Part000.supportedResolutions) ->
  Part000.validate_resolution res = None.
Proof.
  intros H. unfold Part000.validate_resolution.
  replace (existsb _ _) with true; [reflexivity|].
  symmetry. apply existsb_exists.
  apply in_map_iff in H as [x [Hx Hin]]. exists x. split; [exact Hin|].
  rewrite Hx. apply String.eqb_refl.
Qed.

Lemma validate_resolution_bad (res : string) :
  ~ In res (map fst Part000.supportedResolutions) ->
  Part000.validate_resolution res = Some "Please select a valid resolution".
Proof.
  intros H. unfold Part000.validate_resolution.
  destruct (existsb _ _) eqn:E; [|reflexivity].
  apply existsb_exists in E as [x [Hin Hx]]. apply String.eqb_eq in Hx.
  exfalso. apply H. apply in_map_iff. exists x. split; assumption.
Qed.

Lemma hasErrors_true (e : Form.Errors) :
  Form.prompt_error e <> None \/ Form.duration_error e <> None \/
  Form.resolution_error e <> None ->
  Form.hasErrors e = true.
Proof.
  unfold Form.hasErrors.
  destruct (Form.prompt_error e), (Form.duration_error e), (Form.resolution_error e);
    intros [H|[H|H]]; try reflexivity; contradiction.
Qed.

End Validation.

(** C7.  Validation fails closed.  When the prompt is empty or white space
    only, or the duration is below 1 or above 10, or the resolution is not
    one of the supported resolutions, submitting the form changes nothing
    but the errors of the form: no request is sent, no timer is set and the
    job is untouched.  When the three rules pass, and so for the durations
    1 and 10, the create request is sent.  The resolution "999x999" and
    the durations 0 and 11 are refused.  (The variant of [src/App.tsx] has
    the prompt and the duration rule only; they fail closed as well.) *)
Theorem C7_validation_fails_closed :
  forall (env : Env) (w : Part000.World) (a : App.World),
    let v := Part000.formValues w in
    let w' := Part000.form_onSubmit env w in
    ((blank (Form.prompt v) = true \/ (Form.duration v < 1)%Z \/
      (10 < Form.duration v)%Z \/
      ~ In (Form.resolution v) (map fst Part000.supportedResolutions)) ->
       Part000.browser w' = Part000.browser w /\
       Part000.job w' = Part000.job w /\
       Part000.isLoading w' = Part000.isLoading w /\
       Form.hasErrors (Part000.formErrors w') = true) /\
    (blank (Form.prompt v) = false -> (1 <= Form.duration v <= 10)%Z ->
     In (Form.resolution v) (map fst Part000.supportedResolutions) ->
       requests (Part000.browser w') =
         PostGenerate (Form.prompt v) (Form.resolution v) (Form.duration v)
           :: requests (Part000.browser w)) /\
    ((blank (Form.prompt (App.formValues a)) = true \/
      (Form.duration (App.formValues a) < 1)%Z \/
      (10 < Form.duration (App.formValues a))%Z) ->
       App.browser (App.form_onSubmit a) = App.browser a /\
       App.job (App.form_onSubmit a) = App.job a) /\
    validate_duration 1 = None /\ validate_duration 10 = None /\
    validate_duration 0 <> None /\ validate_duration 11 <> None /\
    Part000.validate_resolution "999x999" <> None /\
    validate_prompt "" <> None /\ validate_prompt "   " <> None.
Proof.
  intros env w a v w'. subst v w'.
  split; [|split; [|split; [|repeat split; try reflexivity; discriminate]]].
  - intros H. unfold Part000.form_onSubmit.
    assert (Hbad : Form.hasErrors (Part000.validate (Part000.formValues w)) = true).
    { apply hasErrors_true. cbn.
      destruct H as [H|[H|[H|H]]].
      - left. rewrite (validate_prompt_blank _ H). discriminate.
      - right; left. apply validate_duration_bad. lia.
      - right; left. apply validate_duration_bad. lia.
      - right; right. rewrite (validate_resolution_bad _ H). discriminate. }
    cbn. rewrite Hbad. cbn. repeat split; try reflexivity. exact Hbad.
  - intros Hp Hd Hr. unfold Part000.form_onSubmit, Part000.validate, Form.hasErrors.
    cbn. rewrite (validate_prompt_ok _ Hp), (validate_duration_ok _ Hd),
      (validate_resolution_ok _ Hr). reflexivity.
  - intros H. unfold App.form_onSubmit.
    assert (Hbad : Form.hasErrors (App.validate (App.formValues a)) = true).
    { apply hasErrors_true. cbn.
      destruct H as [H|[H|H]].
      - left. rewrite (validate_prompt_blank _ H). discriminate.
      - right; left. apply validate_duration_bad. lia.
      - right; left. apply validate_duration_bad. lia. }
    cbn. rewrite Hbad. split; reflexivity.
Qed.

(** * The timer table *)

Section TimerTable.

Implicit Types (h : option positive) (m : gmap positive Timer) (tm : Timer).

Lemma tracks_empty h : tracks h ∅.
Proof. intros t tm H. rewrite lookup_empty in H. discriminate. Qed.

Lemma tracks_delete h m t : tracks h m -> tracks h (delete t m).
Proof.
  intros H k tm Hk. apply lookup_delete_Some in Hk as [_ Hk]. eapply H; eassumption.
Qed.

(** Clearing the timer of the ref leaves no recurring timer behind. *)
Lemma tracks_cleared m t : tracks (Some t) m -> no_recurring (delete t m).
Proof.
  intros H k tm Hk. apply lookup_delete_Some in Hk as [Hne Hk].
  destruct (repeating tm) eqn:E; [|reflexivity].
  specialize (H k tm Hk E). congruence.
Qed.

Lemma tracks_none m : tracks None m -> no_recurring m.
Proof.
  intros H k tm Hk. destruct (repeating tm) eqn:E; [|reflexivity].
  specialize (H k tm Hk E). discriminate.
Qed.

Lemma no_recurring_tracks h m : no_recurring m -> tracks h m.
Proof. intros H k tm Hk E. rewrite (H k tm Hk) in E. discriminate. Qed.

Lemma no_recurring_delete m t : no_recurring m -> no_recurring (delete t m).
Proof.
  intros H k tm Hk. apply lookup_delete_Some in Hk as [_ Hk]. eapply H; eassumption.
Qed.

Lemma no_recurring_oneoff m n tm :
  repeating tm = false -> no_recurring m -> no_recurring (<[n := tm]> m).
Proof.
  intros Htm H k tm' Hk. apply lookup_insert_Some in Hk as [[_ <-]|[_ Hk]];
    [exact Htm | eapply H; eassumption].
Qed.

(** A fresh recurring timer stored in the ref is the only one when no
    recurring timer was left. *)
Lemma tracks_started m n tm : no_recurring m -> tracks (Some n) (<[n := tm]> m).
Proof.
  intros H k tm' Hk E. apply lookup_insert_Some in Hk as [[-> _]|[_ Hk]]; [reflexivity|].
  rewrite (H k tm' Hk) in E. discriminate.
Qed.

Lemma tracks_oneoff h m n tm :
  repeating tm = false -> tracks h m -> tracks h (<[n := tm]> m).
Proof.
  intros Htm H k tm' Hk E. apply lookup_insert_Some in Hk as [[_ <-]|[_ Hk]];
    [congruence | eapply H; eassumption].
Qed.

Lemma cadence_delete p m t : cadence p m -> cadence p (delete t m).
Proof.
  intros H k tm Hk. apply lookup_delete_Some in Hk as [_ Hk]. eapply H; eassumption.
Qed.

Lemma cadence_insert p m n tm :
  (repeating tm = true -> ms tm = p) -> cadence p m -> cadence p (<[n := tm]> m).
Proof.
  intros Htm H k tm' Hk E. apply lookup_insert_Some in Hk as [[_ <-]|[_ Hk]];
    [auto | eapply H; eassumption].
Qed.

Lemma no_recurring_cadence p m : no_recurring m -> cadence p m.
Proof. intros H k tm Hk E. rewrite (H k tm Hk) in E. discriminate. Qed.

Lemma no_oneoff_delete m t : no_oneoff m -> no_oneoff (delete t m).
Proof.
  intros H k tm Hk. apply lookup_delete_Some in Hk as [_ Hk]. eapply H; eassumption.
Qed.

Lemma no_oneoff_insert m n tm :
  repeating tm = true -> no_oneoff m -> no_oneoff (<[n := tm]> m).
Proof.
  intros Htm H k tm' Hk. apply lookup_insert_Some in Hk as [[_ <-]|[_ Hk]];
    [exact Htm | eapply H; eassumption].
Qed.

(** A table with recurring timers only, all of them cleared, is empty. *)
Lemma only_recurring_none_left m : no_oneoff m -> no_recurring m -> m = ∅.
Proof.
  intros H1 H2. apply map_empty. intros k.
  destruct (m !! k) as [tm|] eqn:E; [|reflexivity].
  specialize (H1 k tm E). specialize (H2 k tm E). congruence.
Qed.

Lemma recurring_lookup (b : Browser) t tm :
  recurring b !! t = Some tm <-> timers b !! t = Some tm /\ repeating tm = true.
Proof. unfold recurring. rewrite map_lookup_filter_Some. reflexivity. Qed.

(** With the ref tracking the table, at most one recurring timer exists. *)
Lemma tracks_at_most_one h (b : Browser) :
  tracks h (timers b) -> size (recurring b) <= 1.
Proof.
  intros H.
  destruct h as [t|].
  - transitivity (size (filter (fun kv => repeating kv.2 = true)
                          (filter (fun kv => kv.1 = t) (timers b)))).
    + apply Nat.eq_le_incl. f_equal. unfold recurring.
      apply map_eq. intros k. apply option_eq. intros tm.
      rewrite !map_lookup_filter_Some. simpl. split.
      * intros [Hk E]. specialize (H k tm Hk E). injection H as ->. tauto.
      * tauto.
    + etransitivity; [apply map_subseteq_size, map_filter_subseteq|].
      destruct (timers b !! t) as [tm|] eqn:E.
      * replace (filter _ (timers b)) with ({[ t := tm ]} : gmap positive Timer);
          [rewrite map_size_singleton; lia|].
        apply map_eq. intros k. apply option_eq. intros tm'.
        rewrite map_lookup_filter_Some, lookup_singleton_Some. simpl.
        split; [intros [-> ->]; tauto | intros [Hk ->]; split; congruence].
      * replace (filter _ (timers b)) with (∅ : gmap positive Timer);
          [rewrite map_size_empty; lia|].
        symmetry. apply map_empty. intros k. apply map_lookup_filter_None. right.
        simpl. intros tm Hk ->. congruence.
  - replace (recurring b) with (∅ : gmap positive Timer);
      [rewrite map_size_empty; lia|].
    symmetry. apply map_empty. intros k. unfold recurring.
    apply map_lookup_filter_None. right. simpl. intros tm Hk E.
    specialize (H k tm Hk E). discriminate.
Qed.

Lemma cleared_no_recurring h m : tracks h m -> no_recurring (cleared h m).
Proof.
  destruct h; simpl; [apply tracks_cleared | apply tracks_none].
Qed.

(** Unless the ref is reset without clearing its timer, the ref keeps
    tracking the table. *)
Lemma effect_tracks starts retries h m n h' m' :
  effect starts false retries h m n h' m' -> tracks h m -> tracks h' m'.
Proof.
  intros He H. destruct He.
  - exact H.
  - apply tracks_delete, H.
  - apply no_recurring_tracks, cleared_no_recurring, H.
  - apply tracks_started, cleared_no_recurring, H.
  - apply tracks_oneoff; assumption.
  - subst h. apply tracks_started, tracks_cleared, H.
  - discriminate.
Qed.

(** Once stopped, only [startJobPolling] brings a recurring timer back. *)
Lemma effect_stopped leaks retries h m n h' m' :
  effect false leaks retries h m n h' m' ->
  h = None -> no_recurring m -> h' = None /\ no_recurring m'.
Proof.
  intros He -> H. destruct He; try discriminate.
  - split; [reflexivity | exact H].
  - split; [reflexivity | apply no_recurring_delete, H].
  - split; [reflexivity | exact H].
  - split; [reflexivity | apply no_recurring_oneoff; assumption].
  - split; [reflexivity | exact H].
Qed.

(** Only [startJobPolling] creates a recurring timer that is not slow. *)
Lemma effect_cadence leaks retries h m n h' m' :
  effect false leaks retries h m n h' m' -> cadence 5000 m -> cadence 5000 m'.
Proof.
  intros He H. destruct He; try discriminate; try exact H.
  - apply cadence_delete, H.
  - destruct h; simpl; [apply cadence_delete|]; exact H.
  - apply cadence_insert; [congruence | exact H].
  - apply cadence_insert; [auto | apply cadence_delete, H].
Qed.

(** Without the not-found branch no one-off timer appears. *)
Lemma effect_no_oneoff starts leaks h m n h' m' :
  effect starts leaks false h m n h' m' -> no_oneoff m -> no_oneoff m'.
Proof.
  intros He H. destruct He; try discriminate; try exact H.
  - apply no_oneoff_delete, H.
  - destruct h; simpl; [apply no_oneoff_delete|]; exact H.
  - apply no_oneoff_insert; [assumption|].
    destruct h; simpl; [apply no_oneoff_delete|]; exact H.
Qed.

Lemma effect_empty leaks h m n h' m' :
  effect false leaks false h m n h' m' -> h = None -> m = ∅ -> h' = None /\ m' = ∅.
Proof.
  intros He -> ->.
  destruct He; try discriminate; split; first [reflexivity | apply delete_empty].
Qed.

End TimerTable.

(** * The variant with the retry counter: what each callback does to the
      ref and to the timer table *)

Section Part000Facts.

Import Part000.

Lemma stopPolling_browser (w : World) :
  browser (stopPolling w) =
  match pollingInterval w with
  | Some t => clearTimer t (browser w)
  | None => browser w
  end.
Proof. unfold stopPolling. destruct (pollingInterval w); reflexivity. Qed.

Lemma stopPolling_ref (w : World) : pollingInterval (stopPolling w) = None.
Proof.
  unfold stopPolling. destruct (pollingInterval w) eqn:E; [reflexivity | exact E].
Qed.

Lemma stopPolling_nextTimer (w : World) :
  nextTimer (browser (stopPolling w)) = nextTimer (browser w).
Proof. rewrite stopPolling_browser. destruct (pollingInterval w); reflexivity. Qed.

Lemma stopPolling_requests (w : World) :
  requests (browser (stopPolling w)) = requests (browser w) /\
  inflight (browser (stopPolling w)) = inflight (browser w).
Proof. rewrite stopPolling_browser. destruct (pollingInterval w); split; reflexivity. Qed.

(** [stopPolling] clears the recurring timer of a tracked world. *)
Lemma stopPolling_stopped (w : World) : tracked w -> stopped (stopPolling w).
Proof.
  intros H. split; [apply stopPolling_ref|].
  rewrite stopPolling_browser. unfold tracked in H.
  destruct (pollingInterval w); simpl; [apply tracks_cleared | apply tracks_none]; exact H.
Qed.

(** [stopPolling] clears no timer but the one of the ref. *)
Lemma stopPolling_keeps_others (w : World) (k : positive) :
  pollingInterval w <> Some k ->
  timers (browser (stopPolling w)) !! k = timers (browser w) !! k.
Proof.
  intros Hk. rewrite stopPolling_browser.
  destruct (pollingInterval w) as [t|]; [|reflexivity].
  simpl. apply lookup_delete_ne. congruence.
Qed.

Lemma startJobPolling_ref env v jobId j (w : World) :
  pollingInterval (startJobPolling env v jobId j w) = Some (nextTimer (browser w)).
Proof.
  unfold startJobPolling, setInterval. cbn. rewrite stopPolling_nextTimer. reflexivity.
Qed.

Lemma startJobPolling_timers env v jobId j (w : World) :
  timers (browser (startJobPolling env v jobId j w)) =
  <[nextTimer (browser w) := mkTimer true 2000 jobId]>
    (timers (browser (stopPolling w))).
Proof.
  unfold startJobPolling, setInterval. cbn. rewrite stopPolling_nextTimer. reflexivity.
Qed.

Lemma startJobPolling_requests env v jobId j (w : World) :
  requests (browser (startJobPolling env v jobId j w)) = requests (browser w).
Proof.
  unfold startJobPolling, setInterval. cbn. apply stopPolling_requests.
Qed.

Lemma startJobPolling_job env v jobId j (w : World) :
  exists j', job (startJobPolling env v jobId j w) = Some j' /\
             VideoJob.id j' = jobId /\
             VideoJob.status j' = JStr "pending" /\
             VideoJob.progress j' = JNum 0 /\
             VideoJob.prompt j' = Form.prompt v /\
             VideoJob.duration j' = Form.duration v /\
             VideoJob.resolution j' = Form.resolution v.
Proof.
  unfold startJobPolling, setInterval. cbn. eexists. split; [reflexivity|].
  repeat split; reflexivity.
Qed.

(** Starting a poll loop in a tracked world cancels the timer of the ref
    first: the new timer is the only recurring one. *)
Lemma startJobPolling_tracked env v jobId j (w : World) :
  tracked w -> tracked (startJobPolling env v jobId j w).
Proof.
  intros H. unfold tracked. rewrite startJobPolling_ref, startJobPolling_timers.
  apply tracks_started. apply (stopPolling_stopped w H).
Qed.

Lemma startJobPolling_one_timer env v jobId j (w : World) :
  tracked w ->
  recurring (browser (startJobPolling env v jobId j w)) =
  {[ nextTimer (browser w) := mkTimer true 2000 jobId ]}.
Proof.
  intros H. apply map_eq. intros k. apply option_eq. intros tm.
  rewrite recurring_lookup, startJobPolling_timers, lookup_singleton_Some,
    lookup_insert_Some.
  pose proof (stopPolling_stopped w H) as [_ Hnone].
  split.
  - intros [[[-> <-]|[_ Hk]] E]; [tauto|].
    rewrite (Hnone k tm Hk) in E. discriminate.
  - intros [-> <-]. split; [left; tauto | reflexivity].
Qed.

(** The status check on a successful response. *)
Lemma resolved_ref jobId r (w : World) :
  pollingInterval (checkJobStatus_resolved jobId r w) =
  if terminal r then None else pollingInterval w.
Proof.
  unfold checkJobStatus_resolved, terminal.
  destruct (is_str (Resp.status r) "completed");
    [|destruct (is_str (Resp.status r) "failed")]; cbn;
    rewrite ?stopPolling_ref; reflexivity.
Qed.

Lemma resolved_browser jobId r (w : World) :
  browser (checkJobStatus_resolved jobId r w) =
  if terminal r then browser (stopPolling w) else browser w.
Proof.
  unfold checkJobStatus_resolved, terminal.
  destruct (is_str (Resp.status r) "completed");
    [|destruct (is_str (Resp.status r) "failed")]; cbn;
    rewrite ?stopPolling_browser; cbn; reflexivity.
Qed.

(** The retry counter as numbers. *)
Lemma readCount_proto (m : gmap string Count) : readCount m "__proto__" = Member.
Proof. reflexivity. Qed.

Lemma readCount_written jobId c (m : gmap string Count) :
  jobId <> "__proto__" -> readCount (writeCount jobId c m) jobId = Own c.
Proof.
  intros H. apply String.eqb_neq in H. unfold readCount, writeCount.
  rewrite H, lookup_insert_eq. reflexivity.
Qed.

Lemma readCount_other jobId other c (m : gmap string Count) :
  other <> jobId -> readCount (writeCount jobId c m) other = readCount m other.
Proof.
  intros H. unfold readCount, writeCount.
  destruct (String.eqb jobId "__proto__"); [reflexivity|].
  rewrite lookup_insert_ne by congruence. reflexivity.
Qed.

Lemma count_number jobId (m : gmap string Count) n :
  count m jobId = Some n -> jobId <> "__proto__".
Proof. intros H ->. discriminate H. Qed.

Lemma increment_number jobId (m : gmap string Count) n :
  count m jobId = Some n -> increment (readCount m jobId) = Num (n + 1).
Proof.
  unfold count. destruct (readCount m jobId) as [|[k|i]|]; try discriminate.
  - intros [= <-]. reflexivity.
  - intros [= <-]. cbn. destruct (Z.eqb_spec k 0) as [->|]; reflexivity.
Qed.

Lemma increment_text jobId (m : gmap string Count) :
  count m jobId = None -> exists i, increment (readCount m jobId) = Text i.
Proof.
  unfold count. destruct (readCount m jobId) as [|[k|i]|]; try discriminate;
    intros _; eexists; reflexivity.
Qed.

(** A counter that is a number goes up by one, and the test of the code on
    it is the comparison of numbers. *)
Lemma count_incremented jobId (m : gmap string Count) n :
  count m jobId = Some n ->
  count (incremented jobId m) jobId = Some (n + 1)%Z /\
  atLeast (readCount (incremented jobId m) jobId) 5 = (5 <=? n + 1)%Z.
Proof.
  intros H. pose proof (count_number _ _ _ H) as Hne.
  unfold count, incremented.
  rewrite (increment_number _ _ _ H), readCount_written by exact Hne.
  split; reflexivity.
Qed.

(** A counter that is no number stays so, and the test of the code fails
    on it. *)
Lemma count_stuck jobId (m : gmap string Count) :
  count m jobId = None ->
  count (incremented jobId m) jobId = None /\
  atLeast (readCount (incremented jobId m) jobId) 5 = false.
Proof.
  intros H. unfold count, incremented.
  destruct (String.eqb_spec jobId "__proto__") as [->|Hne].
  - rewrite !readCount_proto. split; reflexivity.
  - destruct (increment_text _ _ H) as [i ->].
    rewrite readCount_written by exact Hne. split; reflexivity.
Qed.

Lemma count_other jobId other (m : gmap string Count) :
  other <> jobId -> count (incremented jobId m) other = count m other.
Proof. intros H. unfold count, incremented. rewrite readCount_other by exact H. reflexivity. Qed.

Lemma max_cases jobId (m : gmap string Count) :
  atLeast (readCount (incremented jobId m) jobId) 5 = false \/
  atLeast (readCount (incremented jobId m) jobId) 5 = true.
Proof. destruct (atLeast _ _); [right | left]; reflexivity. Qed.

(** The test of the code passes exactly on a number that the increment
    brings to 5 or more. *)
Lemma atLeast_count jobId (m : gmap string Count) :
  atLeast (readCount (incremented jobId m) jobId) 5 = true <->
  exists n, count m jobId = Some n /\ (5 <= n + 1)%Z.
Proof.
  split.
  - intros H. destruct (count m jobId) as [n|] eqn:Hc.
    + exists n. split; [reflexivity|].
      rewrite (proj2 (count_incremented _ _ _ Hc)) in H. lia.
    + rewrite (proj2 (count_stuck _ _ Hc)) in H. discriminate.
  - intros (n & Hc & Hn). rewrite (proj2 (count_incremented _ _ _ Hc)). lia.
Qed.

Lemma resolved_retryCount jobId r (w : World) :
  retryCount (checkJobStatus_resolved jobId r w) = writeCount jobId (Num 0) (retryCount w).
Proof.
  unfold checkJobStatus_resolved.
  destruct (is_str (Resp.status r) "completed");
    [|destruct (is_str (Resp.status r) "failed")]; cbn;
    unfold stopPolling; cbn; destruct (pollingInterval w); reflexivity.
Qed.

(** The [catch] block of the status check, branch by branch. *)
Lemma catch_retry jobId err (w : World) :
  is_num (response_status err) 404 = true ->
  atLeast (readCount (incremented jobId (retryCount w)) jobId) 5 = false ->
  checkJobStatus_catch jobId err w =
  setIsLoading false
    (setTimeout jobId 2000
       (set_retryCount (incremented jobId (retryCount w)) w)).
Proof.
  intros H404 Hn. unfold checkJobStatus_catch, MAX_RETRIES, RETRY_DELAY.
  rewrite H404. cbn [retryCount set_retryCount]. rewrite Hn. reflexivity.
Qed.

Lemma catch_finalizing jobId err (w : World) :
  is_num (response_status err) 404 = true ->
  atLeast (readCount (incremented jobId (retryCount w)) jobId) 5 = true ->
  checkJobStatus_catch jobId err w =
  let w1 :=
    setJob (fun prev => finalizing <$> prev)
      (set_retryCount (incremented jobId (retryCount w)) w) in
  setIsLoading false
    (match pollingInterval w with
     | Some t => setInterval jobId 5000 (clearInterval t w1)
     | None => w1
     end).
Proof.
  intros H404 Hn. unfold checkJobStatus_catch, MAX_RETRIES.
  rewrite H404. cbn [retryCount set_retryCount]. rewrite Hn. cbn.
  destruct (pollingInterval w), (job w); reflexivity.
Qed.

Lemma catch_other jobId err (w : World) :
  is_num (response_status err) 404 = false ->
  checkJobStatus_catch jobId err w =
  setIsLoading false
    (set_pollingInterval None
       (setJob (fun prev =>
                  withError (js_or (JStr (message err))
                               (JStr "Failed to check job status")) <$> prev) w)).
Proof.
  intros H404. unfold checkJobStatus_catch. rewrite H404. cbn.
  destruct (job w); reflexivity.
Qed.

Lemma catch_retryCount jobId err (w : World) :
  retryCount (checkJobStatus_catch jobId err w) =
  if is_num (response_status err) 404
  then incremented jobId (retryCount w) else retryCount w.
Proof.
  destruct (is_num (response_status err) 404) eqn:H404.
  - destruct (max_cases jobId (retryCount w)) as [Hlt|Hge].
    + rewrite catch_retry by assumption. reflexivity.
    + rewrite catch_finalizing by assumption. cbv zeta.
      destruct (pollingInterval w); reflexivity.
  - rewrite catch_other by assumption. reflexivity.
Qed.

(** What one event does to the counter object. *)
Lemma step_retryCount env ev (w w' : World) :
  step env ev w = Some w' ->
  retryCount w' =
  match ev with
  | PollResolved jobId _ => writeCount jobId (Num 0) (retryCount w)
  | PollRejected jobId err =>
      if is_num (response_status err) 404
      then incremented jobId (retryCount w) else retryCount w
  | _ => retryCount w
  end.
Proof.
  destruct ev as [v| |env1 v data|v err|t|jobId r|jobId err|]; simpl; intros Hstep.
  - injection Hstep as <-. reflexivity.
  - injection Hstep as <-. unfold form_onSubmit.
    destruct (Form.hasErrors _); reflexivity.
  - destruct (settle _ _) as [b|]; [|discriminate]. injection Hstep as <-.
    unfold handleSubmit_resolved. destruct (truthy data && _); [|reflexivity].
    unfold startJobPolling, stopPolling. cbn.
    destruct (pollingInterval w); reflexivity.
  - destruct (settle _ _) as [b|]; [|discriminate]. injection Hstep as <-.
    reflexivity.
  - destruct (timers (browser w) !! t) as [tm|]; [|discriminate].
    injection Hstep as <-. destruct (repeating tm); reflexivity.
  - destruct (settle _ _) as [b|]; [|discriminate]. injection Hstep as <-.
    rewrite resolved_retryCount. reflexivity.
  - destruct (settle _ _) as [b|]; [|discriminate]. injection Hstep as <-.
    rewrite catch_retryCount. reflexivity.
  - injection Hstep as <-. unfold unmount. destruct (pollingInterval w); reflexivity.
Qed.

(** The counter of an id that names no member of [Object.prototype] is a
    number in every world the component reaches. *)
Lemma run_counts env (evs : list Event) :
  forall w w',
    (forall k, inherited k = false -> is_Some (count (retryCount w) k)) ->
    run env evs w = Some w' ->
    forall k, inherited k = false -> is_Some (count (retryCount w') k).
Proof.
  induction evs as [|ev evs IH]; simpl; intros w w' Hw Hrun.
  - injection Hrun as <-. exact Hw.
  - destruct (step env ev w) as [w1|] eqn:Hstep; [|discriminate].
    apply (IH w1 w'); [|exact Hrun].
    intros k Hk. rewrite (step_retryCount env ev w w1 Hstep).
    destruct (Hw k Hk) as [n Hn].
    assert (Hwrite : forall j, is_Some (count (writeCount j (Num 0) (retryCount w)) k)).
    { intros j. destruct (decide (k = j)) as [->|Hne].
      - unfold count. rewrite readCount_written by exact (count_number _ _ _ Hn). eauto.
      - unfold count. rewrite readCount_other by exact Hne.
        fold (count (retryCount w) k). eauto. }
    destruct ev as [v| |env1 v data|v err|t|jobId r|jobId err|]; eauto.
    destruct (is_num (response_status err) 404); [|eauto].
    destruct (decide (k = jobId)) as [->|Hne].
    + rewrite (proj1 (count_incremented _ _ _ Hn)). eauto.
    + rewrite count_other by exact Hne. eauto.
Qed.

Lemma initial_counts (k : string) :
  inherited k = false -> count (retryCount initial) k = Some 0%Z.
Proof.
  intros Hk. unfold count, readCount. cbn [retryCount initial].
  rewrite lookup_empty, Hk.
  destruct (String.eqb_spec k "__proto__") as [->|]; [discriminate Hk | reflexivity].
Qed.

Lemma reachable_counts env (w : World) (k : string) :
  reachable env w -> inherited k = false -> is_Some (count (retryCount w) k).
Proof.
  intros [evs Hrun] Hk.
  refine (run_counts env evs initial w _ Hrun k Hk).
  intros j Hj. rewrite (initial_counts j Hj). eauto.
Qed.

Lemma settle_same rq (b b' : Browser) :
  settle rq b = Some b' ->
  timers b' = timers b /\ nextTimer b' = nextTimer b /\ requests b' = requests b.
Proof.
  unfold settle. destruct (decide (rq ∈ inflight b)); [|discriminate].
  intros [= <-]. repeat split; reflexivity.
Qed.

Lemma resolved_effect starts leaks jobId r (w : World) :
  effect starts leaks true
    (pollingInterval w) (timers (browser w)) (nextTimer (browser w))
    (pollingInterval (checkJobStatus_resolved jobId r w))
    (timers (browser (checkJobStatus_resolved jobId r w))).
Proof.
  rewrite resolved_ref, resolved_browser, stopPolling_browser.
  destruct (terminal r); [|apply eff_same].
  replace (timers match pollingInterval w with
                  | Some t => clearTimer t (browser w) | None => browser w end)
    with (cleared (pollingInterval w) (timers (browser w)))
    by (destruct (pollingInterval w); reflexivity).
  apply eff_stop.
Qed.

Lemma catch_effect starts jobId err (w : World) :
  effect starts (negb (is_num (response_status err) 404)) true
    (pollingInterval w) (timers (browser w)) (nextTimer (browser w))
    (pollingInterval (checkJobStatus_catch jobId err w))
    (timers (browser (checkJobStatus_catch jobId err w))).
Proof.
  destruct (is_num (response_status err) 404) eqn:H404.
  - destruct (max_cases jobId (retryCount w)) as [Hlt|Hge].
    + rewrite catch_retry by assumption. cbn. apply eff_retry; reflexivity.
    + rewrite catch_finalizing by assumption. cbn.
      destruct (pollingInterval w) as [t|] eqn:Hh; cbn.
      * eapply eff_slow; reflexivity.
      * rewrite Hh. apply eff_same.
  - rewrite catch_other by assumption. cbn. apply eff_leak. reflexivity.
Qed.

Lemma handleSubmit_resolved_effect leaks env0 env v data (w : World) :
  effect true leaks true
    (pollingInterval w) (timers (browser w)) (nextTimer (browser w))
    (pollingInterval (handleSubmit_resolved env0 env v data w))
    (timers (browser (handleSubmit_resolved env0 env v data w))).
Proof.
  unfold handleSubmit_resolved. destruct (truthy data && _).
  - rewrite startJobPolling_ref, startJobPolling_timers, stopPolling_browser.
    replace (timers match pollingInterval w with
                    | Some t => clearTimer t (browser w) | None => browser w end)
      with (cleared (pollingInterval w) (timers (browser w)))
      by (destruct (pollingInterval w); reflexivity).
    apply eff_start; reflexivity.
  - apply eff_same.
Qed.

(** What one event does to the ref and the timer table. *)
Lemma step_effect env ev (w w' : World) :
  step env ev w = Some w' ->
  effect (starts_job ev) (other_poll_error ev) true
    (pollingInterval w) (timers (browser w)) (nextTimer (browser w))
    (pollingInterval w') (timers (browser w')).
Proof.
  destruct ev as [v| |env1 v data|v err|t|jobId r|jobId err|]; simpl; intros Hstep.
  - injection Hstep as <-. apply eff_same.
  - injection Hstep as <-. unfold form_onSubmit.
    destruct (Form.hasErrors _); apply eff_same.
  - destruct (settle _ _) as [b|] eqn:Hb; [|discriminate].
    apply settle_same in Hb as (Ht & Hn & _). injection Hstep as <-.
    rewrite <- Ht, <- Hn.
    apply (handleSubmit_resolved_effect false env1 env v data (set_browser b w)).
  - destruct (settle _ _) as [b|] eqn:Hb; [|discriminate].
    apply settle_same in Hb as (Ht & Hn & _). injection Hstep as <-.
    cbn. rewrite Ht. apply eff_same.
  - destruct (timers (browser w) !! t) as [tm|] eqn:Htm; [|discriminate].
    injection Hstep as <-. destruct (repeating tm); cbn; [apply eff_same | apply eff_gone].
  - destruct (settle _ _) as [b|] eqn:Hb; [|discriminate].
    apply settle_same in Hb as (Ht & Hn & _). injection Hstep as <-.
    rewrite <- Ht, <- Hn.
    apply (resolved_effect false false jobId r (set_browser b w)).
  - destruct (settle _ _) as [b|] eqn:Hb; [|discriminate].
    apply settle_same in Hb as (Ht & Hn & _). injection Hstep as <-.
    rewrite <- Ht, <- Hn.
    apply (catch_effect false jobId err (set_browser b w)).
  - injection Hstep as <-. unfold unmount.
    destruct (pollingInterval w) as [t|] eqn:Hh; cbn; rewrite ?Hh;
      [apply eff_gone | apply eff_same].
Qed.

Lemma initial_tracked : tracked initial.
Proof. apply tracks_empty. Qed.

(** The ref tracks the timer table along every run without a poll error
    other than a not-found. *)
Lemma run_tracked env (evs : list Event) :
  forall w w', no_other_poll_error evs = true -> tracked w ->
               run env evs w = Some w' -> tracked w'.
Proof.
  induction evs as [|ev evs IH]; simpl; intros w w' Hevs Hw Hrun.
  - injection Hrun as <-. exact Hw.
  - apply andb_prop in Hevs as [Hev Hevs].
    destruct (step env ev w) as [w1|] eqn:Hstep; [|discriminate].
    apply (IH w1 w' Hevs); [|exact Hrun].
    pose proof (step_effect env ev w w1 Hstep) as He.
    apply negb_true_iff in Hev. rewrite Hev in He.
    exact (effect_tracks _ _ _ _ _ _ _ He Hw).
Qed.

(** The slow cadence lasts until the poll loop of a new job is started. *)
Lemma run_slow env (evs : list Event) :
  forall w w', no_new_job evs = true -> slow w -> run env evs w = Some w' -> slow w'.
Proof.
  induction evs as [|ev evs IH]; simpl; intros w w' Hevs Hw Hrun.
  - injection Hrun as <-. exact Hw.
  - apply andb_prop in Hevs as [Hev Hevs].
    destruct (step env ev w) as [w1|] eqn:Hstep; [|discriminate].
    apply (IH w1 w' Hevs); [|exact Hrun].
    pose proof (step_effect env ev w w1 Hstep) as He.
    apply negb_true_iff in Hev. rewrite Hev in He.
    exact (effect_cadence _ _ _ _ _ _ _ He Hw).
Qed.

(** Once stopped, no recurring timer comes back until the poll loop of a
    new job is started. *)
Lemma run_stopped env (evs : list Event) :
  forall w w', no_new_job evs = true -> stopped w -> run env evs w = Some w' -> stopped w'.
Proof.
  induction evs as [|ev evs IH]; simpl; intros w w' Hevs Hw Hrun.
  - injection Hrun as <-. exact Hw.
  - apply andb_prop in Hevs as [Hev Hevs].
    destruct (step env ev w) as [w1|] eqn:Hstep; [|discriminate].
    apply (IH w1 w' Hevs); [|exact Hrun].
    pose proof (step_effect env ev w w1 Hstep) as He.
    apply negb_true_iff in Hev. rewrite Hev in He.
    destruct Hw as [Hh Hm].
    exact (effect_stopped _ _ _ _ _ _ _ He Hh Hm).
Qed.

End Part000Facts.

(** * The not-found retries *)

Section NotFound.

Import Part000.

(** C1 (amended).  In every world the component reaches, the counter of a
    job whose id names no member of [Object.prototype] is a number.  A
    status request answered 404 for a job whose counter is a number
    increments that counter and surfaces no error.  While the incremented
    counter is below 5 the job record and the ref are left as they are and
    one one-off timer of 2000 ms is added to the timer table, beside the
    recurring one.  When the counter reaches 5 the job is not failed: its
    status becomes "processing" and its diagnostic message the "Finalizing
    video..." text; when the ref holds a timer, that timer is cleared and
    replaced by a recurring timer of 5000 ms, and when the ref holds none,
    nothing is scheduled.  Where the ref tracked the timer table, every
    recurring timer runs at 5000 ms from then on, until the poll loop of a
    new job is started. *)
Theorem C1_not_found_backoff :
  forall (env : Env) (jobId : string) (err : JsError),
    is_num (response_status err) 404 = true ->
    (forall w : World,
       reachable env w -> inherited jobId = false ->
       exists n, count (retryCount w) jobId = Some n) /\
    (forall (w : World) (n : Z),
       count (retryCount w) jobId = Some n ->
       let w' := checkJobStatus_catch jobId err w in
       count (retryCount w') jobId = Some (n + 1)%Z /\
       error w' = error w /\
       requests (browser w') = requests (browser w) /\
       ((n + 1 < 5)%Z ->
          job w' = job w /\
          pollingInterval w' = pollingInterval w /\
          timers (browser w') =
            <[nextTimer (browser w) := mkTimer false 2000 jobId]> (timers (browser w))) /\
       ((5 <= n + 1)%Z ->
          (forall p, job w = Some p ->
             exists p', job w' = Some p' /\
               VideoJob.status p' = JStr "processing" /\
               VideoJob.openAiStatus p' =
                 JStr "Finalizing video... (this may take a few more moments)" /\
               VideoJob.error p' = VideoJob.error p /\
               VideoJob.progress p' = VideoJob.progress p /\
               VideoJob.result p' = VideoJob.result p) /\
          (forall t, pollingInterval w = Some t ->
             pollingInterval w' = Some (nextTimer (browser w)) /\
             timers (browser w') =
               <[nextTimer (browser w) := mkTimer true 5000 jobId]>
                 (delete t (timers (browser w)))) /\
          (pollingInterval w = None ->
             pollingInterval w' = None /\ timers (browser w') = timers (browser w)) /\
          (forall t evs w'',
             pollingInterval w = Some t -> tracked w -> no_new_job evs = true ->
             run env evs w' = Some w'' -> slow w''))).
Proof.
  intros env jobId err H404. split.
  { intros w Hw Hk. destruct (reachable_counts env w jobId Hw Hk) as [n Hn]. eauto. }
  intros w n Hn w'. subst w'.
  destruct (count_incremented _ _ _ Hn) as [Hcount Hmax].
  destruct (Z.lt_ge_cases (n + 1)%Z 5) as [Hlt|Hge].
  - rewrite catch_retry by (try assumption; rewrite Hmax; lia). cbn.
    split; [exact Hcount|]. split; [reflexivity|]. split; [reflexivity|].
    split; [intros _; repeat split; reflexivity | intros H; lia].
  - rewrite catch_finalizing by (try assumption; rewrite Hmax; lia). cbv zeta.
    split; [destruct (pollingInterval w); cbn; exact Hcount|].
    split; [destruct (pollingInterval w); reflexivity|].
    split; [destruct (pollingInterval w); reflexivity|].
    split; [intros H; lia|]. intros _.
    split; [|split; [|split]].
    + intros p Hp. exists (finalizing p).
      split; [destruct (pollingInterval w); cbn; rewrite Hp; reflexivity|].
      repeat split; reflexivity.
    + intros t Ht. rewrite Ht. cbn. split; reflexivity.
    + intros Hh. rewrite Hh. cbn. split; [exact Hh | reflexivity].
    + intros t evs w'' Ht Hw Hevs Hrun.
      refine (run_slow env evs _ w'' Hevs _ Hrun).
      rewrite Ht. unfold slow. cbn.
      apply cadence_insert; [reflexivity|].
      apply no_recurring_cadence. unfold tracked in Hw. rewrite Ht in Hw.
      apply tracks_cleared, Hw.
Qed.

Lemma worldAfter_run (evs : list Event) (w : World) :
  run env0 evs initial = Some w -> worldAfter evs = w.
Proof. intros H. unfold worldAfter. rewrite H. reflexivity. Qed.

Lemma worldAfter_tracked (evs : list Event) :
  no_other_poll_error evs = true ->
  is_Some (run env0 evs initial) -> tracked (worldAfter evs).
Proof.
  intros Hevs [w Hw]. rewrite (worldAfter_run evs w Hw).
  exact (run_tracked env0 evs initial w Hevs initial_tracked Hw).
Qed.

Lemma C1_not_found_backoff_witness :
  (* the first not-found of a job that is being polled *)
  (is_num (response_status notFound) 404 = true /\
   reachable env0 firstPoll /\
   count (retryCount firstPoll) "job-1" = Some 0%Z /\
   count (retryCount (checkJobStatus_catch "job-1" notFound firstPoll)) "job-1"
     = Some 1%Z /\
   job (checkJobStatus_catch "job-1" notFound firstPoll) = job firstPoll /\
   timers (browser (checkJobStatus_catch "job-1" notFound firstPoll)) =
     <[2%positive := mkTimer false 2000 "job-1"]>
       {[ 1%positive := mkTimer true 2000 "job-1" ]}) /\
  (* the fifth one *)
  (count (retryCount fourMisses) "job-1" = Some 4%Z /\
   pollingInterval fourMisses = Some 1%positive /\
   tracked fourMisses /\
   count (retryCount (checkJobStatus_catch "job-1" notFound fourMisses)) "job-1"
     = Some 5%Z /\
   (VideoJob.status <$> job (checkJobStatus_catch "job-1" notFound fourMisses))
     = Some (JStr "processing") /\
   pollingInterval (checkJobStatus_catch "job-1" notFound fourMisses) = Some 6%positive /\
   recurring (browser (checkJobStatus_catch "job-1" notFound fourMisses)) =
     {[ 6%positive := mkTimer true 5000 "job-1" ]} /\
   slow (checkJobStatus_catch "job-1" notFound fourMisses)).
Proof.
  destruct (C1_not_found_backoff env0 "job-1" notFound eq_refl) as [Hnum Hstep].
  assert (Hr : reachable env0 firstPoll).
  { exists (submitted ++ [Fire 1])%list. vm_compute. reflexivity. }
  destruct (Hnum firstPoll Hr eq_refl) as [n0 Hn0].
  assert (H0 : count (retryCount firstPoll) "job-1" = Some 0%Z)
    by (vm_compute; reflexivity).
  assert (H4 : count (retryCount fourMisses) "job-1" = Some 4%Z)
    by (vm_compute; reflexivity).
  pose proof (Hstep firstPoll 0%Z H0) as H1.
  pose proof (Hstep fourMisses 4%Z H4) as H5.
  cbv zeta in H1, H5.
  destruct H1 as (Hc1 & _ & _ & Hearly & _).
  destruct H5 as (Hc5 & _ & _ & _ & Hlate).
  assert (Htr : tracked fourMisses).
  { apply worldAfter_tracked; [reflexivity | vm_compute; eauto]. }
  split.
  - split; [reflexivity|]. split; [exact Hr|]. split; [exact H0|].
    split; [exact Hc1|].
    destruct Hearly as (Hj & _ & Ht); [lia|].
    split; [exact Hj|]. rewrite Ht. vm_compute. reflexivity.
  - destruct Hlate as (Hjob & Hsome & _ & Hlife); [lia|].
    split; [exact H4|]. split; [vm_compute; reflexivity|].
    split; [exact Htr|]. split; [exact Hc5|].
    split.
    { destruct (job fourMisses) as [p|] eqn:Hp; [|vm_compute in Hp; discriminate].
      destruct (Hjob p eq_refl) as (p' & Hp' & Hst & _). rewrite Hp'. cbn. rewrite Hst.
      reflexivity. }
    split; [apply (Hsome 1%positive); vm_compute; reflexivity|].
    split; [vm_compute; reflexivity|].
    apply (Hlife 1%positive [] _); [vm_compute; reflexivity | exact Htr | reflexivity | reflexivity].
Defined.

(** C1, as stated, fails.  (1) After a poll was answered "completed" the
    ref holds no timer; the one-off retry that was pending then and its
    successors are answered 404, and the fifth of them brings the counter to
    5 and the status to "processing", yet no timer of 5000 ms is set and no
    timer is left at all.  (2) After a poll error other than a not-found the
    ref holds no timer either, and the fifth 404 leaves the recurring timer
    of 2000 ms running.  (3) For the job id "constructor" the counter object
    reads the inherited member, the counter is no number, and six 404s in a
    row leave the record "pending" and the recurring timer at 2000 ms. *)
Theorem C1_counterexample_no_slow_timer :
  (exists w,
     run env0 fiveMissesAfterCompleted initial = Some w /\
     count (retryCount w) "job-1" = Some 5%Z /\
     (VideoJob.status <$> job w) = Some (JStr "processing") /\
     pollingInterval w = None /\
     timers (browser w) = ∅) /\
  (exists w,
     run env0 fiveMissesAfterError initial = Some w /\
     count (retryCount w) "job-1" = Some 5%Z /\
     (VideoJob.status <$> job w) = Some (JStr "processing") /\
     pollingInterval w = None /\
     recurring (browser w) = {[ 1%positive := mkTimer true 2000 "job-1" ]} /\
     ~ slow w) /\
  (exists w,
     run env0 sixMissesOfConstructor initial = Some w /\
     count (retryCount w) "constructor" = None /\
     (VideoJob.status <$> job w) = Some (JStr "pending") /\
     (VideoJob.openAiStatus <$> job w) = Some (JStr "Request received. Processing video generation...") /\
     pollingInterval w = Some 1%positive /\
     recurring (browser w) = {[ 1%positive := mkTimer true 2000 "constructor" ]}).
Proof.
  split; [|split].
  - eexists. split; [vm_compute; reflexivity|].
    repeat split; vm_compute; reflexivity.
  - eexists. split; [vm_compute; reflexivity|].
    split; [vm_compute; reflexivity|]. split; [vm_compute; reflexivity|].
    split; [vm_compute; reflexivity|]. split; [vm_compute; reflexivity|].
    intros Hslow.
    specialize (Hslow 1%positive (mkTimer true 2000 "job-1")).
    cbn in Hslow. discriminate (Hslow ltac:(vm_compute; reflexivity) eq_refl).
  - eexists. split; [vm_compute; reflexivity|].
    repeat split; vm_compute; reflexivity.
Qed.

End NotFound.

(** * The variant of [src/App.tsx]: what each callback does to the ref and
      to the timer table *)

Section AppFacts.

Import App.

Lemma stopPolling_browser_A (w : World) :
  browser (stopPolling w) =
  match pollingInterval w with
  | Some t => clearTimer t (browser w)
  | None => browser w
  end.
Proof. unfold stopPolling. destruct (pollingInterval w); reflexivity. Qed.

Lemma stopPolling_ref_A (w : World) : pollingInterval (stopPolling w) = None.
Proof.
  unfold stopPolling. destruct (pollingInterval w) eqn:E; [reflexivity | exact E].
Qed.

Lemma stopPolling_timers_A (w : World) :
  timers (browser (stopPolling w)) = cleared (pollingInterval w) (timers (browser w)).
Proof. rewrite stopPolling_browser_A. destruct (pollingInterval w); reflexivity. Qed.

Lemma stopPolling_rest_A (w : World) :
  nextTimer (browser (stopPolling w)) = nextTimer (browser w) /\
  requests (browser (stopPolling w)) = requests (browser w) /\
  inflight (browser (stopPolling w)) = inflight (browser w).
Proof. rewrite stopPolling_browser_A. destruct (pollingInterval w); repeat split. Qed.

Lemma stopPolling_stopped_A (w : World) : tracked w -> stopped (stopPolling w).
Proof.
  intros [Ht Ho]. split; [apply stopPolling_ref_A|].
  rewrite stopPolling_timers_A. apply only_recurring_none_left.
  - destruct (pollingInterval w); simpl; [apply no_oneoff_delete|]; exact Ho.
  - apply cleared_no_recurring, Ht.
Qed.

Lemma poll_resolved_ref env jobId r (w : World) :
  pollingInterval (poll_resolved env jobId r w) =
  if terminal r then None else pollingInterval w.
Proof.
  unfold poll_resolved, terminal.
  destruct (is_str (Resp.status r) "completed");
    [|destruct (is_str (Resp.status r) "failed")]; cbn;
    rewrite ?stopPolling_ref_A; destruct (truthy (Resp.openai_status r)); reflexivity.
Qed.

Lemma poll_resolved_browser env jobId r (w : World) :
  browser (poll_resolved env jobId r w) =
  if terminal r then browser (stopPolling w) else browser w.
Proof.
  unfold poll_resolved, terminal.
  destruct (is_str (Resp.status r) "completed");
    [|destruct (is_str (Resp.status r) "failed")]; cbn;
    rewrite ?stopPolling_browser_A; cbn;
    destruct (truthy (Resp.openai_status r)); reflexivity.
Qed.

Lemma poll_catch_ref err (w : World) : pollingInterval (poll_catch err w) = None.
Proof. unfold poll_catch. cbn. apply stopPolling_ref_A. Qed.

Lemma poll_catch_browser err (w : World) :
  browser (poll_catch err w) = browser (stopPolling w).
Proof. unfold poll_catch. cbn. rewrite !stopPolling_browser_A. reflexivity. Qed.

Lemma startJobPolling_ref_A jobId (w : World) :
  pollingInterval (startJobPolling jobId w) = Some (nextTimer (browser w)).
Proof.
  unfold startJobPolling, setInterval, poll_begin. cbn.
  destruct (stopPolling_rest_A w) as (-> & _). reflexivity.
Qed.

Lemma startJobPolling_timers_A jobId (w : World) :
  timers (browser (startJobPolling jobId w)) =
  <[nextTimer (browser w) := mkTimer true 2000 jobId]>
    (cleared (pollingInterval w) (timers (browser w))).
Proof.
  unfold startJobPolling, setInterval, poll_begin. cbn.
  destruct (stopPolling_rest_A w) as (-> & _). rewrite stopPolling_timers_A. reflexivity.
Qed.

Lemma startJobPolling_requests_A jobId (w : World) :
  requests (browser (startJobPolling jobId w)) = GetJob jobId :: requests (browser w).
Proof.
  unfold startJobPolling, setInterval, poll_begin. cbn.
  destruct (stopPolling_rest_A w) as (_ & -> & _). reflexivity.
Qed.

Lemma settle_requests rq (b b' : Browser) :
  settle rq b = Some b' -> requests b' = requests b.
Proof. intros H. apply settle_same in H as (_ & _ & H). exact H. Qed.

(** What one event does to the ref and the timer table: the ref is never
    reset without its timer being cleared, and no one-off timer is set. *)
Lemma step_effect_A env ev (w w' : World) :
  step env ev w = Some w' ->
  effect (starts_job ev) false false
    (pollingInterval w) (timers (browser w)) (nextTimer (browser w))
    (pollingInterval w') (timers (browser w')).
Proof.
  destruct ev as [v| |v data|v err|t|jobId r|jobId err|]; simpl; intros Hstep.
  - injection Hstep as <-. apply eff_same.
  - injection Hstep as <-. unfold form_onSubmit.
    destruct (Form.hasErrors _); apply eff_same.
  - destruct (settle _ _) as [b|] eqn:Hb; [|discriminate].
    apply settle_same in Hb as (Ht & Hn & _). injection Hstep as <-.
    unfold handleGenerate_resolved. destruct (truthy data && _).
    + rewrite startJobPolling_ref_A, startJobPolling_timers_A. cbn.
      rewrite Ht, Hn. apply eff_start; reflexivity.
    + cbn. rewrite Ht. apply eff_same.
  - destruct (settle _ _) as [b|] eqn:Hb; [|discriminate].
    apply settle_same in Hb as (Ht & Hn & _). injection Hstep as <-.
    cbn. rewrite Ht. apply eff_same.
  - destruct (timers (browser w) !! t) as [tm|] eqn:Htm; [|discriminate].
    injection Hstep as <-. destruct (repeating tm); cbn; [apply eff_same | apply eff_gone].
  - destruct (settle _ _) as [b|] eqn:Hb; [|discriminate].
    apply settle_same in Hb as (Ht & Hn & _). injection Hstep as <-.
    rewrite poll_resolved_ref, poll_resolved_browser.
    destruct (terminal r); [|cbn; rewrite Ht; apply eff_same].
    rewrite stopPolling_timers_A. cbn. rewrite Ht. apply eff_stop.
  - destruct (settle _ _) as [b|] eqn:Hb; [|discriminate].
    apply settle_same in Hb as (Ht & Hn & _). injection Hstep as <-.
    rewrite poll_catch_ref, poll_catch_browser, stopPolling_timers_A. cbn.
    rewrite Ht. apply eff_stop.
  - injection Hstep as <-. unfold unmount.
    rewrite stopPolling_ref_A, stopPolling_timers_A. apply eff_stop.
Qed.

Lemma initial_tracked_A : tracked initial.
Proof.
  split; [apply tracks_empty|]. intros t tm H. cbn in H.
  rewrite lookup_empty in H. discriminate.
Qed.

Lemma step_tracked_A env ev (w w' : World) :
  tracked w -> step env ev w = Some w' -> tracked w'.
Proof.
  intros [Ht Ho] Hstep. pose proof (step_effect_A env ev w w' Hstep) as He.
  split; [exact (effect_tracks _ _ _ _ _ _ _ He Ht)
         | exact (effect_no_oneoff _ _ _ _ _ _ _ He Ho)].
Qed.

Lemma run_tracked_A env (evs : list Event) :
  forall w w', tracked w -> run env evs w = Some w' -> tracked w'.
Proof.
  induction evs as [|ev evs IH]; simpl; intros w w' Hw Hrun.
  - injection Hrun as <-. exact Hw.
  - destruct (step env ev w) as [w1|] eqn:Hstep; [|discriminate].
    exact (IH w1 w' (step_tracked_A env ev w w1 Hw Hstep) Hrun).
Qed.

(** In every reachable world the timer table holds at most the recurring
    timer of the ref. *)
Lemma reachable_tracked_A env (w : World) : reachable env w -> tracked w.
Proof. intros [evs Hrun]. exact (run_tracked_A env evs initial w initial_tracked_A Hrun). Qed.

Lemma reachable_at_most_one_A env (w : World) :
  reachable env w -> size (timers (browser w)) <= 1.
Proof.
  intros Hr. destruct (reachable_tracked_A env w Hr) as [Ht Ho].
  replace (timers (browser w)) with (recurring (browser w));
    [exact (tracks_at_most_one _ _ Ht)|].
  apply map_eq. intros k. apply option_eq. intros tm. rewrite recurring_lookup.
  split; [tauto|]. intros H. split; [exact H | exact (Ho k tm H)].
Qed.

(** With no timer left, no event but the start of a new job sends a status
    request or sets a timer. *)
Lemma step_stopped_A env ev (w w' : World) :
  starts_job ev = false -> stopped w -> step env ev w = Some w' ->
  stopped w' /\ polls (browser w') = polls (browser w).
Proof.
  intros Hev [Hh Hm] Hstep.
  pose proof (step_effect_A env ev w w' Hstep) as He. rewrite Hev in He.
  split; [exact (effect_empty _ _ _ _ _ _ He Hh Hm)|].
  destruct ev as [v| |v data|v err|t|jobId r|jobId err|]; simpl in Hstep;
    try discriminate Hev.
  - injection Hstep as <-. reflexivity.
  - injection Hstep as <-. unfold form_onSubmit.
    destruct (Form.hasErrors _); reflexivity.
  - destruct (settle _ _) as [b|] eqn:Hb; [|discriminate].
    apply settle_requests in Hb. injection Hstep as <-. unfold polls. cbn.
    rewrite Hb. reflexivity.
  - rewrite Hm, lookup_empty in Hstep. discriminate.
  - destruct (settle _ _) as [b|] eqn:Hb; [|discriminate].
    apply settle_requests in Hb. injection Hstep as <-. unfold polls.
    rewrite poll_resolved_browser.
    destruct (terminal r); [destruct (stopPolling_rest_A (set_browser b w)) as (_ & -> & _)|];
      cbn; rewrite Hb; reflexivity.
  - destruct (settle _ _) as [b|] eqn:Hb; [|discriminate].
    apply settle_requests in Hb. injection Hstep as <-. unfold polls.
    rewrite poll_catch_browser.
    destruct (stopPolling_rest_A (set_browser b w)) as (_ & -> & _).
    cbn. rewrite Hb. reflexivity.
  - injection Hstep as <-. unfold polls, unmount.
    destruct (stopPolling_rest_A w) as (_ & -> & _). reflexivity.
Qed.

Lemma run_stopped_A env (evs : list Event) :
  forall w w', no_new_job evs = true -> stopped w -> run env evs w = Some w' ->
               stopped w' /\ polls (browser w') = polls (browser w).
Proof.
  induction evs as [|ev evs IH]; simpl; intros w w' Hevs Hw Hrun.
  - injection Hrun as <-. split; [exact Hw | reflexivity].
  - apply andb_prop in Hevs as [Hev Hevs]. apply negb_true_iff in Hev.
    destruct (step env ev w) as [w1|] eqn:Hstep; [|discriminate].
    destruct (step_stopped_A env ev w w1 Hev Hw Hstep) as [Hw1 Hp1].
    destruct (IH w1 w' Hevs Hw1 Hrun) as [Hw' Hp']. split; [exact Hw' | congruence].
Qed.

End AppFacts.

(** * Terminal statuses *)

Section Terminal.

Lemma terminal_status (r : Resp.t) :
  Resp.status r = JStr "completed" \/ Resp.status r = JStr "failed" ->
  Part000.terminal r = true /\ App.terminal r = true /\ truthy (Resp.status r) = true.
Proof.
  unfold Part000.terminal, App.terminal. intros [-> | ->]; repeat split; reflexivity.
Qed.

Lemma truthy_url_result (r : Resp.t) :
  truthy (opt_prop (Resp.result r) "video_url") = true -> truthy (Resp.result r) = true.
Proof. destruct (Resp.result r); simpl; try discriminate. reflexivity. Qed.

End Terminal.

(** C4 (amended).  Processing a status response whose status is
    "completed" or "failed" clears the recurring timer held by the ref and
    resets the ref; the job record takes the terminal status, on
    "completed" the download dialog opens and the video URL of the result
    is stored on the record, on "failed" the error of the response is
    surfaced, or "Video generation failed" when the response has none.
    In [src/App.tsx] no timer at all is left then, and no status request is
    sent until the poll loop of a new job is started.  In the variant with
    the not-found retries no RECURRING timer is left (provided the ref was
    tracking the timer table) and none comes back until a new job is
    started, but the one-off retries already scheduled are not cancelled:
    every timer other than the one of the ref stays in the table. *)
Theorem C4_terminal_status_clears_the_recurring_timer :
  forall (env : Env) (jobId : string) (r : Resp.t),
    Resp.status r = JStr "completed" \/ Resp.status r = JStr "failed" ->
    (forall a : App.World,
       App.reachable env a ->
       let a' := App.poll_resolved env jobId r a in
       App.stopped a' /\
       polls (App.browser a') = polls (App.browser a) /\
       App.isLoading a' = false /\
       (exists q, App.job a' = Some q /\ App.VideoJob.status q = Resp.status r /\
          (truthy (opt_prop (Resp.result r) "video_url") = true ->
             App.VideoJob.videoUrl q = opt_prop (Resp.result r) "video_url")) /\
       (Resp.status r = JStr "completed" ->
          App.showDownloadModal a' = true /\ App.statusEmoji a' = CheckMark) /\
       (Resp.status r = JStr "failed" ->
          App.error a' = js_or (Resp.error r) (JStr "Video generation failed") /\
          App.statusEmoji a' = CrossMark) /\
       (forall evs a'',
          App.no_new_job evs = true -> App.run env evs a' = Some a'' ->
          App.stopped a'' /\ polls (App.browser a'') = polls (App.browser a'))) /\
    (forall w : Part000.World,
       Part000.tracked w ->
       let w' := Part000.checkJobStatus_resolved jobId r w in
       Part000.stopped w' /\
       (forall k, Part000.pollingInterval w <> Some k ->
          timers (Part000.browser w') !! k = timers (Part000.browser w) !! k) /\
       requests (Part000.browser w') = requests (Part000.browser w) /\
       Part000.isLoading w' = false /\
       Part000.isGenerating w' = false /\
       (forall p, Part000.job w = Some p ->
          exists p', Part000.job w' = Some p' /\
            Part000.VideoJob.status p' = Resp.status r /\
            (truthy (opt_prop (Resp.result r) "video_url") = true ->
               Part000.VideoJob.result p' = Resp.result r /\
               Part000.VideoJob.videoUrl p' = opt_prop (Resp.result r) "video_url")) /\
       (Resp.status r = JStr "completed" ->
          Part000.showDownloadModal w' = true /\ Part000.statusEmoji w' = CheckMark) /\
       (Resp.status r = JStr "failed" ->
          Part000.error w' = js_or (Resp.error r) (JStr "Video generation failed") /\
          Part000.statusEmoji w' = CrossMark) /\
       (forall evs w'',
          Part000.no_new_job evs = true -> Part000.run env evs w' = Some w'' ->
          Part000.stopped w'')).
Proof.
  intros env jobId r Hr.
  destruct (terminal_status r Hr) as (HtB & HtA & Htruthy).
  split.
  - intros a Ha a'. subst a'.
    pose proof (reachable_tracked_A env a Ha) as Htr.
    assert (Hstop : App.stopped (App.poll_resolved env jobId r a)).
    { split.
      - rewrite poll_resolved_ref, HtA. reflexivity.
      - rewrite poll_resolved_browser, HtA. apply (stopPolling_stopped_A a Htr). }
    split; [exact Hstop|].
    split.
    { unfold polls. rewrite poll_resolved_browser, HtA.
      destruct (stopPolling_rest_A a) as (_ & -> & _). reflexivity. }
    split.
    { unfold App.poll_resolved.
      destruct Hr as [-> | ->]; cbn; destruct (truthy (Resp.openai_status r)); reflexivity. }
    split.
    { rewrite resolved_merges_A. eexists. split; [reflexivity|].
      destruct (App.job a); cbn.
      - split; [unfold js_or; rewrite Htruthy; reflexivity|].
        intros Hu. unfold App.pollVideoUrl. rewrite Hu. unfold js_or. rewrite Hu. reflexivity.
      - split; [unfold js_or; rewrite Htruthy; reflexivity|].
        intros Hu. unfold App.pollVideoUrl. rewrite Hu. reflexivity. }
    split.
    { intros Hs. unfold App.poll_resolved. rewrite Hs. cbn.
      destruct (truthy (Resp.openai_status r)); split; reflexivity. }
    split.
    { intros Hs. unfold App.poll_resolved. rewrite Hs. cbn.
      destruct (truthy (Resp.openai_status r)); split; reflexivity. }
    intros evs a'' Hevs Hrun. exact (run_stopped_A env evs _ a'' Hevs Hstop Hrun).
  - intros w Hw w'. subst w'.
    assert (Hstop : Part000.stopped (Part000.checkJobStatus_resolved jobId r w)).
    { split.
      - rewrite resolved_ref, HtB. reflexivity.
      - rewrite resolved_browser, HtB. apply (stopPolling_stopped w Hw). }
    split; [exact Hstop|].
    split.
    { intros k Hk. rewrite resolved_browser, HtB. apply stopPolling_keeps_others, Hk. }
    split.
    { rewrite resolved_browser, HtB. apply stopPolling_requests. }
    split.
    { unfold Part000.checkJobStatus_resolved. destruct Hr as [-> | ->]; reflexivity. }
    split.
    { unfold Part000.checkJobStatus_resolved. destruct Hr as [-> | ->]; reflexivity. }
    split.
    { intros p Hp. rewrite resolved_merges_B, Hp. eexists. split; [reflexivity|].
      cbn. split; [unfold js_or; rewrite Htruthy; reflexivity|].
      intros Hu. unfold js_or. rewrite Hu, (truthy_url_result r Hu). split; reflexivity. }
    split.
    { intros Hs. unfold Part000.checkJobStatus_resolved. rewrite Hs. split; reflexivity. }
    split.
    { intros Hs. unfold Part000.checkJobStatus_resolved. rewrite Hs. split; reflexivity. }
    intros evs w'' Hevs Hrun. exact (run_stopped env evs _ w'' Hevs Hstop Hrun).
Qed.

Lemma C4_terminal_status_clears_the_recurring_timer_witness :
  Resp.status completedResp = JStr "completed" /\
  App.reachable env0 firstPollApp /\
  Part000.tracked firstPoll /\
  App.stopped (App.poll_resolved env0 "job-1" completedResp firstPollApp) /\
  App.showDownloadModal (App.poll_resolved env0 "job-1" completedResp firstPollApp) = true /\
  Part000.stopped (Part000.checkJobStatus_resolved "job-1" completedResp firstPoll) /\
  Part000.showDownloadModal
    (Part000.checkJobStatus_resolved "job-1" completedResp firstPoll) = true.
Proof.
  assert (Hreach : App.reachable env0 firstPollApp).
  { exists submittedApp. vm_compute. reflexivity. }
  assert (Htr : Part000.tracked firstPoll).
  { apply worldAfter_tracked; [reflexivity | vm_compute; eauto]. }
  pose proof (C4_terminal_status_clears_the_recurring_timer env0 "job-1" completedResp
                (or_introl eq_refl)) as [HA HB].
  specialize (HA firstPollApp Hreach). specialize (HB firstPoll Htr).
  cbv zeta in HA, HB.
  destruct HA as (HA1 & _ & _ & _ & HA5 & _).
  destruct HB as (HB1 & _ & _ & _ & _ & _ & HB7 & _).
  split; [reflexivity|]. split; [exact Hreach|]. split; [exact Htr|].
  split; [exact HA1|]. split; [exact (proj1 (HA5 eq_refl))|].
  split; [exact HB1 | exact (proj1 (HB7 eq_refl))].
Defined.

(** C4 (as stated) fails in the variant with the not-found retries: a poll
    answered 404 schedules the one-off retry 2, the next poll is answered
    "completed" and clears the recurring timer 1, and then the retry fires
    and one more status request is sent. *)
Lemma C4_counterexample_pending_retry :
  exists w w' : Part000.World,
    Part000.run env0 completedWithRetryPending Part000.initial = Some w /\
    (Part000.VideoJob.status <$> Part000.job w) = Some (JStr "completed") /\
    Part000.pollingInterval w = None /\
    Part000.step env0 (Part000.Fire 2) w = Some w' /\
    requests (Part000.browser w') = GetJob "job-1" :: requests (Part000.browser w).
Proof.
  eexists. eexists.
  split; [vm_compute; reflexivity|].
  split; [reflexivity|]. split; [reflexivity|].
  split; [vm_compute; reflexivity | reflexivity].
Qed.

(** * Poll errors other than a not-found *)

Section OtherPollErrors.

Import Part000.

(** The branch records the message on the job, leaves the status alone and
    resets the ref, but the timer table is not touched: the recurring
    timer keeps running. *)
Lemma catch_other_keeps_timers jobId err (w : World) :
  is_num (response_status err) 404 = false ->
  let w' := checkJobStatus_catch jobId err w in
  pollingInterval w' = None /\
  browser w' = browser w /\
  job w' = withError (js_or (JStr (message err)) (JStr "Failed to check job status"))
             <$> job w.
Proof.
  intros H404 w'. subst w'. rewrite catch_other by assumption. repeat split.
Qed.

(** The same error in [src/App.tsx] clears the timer before the ref. *)
Lemma poll_catch_stops_A err (a : App.World) :
  App.tracked a -> App.stopped (App.poll_catch err a).
Proof.
  intros Ha. split; [apply poll_catch_ref|].
  rewrite poll_catch_browser. apply (stopPolling_stopped_A a Ha).
Qed.

(** Along every run without that branch at most one recurring timer
    exists. *)
Lemma run_at_most_one env (evs : list Event) (w : World) :
  no_other_poll_error evs = true -> run env evs initial = Some w ->
  size (recurring (browser w)) <= 1.
Proof.
  intros Hevs Hrun. apply (tracks_at_most_one (pollingInterval w)).
  exact (run_tracked env evs initial w Hevs initial_tracked Hrun).
Qed.

End OtherPollErrors.

(** C6 (the code departs from the claim).  Job "job-1" is being polled by
    the recurring timer 1 and its first poll fails with a 500.  The message
    is recorded on the job and the status stays "pending", as claimed, and
    the ref is reset; but [clearInterval] is not called, so timer 1 is
    still in the timer table and its next tick sends one more status
    request. *)
Theorem C6_other_poll_error_leaves_the_timer_running :
  exists w w' w'' : Part000.World,
    Part000.run env0 (submitted ++ [Part000.Fire 1]) Part000.initial = Some w /\
    Part000.pollingInterval w = Some 1%positive /\
    Part000.step env0 (Part000.PollRejected "job-1" serverError) w = Some w' /\
    Part000.pollingInterval w' = None /\
    timers (Part000.browser w') !! 1%positive = Some (mkTimer true 2000 "job-1") /\
    (Part000.VideoJob.error <$> Part000.job w')
      = Some (JStr "Request failed with status code 500") /\
    (Part000.VideoJob.status <$> Part000.job w') = Some (JStr "pending") /\
    Part000.step env0 (Part000.Fire 1) w' = Some w'' /\
    requests (Part000.browser w'') = GetJob "job-1" :: requests (Part000.browser w').
Proof.
  eexists. eexists. eexists.
  split; [vm_compute; reflexivity|].
  split; [reflexivity|].
  split; [vm_compute; reflexivity|].
  split; [reflexivity|]. split; [vm_compute; reflexivity|].
  split; [reflexivity|]. split; [reflexivity|].
  split; [vm_compute; reflexivity | reflexivity].
Qed.

(** C5 (the code departs from the claim).  After a poll of "job-1" failed
    with a 500 the recurring timer 1 is still running while the ref is
    reset, so the next start of a poll loop finds nothing to cancel: two
    recurring timers are active, both polling "job-1" when the create
    request answers with the same id, one per job when it answers with a
    new id. *)
Theorem C5_leaked_timer_survives_restart :
  (exists w : Part000.World,
     Part000.run env0 resubmitted Part000.initial = Some w /\
     Part000.pollingInterval w = Some 2%positive /\
     recurring (Part000.browser w) =
       <[2%positive := mkTimer true 2000 "job-1"]>
         {[ 1%positive := mkTimer true 2000 "job-1" ]} /\
     size (recurring (Part000.browser w)) = 2) /\
  (exists w : Part000.World,
     Part000.run env0 resubmitted2 Part000.initial = Some w /\
     Part000.pollingInterval w = Some 2%positive /\
     recurring (Part000.browser w) =
       <[2%positive := mkTimer true 2000 "job-2"]>
         {[ 1%positive := mkTimer true 2000 "job-1" ]} /\
     size (recurring (Part000.browser w)) = 2).
Proof.
  split; eexists;
    (split; [vm_compute; reflexivity|]);
    (split; [reflexivity|]); split; vm_compute; reflexivity.
Qed.

(** * The create request *)

(** C8 (amended).  A create response with a job identifier starts the poll
    loop: the job record gets the identifier and the status "pending", a
    recurring timer of 2000 ms is set and stored in the ref ([src/App.tsx]
    also sends the first status request at once).  A failed create request
    and a response without an identifier are handled alike, the latter as
    the error "No job ID received in response": the error message is
    shown and the failure mark is set, no timer is set and no status
    request is sent, and the form values are kept.  The job is NOT marked
    failed: in the variant with the provisional record its status stays as
    it was ("pending" after the submission), the record keeps the request
    parameters and only its diagnostic message becomes "Error: ...";
    [src/App.tsx] leaves the job state untouched. *)
Theorem C8_create_response_handling :
  forall (envS env : Env) (v : Form.Values),
    (forall (data : JsVal) (w : Part000.World) (a : App.World),
        truthy data && truthy (opt_prop data "id") = true ->
        let jobId := js_to_string (opt_prop data "id") in
        let w' := Part000.handleSubmit_resolved envS env v data w in
        let a' := App.handleGenerate_resolved env v data a in
        Part000.pollingInterval w' = Some (nextTimer (Part000.browser w)) /\
        timers (Part000.browser w') !! nextTimer (Part000.browser w)
          = Some (mkTimer true 2000 jobId) /\
        (exists p, Part000.job w' = Some p /\
           Part000.VideoJob.id p = jobId /\
           Part000.VideoJob.status p = JStr "pending" /\
           Part000.VideoJob.prompt p = Form.prompt v /\
           Part000.VideoJob.duration p = Form.duration v /\
           Part000.VideoJob.resolution p = Form.resolution v) /\
        App.pollingInterval a' = Some (nextTimer (App.browser a)) /\
        timers (App.browser a') !! nextTimer (App.browser a)
          = Some (mkTimer true 2000 jobId) /\
        requests (App.browser a') = GetJob jobId :: requests (App.browser a) /\
        (exists q, App.job a' = Some q /\
           App.VideoJob.id q = jobId /\
           App.VideoJob.status q = JStr "pending")) /\
    (forall (err : JsError) (w : Part000.World) (a : App.World),
        let msg := js_or (response_detail err)
                     (js_or (JStr (message err))
                        (JStr "Failed to start video generation")) in
        let w' := Part000.handleSubmit_catch err w in
        let a' := App.handleGenerate_catch err a in
        Part000.error w' = msg /\
        Part000.statusEmoji w' = CrossMark /\
        Part000.isLoading w' = false /\
        Part000.browser w' = Part000.browser w /\
        Part000.pollingInterval w' = Part000.pollingInterval w /\
        Part000.formValues w' = Part000.formValues w /\
        (forall p, Part000.job w = Some p ->
           exists p', Part000.job w' = Some p' /\
             Part000.VideoJob.status p' = Part000.VideoJob.status p /\
             Part000.VideoJob.openAiStatus p' = JStr ("Error: " ++ js_to_string msg) /\
             Part000.VideoJob.prompt p' = Part000.VideoJob.prompt p /\
             Part000.VideoJob.duration p' = Part000.VideoJob.duration p /\
             Part000.VideoJob.resolution p' = Part000.VideoJob.resolution p /\
             Part000.VideoJob.generationDetails p' = Part000.VideoJob.generationDetails p) /\
        App.error a' = JStr ("Error: " ++ js_to_string msg) /\
        App.statusEmoji a' = CrossMark /\
        App.isLoading a' = false /\
        App.browser a' = App.browser a /\
        App.pollingInterval a' = App.pollingInterval a /\
        App.formValues a' = App.formValues a /\
        App.job a' = App.job a) /\
    (forall (err : JsError) (w : Part000.World),
        exists p, Part000.job (Part000.handleSubmit_catch err
                                 (Part000.handleSubmit_begin envS v w)) = Some p /\
          Part000.VideoJob.status p = JStr "pending" /\
          Part000.VideoJob.prompt p = Form.prompt v /\
          Part000.VideoJob.duration p = Form.duration v /\
          Part000.VideoJob.resolution p = Form.resolution v) /\
    (forall (data : JsVal) (w : Part000.World) (a : App.World),
        truthy data && truthy (opt_prop data "id") = false ->
        Part000.handleSubmit_resolved envS env v data w =
          Part000.handleSubmit_catch (newError "No job ID received in response") w /\
        App.handleGenerate_resolved env v data a =
          App.handleGenerate_catch (newError "No job ID received in response") a /\
        Part000.error (Part000.handleSubmit_resolved envS env v data w)
          = JStr "No job ID received in response" /\
        App.error (App.handleGenerate_resolved env v data a)
          = JStr "Error: No job ID received in response").
Proof.
  intros envS env v. split; [|split; [|split]].
  - intros data w a Hid jobId w' a'. subst jobId w' a'.
    unfold Part000.handleSubmit_resolved, App.handleGenerate_resolved. rewrite Hid.
    split; [apply startJobPolling_ref|].
    split; [rewrite startJobPolling_timers; apply lookup_insert_eq|].
    split.
    { destruct (startJobPolling_job env v (js_to_string (opt_prop data "id"))
                  (Part000.withOpenAiStatus
                     (JStr "Request received. Processing video generation...")
                     (Part000.provisionalJob envS v)) w)
        as (p & Hp & H1 & H2 & _ & H4 & H5 & H6).
      exists p. repeat split; assumption. }
    split; [rewrite startJobPolling_ref_A; reflexivity|].
    split; [rewrite startJobPolling_timers_A; apply lookup_insert_eq|].
    split; [rewrite startJobPolling_requests_A; reflexivity|].
    unfold App.startJobPolling, App.setInterval, App.poll_begin. cbn.
    rewrite job_stopPolling_A. cbn. eexists. split; [reflexivity|]. split; reflexivity.
  - intros err w a msg w' a'. subst msg w' a'.
    repeat match goal with |- _ /\ _ => split end; try reflexivity.
    intros p Hp. unfold Part000.handleSubmit_catch. cbn. rewrite Hp.
    eexists. split; [reflexivity|]. repeat split; reflexivity.
  - intros err w. unfold Part000.handleSubmit_catch, Part000.handleSubmit_begin. cbn.
    eexists. split; [reflexivity|]. repeat split; reflexivity.
  - intros data w a Hid.
    unfold Part000.handleSubmit_resolved, App.handleGenerate_resolved. rewrite Hid.
    repeat split; reflexivity.
Qed.

Lemma C8_create_response_handling_witness :
  truthy created && truthy (opt_prop created "id") = true /\
  truthy createdWithoutId && truthy (opt_prop createdWithoutId "id") = false /\
  (exists p,
     Part000.job (Part000.handleSubmit_resolved env0 env0 catValues created submitting)
       = Some p /\
     Part000.VideoJob.id p = "job-1" /\ Part000.VideoJob.status p = JStr "pending") /\
  Part000.pollingInterval
    (Part000.handleSubmit_resolved env0 env0 catValues created submitting)
    = Some 1%positive /\
  Part000.error
    (Part000.handleSubmit_resolved env0 env0 catValues createdWithoutId submitting)
    = JStr "No job ID received in response" /\
  (exists p,
     Part000.job (Part000.handleSubmit_catch serverError submitting) = Some p /\
     Part000.VideoJob.status p = JStr "pending") /\
  App.job (App.handleGenerate_catch serverError submittingApp) = None.
Proof.
  pose proof (C8_create_response_handling env0 env0 catValues)
    as (Hok & Hfail & _ & Hnoid).
  destruct (Hok created submitting submittingApp eq_refl)
    as (Href & _ & (p & Hp & Hid & Hst & _) & _).
  destruct (Hnoid createdWithoutId submitting submittingApp eq_refl)
    as (_ & _ & Herr & _).
  destruct (Hfail serverError submitting submittingApp)
    as (_ & _ & _ & _ & _ & _ & Hjob & _ & _ & _ & _ & _ & _ & HjobA).
  split; [reflexivity|]. split; [reflexivity|].
  split; [exists p; repeat split; assumption|].
  split; [exact Href|]. split; [exact Herr|].
  split.
  - destruct (Hjob (Part000.provisionalJob env0 catValues) eq_refl)
      as (p' & Hp' & Hst' & _).
    exists p'. split; [exact Hp' | exact Hst'].
  - rewrite HjobA. reflexivity.
Defined.

(** C8 (as stated) fails: after a create request that failed with a 500
    the job of the variant with the provisional record still has the status
    "pending", not "failed", and [src/App.tsx] has no job record at all;
    the same holds for a response without an identifier. *)
Lemma C8_counterexample_job_not_marked_failed :
  (exists w : Part000.World,
     Part000.run env0 createFailed Part000.initial = Some w /\
     Part000.error w = JStr "Request failed with status code 500" /\
     (Part000.VideoJob.status <$> Part000.job w) = Some (JStr "pending") /\
     (Part000.VideoJob.status <$> Part000.job w) <> Some (JStr "failed")) /\
  (exists a : App.World,
     App.run env0 createFailedApp App.initial = Some a /\
     App.error a = JStr "Error: Request failed with status code 500" /\
     App.job a = None) /\
  (exists w : Part000.World,
     Part000.run env0
       [ Part000.Input catValues; Part000.Submit;
         Part000.CreateResolved env0 catValues createdWithoutId ] Part000.initial
       = Some w /\
     Part000.error w = JStr "No job ID received in response" /\
     (Part000.VideoJob.status <$> Part000.job w) = Some (JStr "pending")).
Proof.
  split; [|split].
  - eexists. split; [vm_compute; reflexivity|].
    split; [reflexivity|]. split; [reflexivity | discriminate].
  - eexists. split; [vm_compute; reflexivity|]. split; reflexivity.
  - eexists. split; [vm_compute; reflexivity|]. split; reflexivity.
Qed.

(** * Responses that arrive after the timer was cleared *)

Section Stale.

Lemma settle_inflight rq (b : Browser) :
  rq ∈ inflight b -> exists b', settle rq b = Some b' /\ timers b' = timers b.
Proof.
  intros H. unfold settle. destruct (decide (rq ∈ inflight b)); [|contradiction].
  eexists. split; reflexivity.
Qed.

End Stale.

(** C9 (amended).  Clearing the timer is the only cancellation and the
    callbacks have no liveness check.  Clearing the timer leaves the
    requests in flight as they are, and the answer to a status request that
    is in flight is processed also when the ref holds no timer: it is
    merged into the job record like any other answer (in [src/App.tsx] a
    record is even created from it when there is none). *)
Theorem C9_response_after_cancellation_is_merged :
  forall (env : Env) (jobId : string) (r : Resp.t),
    (forall w : Part000.World,
        Part000.pollingInterval w = None ->
        GetJob jobId ∈ inflight (Part000.browser w) ->
        exists w', Part000.step env (Part000.PollResolved jobId r) w = Some w' /\
          Part000.job w' = (fun p => Part000.mergePoll p r) <$> Part000.job w) /\
    (forall a : App.World,
        App.pollingInterval a = None ->
        GetJob jobId ∈ inflight (App.browser a) ->
        exists a', App.step env (App.PollResolved jobId r) a = Some a' /\
          App.job a' = Some (match App.job a with
                             | None => App.createdByPoll env jobId r
                             | Some q => App.mergePoll env q r
                             end)) /\
    (forall w : Part000.World,
        inflight (Part000.browser (Part000.stopPolling w))
          = inflight (Part000.browser w)) /\
    (forall a : App.World,
        inflight (App.browser (App.stopPolling a)) = inflight (App.browser a)).
Proof.
  intros env jobId r. split; [|split; [|split]].
  - intros w _ Hin. destruct (settle_inflight _ _ Hin) as (b & Hb & _).
    eexists. simpl. rewrite Hb. split; [reflexivity|].
    rewrite resolved_merges_B. reflexivity.
  - intros a _ Hin. destruct (settle_inflight _ _ Hin) as (b & Hb & _).
    eexists. simpl. rewrite Hb. split; [reflexivity|].
    rewrite resolved_merges_A. reflexivity.
  - intros w. apply stopPolling_requests.
  - intros a. apply stopPolling_rest_A.
Qed.

Lemma C9_response_after_cancellation_is_merged_witness :
  Part000.pollingInterval (worldAfter completedWithPollInFlight) = None /\
  GetJob "job-1" ∈ inflight (Part000.browser (worldAfter completedWithPollInFlight)) /\
  (exists w',
     Part000.step env0 (Part000.PollResolved "job-1" processingResp)
       (worldAfter completedWithPollInFlight) = Some w' /\
     (Part000.VideoJob.status <$> Part000.job w') = Some (JStr "processing")) /\
  App.pollingInterval (worldAfterApp completedWithPollInFlightApp) = None /\
  GetJob "job-1" ∈ inflight (App.browser (worldAfterApp completedWithPollInFlightApp)) /\
  (exists a',
     App.step env0 (App.PollResolved "job-1" processingResp)
       (worldAfterApp completedWithPollInFlightApp) = Some a' /\
     (App.VideoJob.status <$> App.job a') = Some (JStr "processing")).
Proof.
  pose proof (C9_response_after_cancellation_is_merged env0 "job-1" processingResp)
    as (HB & HA & _).
  assert (HinB : GetJob "job-1" ∈
                 inflight (Part000.browser (worldAfter completedWithPollInFlight))).
  { vm_compute. apply list_elem_of_here. }
  assert (HinA : GetJob "job-1" ∈
                 inflight (App.browser (worldAfterApp completedWithPollInFlightApp))).
  { vm_compute. apply list_elem_of_here. }
  split; [reflexivity|]. split; [exact HinB|].
  split.
  { destruct (HB (worldAfter completedWithPollInFlight) eq_refl HinB)
      as (w' & Hstep & Hjob).
    exists w'. split; [exact Hstep|]. rewrite Hjob. reflexivity. }
  split; [reflexivity|]. split; [exact HinA|].
  destruct (HA (worldAfterApp completedWithPollInFlightApp) eq_refl HinA)
    as (a' & Hstep & Hjob).
  exists a'. split; [exact Hstep|]. rewrite Hjob. reflexivity.
Defined.

(** C9 (as stated) fails: the answer "completed" clears the timer and the
    ref while another status request is in flight; its late answer
    [{status: "processing", progress: 30}] is not discarded, it overwrites
    the status and the progress of the completed job. *)
Lemma C9_counterexample_stale_response_applied :
  (exists w w' : Part000.World,
     Part000.run env0 completedWithPollInFlight Part000.initial = Some w /\
     Part000.pollingInterval w = None /\
     timers (Part000.browser w) = ∅ /\
     (Part000.VideoJob.status <$> Part000.job w) = Some (JStr "completed") /\
     Part000.step env0 (Part000.PollResolved "job-1" processingResp) w = Some w' /\
     (Part000.VideoJob.status <$> Part000.job w') = Some (JStr "processing") /\
     (Part000.VideoJob.progress <$> Part000.job w') = Some (JNum 30)) /\
  (exists a a' : App.World,
     App.run env0 completedWithPollInFlightApp App.initial = Some a /\
     App.pollingInterval a = None /\
     timers (App.browser a) = ∅ /\
     (App.VideoJob.status <$> App.job a) = Some (JStr "completed") /\
     App.step env0 (App.PollResolved "job-1" processingResp) a = Some a' /\
     (App.VideoJob.status <$> App.job a') = Some (JStr "processing") /\
     (App.VideoJob.progress <$> App.job a') = Some (JNum 30)).
Proof.
  split; eexists; eexists;
    (split; [vm_compute; reflexivity|]);
    (split; [reflexivity|]); (split; [reflexivity|]); (split; [reflexivity|]);
    (split; [vm_compute; reflexivity|]); split; reflexivity.
Qed.

Lemma C7_validation_fails_closed_witness :
  (* refused: an unlisted resolution, durations 0 and 11, a blank prompt *)
  requests (Part000.browser (Part000.form_onSubmit env0
     (filled (Form.mkValues "cat on a skateboard" 5 "999x999")))) = [] /\
  requests (Part000.browser (Part000.form_onSubmit env0
     (filled (Form.mkValues "cat on a skateboard" 0 "854x480")))) = [] /\
  requests (Part000.browser (Part000.form_onSubmit env0
     (filled (Form.mkValues "cat on a skateboard" 11 "854x480")))) = [] /\
  requests (Part000.browser (Part000.form_onSubmit env0
     (filled (Form.mkValues "   " 5 "854x480")))) = [] /\
  (* accepted: durations 1 and 10 *)
  requests (Part000.browser (Part000.form_onSubmit env0
     (filled (Form.mkValues "cat on a skateboard" 1 "854x480"))))
    = [PostGenerate "cat on a skateboard" "854x480" 1] /\
  requests (Part000.browser (Part000.form_onSubmit env0
     (filled (Form.mkValues "cat on a skateboard" 10 "854x480"))))
    = [PostGenerate "cat on a skateboard" "854x480" 10].
Proof.
  pose proof (fun v => C7_validation_fails_closed env0 (filled v) (filledApp v)) as H.
  cbv zeta in H.
  assert (Hin : In "854x480" (map fst Part000.supportedResolutions))
    by (simpl; tauto).
  assert (Hout : ~ In "999x999" (map fst Part000.supportedResolutions)).
  { simpl. intros [E|[E|[E|[E|[E|[]]]]]]; discriminate E. }
  split.
  { destruct (H (Form.mkValues "cat on a skateboard" 5 "999x999")) as ((-> & _) & _);
      [right; right; right; exact Hout | reflexivity]. }
  split.
  { destruct (H (Form.mkValues "cat on a skateboard" 0 "854x480")) as ((-> & _) & _);
      [right; left; simpl; lia | reflexivity]. }
  split.
  { destruct (H (Form.mkValues "cat on a skateboard" 11 "854x480")) as ((-> & _) & _);
      [right; right; left; simpl; lia | reflexivity]. }
  split.
  { destruct (H (Form.mkValues "   " 5 "854x480")) as ((-> & _) & _);
      [left; reflexivity | reflexivity]. }
  split.
  { destruct (H (Form.mkValues "cat on a skateboard" 1 "854x480")) as (_ & Hok & _).
    rewrite Hok; [reflexivity | reflexivity | simpl; lia | exact Hin]. }
  destruct (H (Form.mkValues "cat on a skateboard" 10 "854x480")) as (_ & Hok & _).
  rewrite Hok; [reflexivity | reflexivity | simpl; lia | exact Hin].
Defined.

(** * More on the file name *)

Section FilenameMore.

Lemma list_ascii_of_string_app (a b : string) :
  list_ascii_of_string (a ++ b) =
  (list_ascii_of_string a ++ list_ascii_of_string b)%list.
Proof. induction a as [|c a IH]; simpl; [reflexivity | rewrite IH; reflexivity]. Qed.

(** The file name is a function of the first two tokens. *)
Lemma getVideoFilename_tokens (p q : string) :
  firstn 2 (tokens p) = firstn 2 (tokens q) ->
  getVideoFilename p = getVideoFilename q.
Proof.
  intros H. rewrite !getVideoFilename_replacing.
  unfold deriveFilename_replacing, stem. rewrite H.
  destruct (tokens p) as [|x xs], (tokens q) as [|y ys]; try reflexivity;
    simpl in H; discriminate H.
Qed.

Lemma tokens_go_spaces_app (sp s : list ascii) :
  forallb isSpace sp = true -> tokens_go [] (sp ++ s) = tokens_go [] s.
Proof.
  intros H. induction sp as [|c sp IH]; [reflexivity|].
  simpl in H. apply andb_prop in H as [Hc Hsp]. simpl. rewrite Hc. exact (IH Hsp).
Qed.

Lemma tokens_go_app (c : ascii) (q : list ascii) :
  isSpace c = true ->
  forall s cur, tokens_go cur (s ++ c :: q) = (tokens_go cur s ++ tokens_go [] q)%list.
Proof.
  intros Hc. induction s as [|x s IH]; intros cur; simpl.
  - rewrite Hc. destruct cur; reflexivity.
  - destruct (isSpace x); [destruct cur|]; rewrite IH; reflexivity.
Qed.

Lemma isSpace_lower (c : ascii) : isSpace (toLowerCase_char c) = isSpace c.
Proof. destruct c as [[] [] [] [] [] [] [] []]; reflexivity. Qed.

Lemma lower_lower (c : ascii) :
  toLowerCase_char (toLowerCase_char c) = toLowerCase_char c.
Proof. destruct c as [[] [] [] [] [] [] [] []]; reflexivity. Qed.

Lemma tokens_go_lower (s : list ascii) :
  forall cur,
    tokens_go (toLowerCase cur) (toLowerCase s) = map toLowerCase (tokens_go cur s).
Proof.
  unfold toLowerCase.
  induction s as [|c s IH]; intros cur; simpl.
  - destruct cur as [|x cur]; [reflexivity|]. simpl.
    rewrite <- map_rev. simpl. rewrite map_app. reflexivity.
  - rewrite isSpace_lower. destruct (isSpace c).
    + destruct cur as [|x cur]; simpl; [apply (IH [])|].
      rewrite <- map_rev. simpl. rewrite map_app. f_equal. apply (IH []).
    + apply (IH (c :: cur)).
Qed.

Lemma map_lower_lower (ws : list (list ascii)) :
  map toLowerCase (map toLowerCase ws) = map toLowerCase ws.
Proof.
  rewrite map_map. apply map_ext. intros w. unfold toLowerCase.
  rewrite map_map. apply map_ext. apply lower_lower.
Qed.

End FilenameMore.

(** X1.  White space around the prompt does not show in the file name:
    a prompt padded on both sides with any white space gets the name of
    the prompt itself. *)
Theorem getVideoFilename_ignores_padding :
  forall a p b : string,
    blank a = true -> blank b = true ->
    getVideoFilename (a ++ p ++ b) = getVideoFilename p.
Proof.
  intros a p b Ha Hb. apply getVideoFilename_tokens. f_equal.
  unfold tokens. rewrite !list_ascii_of_string_app.
  rewrite tokens_go_spaces_app by exact Ha.
  apply tokens_go_app_spaces. exact Hb.
Qed.

Lemma getVideoFilename_ignores_padding_witness :
  getVideoFilename "   A beautiful sunset  " = getVideoFilename "A beautiful sunset".
Proof.
  exact (getVideoFilename_ignores_padding "   " "A beautiful sunset" "  "
           eq_refl eq_refl).
Defined.

(** X2.  Only the first two words count: once a prompt has two tokens,
    whatever follows them after a white space leaves the file name as it
    is. *)
Theorem getVideoFilename_ignores_later_words :
  forall (p q : string) (c : ascii),
    2 <= length (tokens p) -> isSpace c = true ->
    getVideoFilename (p ++ String c q) = getVideoFilename p.
Proof.
  intros p q c Hlen Hc. apply getVideoFilename_tokens.
  unfold tokens in *. rewrite list_ascii_of_string_app. simpl.
  rewrite (tokens_go_app c _ Hc).
  destruct (tokens_go [] (list_ascii_of_string p)) as [|x [|y l]]; simpl in *;
    [lia | lia | reflexivity].
Qed.

Lemma getVideoFilename_ignores_later_words_witness :
  getVideoFilename "A beautiful sunset over the sea" = getVideoFilename "A beautiful".
Proof.
  exact (getVideoFilename_ignores_later_words "A beautiful" "sunset over the sea"
           " "%char (le_n 2) eq_refl).
Defined.

(** X3.  The file name does not depend on letter case: two prompts with
    the same lowercase form get the same name. *)
Theorem getVideoFilename_ignores_case :
  forall p q : string,
    toLowerCase (list_ascii_of_string p) = toLowerCase (list_ascii_of_string q) ->
    getVideoFilename p = getVideoFilename q.
Proof.
  intros p q H.
  assert (Ht : map toLowerCase (tokens p) = map toLowerCase (tokens q)).
  { unfold tokens. rewrite <- !(tokens_go_lower _ []). simpl. rewrite H. reflexivity. }
  rewrite !getVideoFilename_replacing. unfold deriveFilename_replacing, stem.
  rewrite <- !firstn_map, Ht.
  destruct (tokens p) as [|x xs], (tokens q) as [|y ys]; try reflexivity;
    discriminate Ht.
Qed.

Lemma getVideoFilename_ignores_case_witness :
  getVideoFilename "HELLO World" = getVideoFilename "hello world".
Proof. exact (getVideoFilename_ignores_case "HELLO World" "hello world" eq_refl). Defined.

(** * More on the merge *)

Section MergeMore.

Lemma js_or_absorbs (a b : JsVal) : js_or a (js_or a b) = js_or a b.
Proof. unfold js_or. destruct (truthy a) eqn:E; rewrite ?E; reflexivity. Qed.

Lemma js_or_truthy (a b : JsVal) : truthy b = true -> truthy (js_or a b) = true.
Proof. intros H. unfold js_or. destruct (truthy a) eqn:E; [exact E | exact H]. Qed.

Lemma keeps_refl (p : Part000.VideoJob.t) : Part000Trace.keeps p p.
Proof. unfold Part000Trace.keeps. tauto. Qed.

Lemma keeps_trans (p1 p2 p3 : Part000.VideoJob.t) :
  Part000Trace.keeps p1 p2 -> Part000Trace.keeps p2 p3 -> Part000Trace.keeps p1 p3.
Proof.
  unfold Part000Trace.keeps.
  intros (A1 & A2 & A3 & A4 & A5 & A6 & A7 & A8 & A9 & A10)
         (B1 & B2 & B3 & B4 & B5 & B6 & B7 & B8 & B9 & B10).
  repeat split; try congruence; auto.
Qed.

Lemma keeps_merge (p : Part000.VideoJob.t) (r : Resp.t) :
  Part000Trace.keeps p (Part000.mergePoll p r).
Proof.
  unfold Part000Trace.keeps. cbn.
  repeat split; try reflexivity; apply js_or_truthy.
Qed.

Lemma keeps_finalizing (p : Part000.VideoJob.t) :
  Part000Trace.keeps p (Part000.finalizing p).
Proof. unfold Part000Trace.keeps. cbn. repeat split; auto. Qed.

Lemma keeps_withError (msg : string) (p : Part000.VideoJob.t) :
  Part000Trace.keeps p
    (Part000.withError (js_or (JStr msg) (JStr "Failed to check job status")) p).
Proof.
  unfold Part000Trace.keeps. cbn. repeat split; auto.
  intros _. unfold js_or. destruct (truthy (JStr msg)) eqn:E; [exact E | reflexivity].
Qed.

Lemma keeps_withOpenAiStatus (s : JsVal) (p : Part000.VideoJob.t) :
  Part000Trace.keeps p (Part000.withOpenAiStatus s p).
Proof. unfold Part000Trace.keeps. cbn. repeat split; auto. Qed.

Lemma catch_job jobId err (w : Part000.World) (p : Part000.VideoJob.t) :
  Part000.job w = Some p ->
  exists p', Part000.job (Part000.checkJobStatus_catch jobId err w) = Some p' /\
             Part000Trace.keeps p p'.
Proof.
  intros Hp. destruct (is_num (response_status err) 404) eqn:H404.
  - destruct (max_cases jobId (Part000.retryCount w)) as [Hlt|Hge].
    + rewrite catch_retry by assumption. cbn. exists p. split; [exact Hp | apply keeps_refl].
    + rewrite catch_finalizing by assumption. cbv zeta.
      exists (Part000.finalizing p).
      split; [destruct (Part000.pollingInterval w); cbn; rewrite Hp; reflexivity
             | apply keeps_finalizing].
  - rewrite catch_other by assumption. cbn. rewrite Hp. eexists.
    split; [reflexivity | apply keeps_withError].
Qed.

Lemma step_keeps env ev (w w' : Part000.World) (p : Part000.VideoJob.t) :
  Part000Trace.replaces_job ev = false -> Part000.job w = Some p ->
  Part000.step env ev w = Some w' ->
  exists p', Part000.job w' = Some p' /\ Part000Trace.keeps p p'.
Proof.
  intros Hev Hp Hstep.
  destruct ev as [v| |env1 v data|v err|t|jobId r|jobId err|]; simpl in Hstep;
    try discriminate Hev.
  - injection Hstep as <-. exists p. split; [exact Hp | apply keeps_refl].
  - destruct (settle _ _) as [b|]; [|discriminate]. injection Hstep as <-.
    unfold Part000.handleSubmit_catch. cbn. rewrite Hp. eexists.
    split; [reflexivity | apply keeps_withOpenAiStatus].
  - destruct (timers (Part000.browser w) !! t) as [tm|]; [|discriminate].
    injection Hstep as <-. exists p.
    split; [destruct (repeating tm); exact Hp | apply keeps_refl].
  - destruct (settle _ _) as [b|]; [|discriminate]. injection Hstep as <-.
    rewrite resolved_merges_B. cbn. rewrite Hp. eexists.
    split; [reflexivity | apply keeps_merge].
  - destruct (settle _ _) as [b|]; [|discriminate]. injection Hstep as <-.
    apply catch_job. exact Hp.
  - injection Hstep as <-. exists p. split; [|apply keeps_refl].
    unfold Part000.unmount. destruct (Part000.pollingInterval w); exact Hp.
Qed.

End MergeMore.

(** X4.  Merging a status response is idempotent in both variants:
    processing the same response a second time (at the same clock reading,
    for the address [src/App.tsx] builds) leaves the record as the first
    merge made it. *)
Theorem mergePoll_idempotent :
  forall (env : Env) (r : Resp.t) (p : Part000.VideoJob.t) (q : App.VideoJob.t),
    Part000.mergePoll (Part000.mergePoll p r) r = Part000.mergePoll p r /\
    App.mergePoll env (App.mergePoll env q r) r = App.mergePoll env q r.
Proof.
  intros env r p q. unfold Part000.mergePoll, App.mergePoll. cbn.
  split; f_equal; try apply js_or_absorbs; destruct (is_defined (Resp.progress r));
    reflexivity.
Qed.

(** X5.  Between two submissions the job record only gains: along every
    run without a submission and without the start of a new poll loop the
    record stays there, its identifier and its request parameters are those
    of the start, and a status, an error, a result or a video address that
    was there is never erased, whatever the responses and errors. *)
Theorem job_record_only_gains :
  forall (env : Env) (evs : list Part000.Event) (w w' : Part000.World)
         (p : Part000.VideoJob.t),
    Part000Trace.same_job evs = true ->
    Part000.job w = Some p ->
    Part000.run env evs w = Some w' ->
    exists p', Part000.job w' = Some p' /\ Part000Trace.keeps p p'.
Proof.
  intros env evs. induction evs as [|ev evs IH]; simpl; intros w w' p Hevs Hp Hrun.
  - injection Hrun as <-. exists p. split; [exact Hp | apply keeps_refl].
  - apply andb_prop in Hevs as [Hev Hevs]. apply negb_true_iff in Hev.
    destruct (Part000.step env ev w) as [w1|] eqn:Hstep; [|discriminate].
    destruct (step_keeps env ev w w1 p Hev Hp Hstep) as (p1 & Hp1 & Hk1).
    destruct (IH w1 w' p1 Hevs Hp1 Hrun) as (p' & Hp' & Hk').
    exists p'. split; [exact Hp' | exact (keeps_trans p p1 p' Hk1 Hk')].
Qed.

Lemma job_record_only_gains_witness :
  exists p p',
    Part000.job (worldAfter submitted) = Some p /\
    Part000.job
      (worldAfter (submitted ++
                   [ Part000.Fire 1; Part000.PollResolved "job-1" processingResp;
                     Part000.Fire 1; Part000.PollRejected "job-1" notFound ]))
      = Some p' /\
    Part000Trace.keeps p p'.
Proof.
  destruct (Part000.job (worldAfter submitted)) as [p|] eqn:Hp;
    [|vm_compute in Hp; discriminate].
  destruct (job_record_only_gains env0
              [ Part000.Fire 1; Part000.PollResolved "job-1" processingResp;
                Part000.Fire 1; Part000.PollRejected "job-1" notFound ]
              (worldAfter submitted)
              (worldAfter (submitted ++
                   [ Part000.Fire 1; Part000.PollResolved "job-1" processingResp;
                     Part000.Fire 1; Part000.PollRejected "job-1" notFound ]))
              p eq_refl Hp) as (p' & Hp' & Hk).
  { vm_compute. reflexivity. }
  exists p, p'. split; [reflexivity|]. split; [exact Hp' | exact Hk].
Defined.

Section MergeMoreApp.




Lemma poll_catch_job err (a : App.World) : App.job (App.poll_catch err a) = App.job a.
Proof. unfold App.poll_catch. cbn. rewrite job_stopPolling_A. reflexivity. Qed.


End MergeMoreApp.



(** * What a callback does to the browser *)

Section Shape.

Lemma settle_fields rq (b b0 : Browser) :
  settle rq b = Some b0 ->
  rq ∈ inflight b /\ timers b0 = timers b /\ nextTimer b0 = nextTimer b /\
  requests b0 = requests b /\ inflight b0 = remove_first rq (inflight b).
Proof.
  unfold settle. destruct (decide (rq ∈ inflight b)); [|discriminate].
  intros [= <-]. repeat split; assumption.
Qed.

Lemma remove_first_subset rq (l : list Request) (x : Request) :
  x ∈ remove_first rq l -> x ∈ l.
Proof.
  induction l as [|y l IH]; simpl; [tauto|].
  destruct (decide (y = rq)).
  - intros H. apply list_elem_of_further, H.
  - intros H. apply elem_of_cons in H as [->|H];
      [apply list_elem_of_here | apply list_elem_of_further, IH, H].
Qed.

Lemma shape_requests st cl sd tm (b b' : Browser) :
  shape st cl sd tm b = Some b' ->
  requests b' = (match sd with Some rq => [rq] | None => [] end ++ requests b)%list.
Proof.
  unfold shape. intros H.
  destruct (match st with Some rq => settle rq b | None => Some b end) as [b0|] eqn:Hst;
    [|discriminate].
  simpl in H. injection H as <-.
  assert (Hr : requests b0 = requests b).
  { destruct st as [rq|]; [apply settle_fields in Hst; tauto | injection Hst as <-; reflexivity]. }
  destruct tm, sd, cl; cbn; rewrite Hr; reflexivity.
Qed.

Lemma shape_timers st cl sd tm (b b' : Browser) (t : positive) (x : Timer) :
  shape st cl sd tm b = Some b' ->
  timers b' !! t = Some x -> tm = Some x \/ timers b !! t = Some x.
Proof.
  unfold shape. intros H.
  destruct (match st with Some rq => settle rq b | None => Some b end) as [b0|] eqn:Hst;
    [|discriminate].
  simpl in H. injection H as <-.
  assert (Ht : timers b0 = timers b).
  { destruct st as [rq|]; [apply settle_fields in Hst; tauto | injection Hst as <-; reflexivity]. }
  destruct tm as [y|], sd, cl; cbn; rewrite ?Ht; intros Hx;
    repeat match goal with
           | H : <[_ := _]> _ !! _ = Some _ |- _ =>
               apply lookup_insert_Some in H as [[_ <-]|[_ H]]; [left; reflexivity|]
           | H : delete _ _ !! _ = Some _ |- _ =>
               apply lookup_delete_Some in H as [_ H]
           end; right; assumption.
Qed.

Lemma shape_fresh st cl sd tm (b b' : Browser) :
  shape st cl sd tm b = Some b' -> fresh b ->
  fresh b' /\ (nextTimer b <= nextTimer b')%positive.
Proof.
  unfold shape. intros H Hf.
  destruct (match st with Some rq => settle rq b | None => Some b end) as [b0|] eqn:Hst;
    [|discriminate].
  simpl in H. injection H as <-.
  assert (Ht : timers b0 = timers b /\ nextTimer b0 = nextTimer b).
  { destruct st as [rq|]; [apply settle_fields in Hst; tauto | injection Hst as <-; split; reflexivity]. }
  destruct Ht as [Ht Hn]. unfold fresh in *.
  destruct tm as [y|], sd, cl; cbn; rewrite ?Ht, ?Hn; (split; [|lia]);
    intros t x Hx;
    repeat match goal with
           | H : <[_ := _]> _ !! _ = Some _ |- _ =>
               apply lookup_insert_Some in H as [[<- _]|[_ H]]; [lia|]
           | H : delete _ _ !! _ = Some _ |- _ =>
               apply lookup_delete_Some in H as [_ H]
           end; specialize (Hf t x Hx); lia.
Qed.

Lemma shape_accounted st cl sd tm (b b' : Browser) :
  shape st cl sd tm b = Some b' -> accounted b -> accounted b'.
Proof.
  unfold shape. intros H Ha.
  destruct (match st with Some rq => settle rq b | None => Some b end) as [b0|] eqn:Hst;
    [|discriminate].
  simpl in H. injection H as <-.
  assert (Ha0 : accounted b0).
  { destruct st as [rq|]; [|injection Hst as <-; exact Ha].
    apply settle_fields in Hst as (_ & _ & _ & Hr & Hi).
    intros x Hx. rewrite Hi in Hx. rewrite Hr. apply Ha.
    exact (remove_first_subset rq _ x Hx). }
  unfold accounted in *.
  destruct tm, sd as [rq|], cl; cbn; intros x Hx; try (apply Ha0; exact Hx);
    apply elem_of_cons in Hx as [->|Hx];
    first [apply list_elem_of_here | apply list_elem_of_further, Ha0, Hx].
Qed.

End Shape.

Section Part000Shape.

Import Part000.

Lemma handedOut_id (data : JsVal) :
  truthy data && truthy (opt_prop data "id") = true ->
  handedOut data = [js_to_string (opt_prop data "id")].
Proof. intros H. unfold handedOut. rewrite H. reflexivity. Qed.

Lemma step_shape env ev (w w' : World) :
  step env ev w = Some w' ->
  exists st cl sd tm,
    shape st cl sd tm (browser w) = Some (browser w') /\
    (forall rq, sd = Some rq -> Part000Trace.legit_send ev w rq) /\
    (forall x, tm = Some x -> Part000Trace.legit_set ev w x).
Proof.
  destruct ev as [v| |env1 v data|v err|t|jobId r|jobId err|]; simpl; intros Hstep.
  - injection Hstep as <-. exists None, None, None, None.
    split; [reflexivity|]. split; discriminate.
  - injection Hstep as <-. unfold form_onSubmit.
    destruct (Form.hasErrors (validate (formValues w))) eqn:Herr.
    + exists None, None, None, None. split; [reflexivity|]. split; discriminate.
    + exists None, None, (Some (createRequest (formValues w))), None.
      split; [reflexivity|]. split; [|discriminate].
      intros rq [= <-]. left. repeat split. exact Herr.
  - destruct (settle _ _) as [b|] eqn:Hb; [|discriminate]. injection Hstep as <-.
    unfold handleSubmit_resolved.
    destruct (truthy data && truthy (opt_prop data "id")) eqn:Hid.
    + exists (Some (createRequest v)), (pollingInterval w), None,
        (Some (mkTimer true 2000 (js_to_string (opt_prop data "id")))).
      split.
      * unfold shape. rewrite Hb. unfold startJobPolling, setInterval, stopPolling.
        cbn. destruct (pollingInterval w); reflexivity.
      * split; [discriminate|]. intros x [= <-]. left.
        exists env1, v, data. split; [reflexivity | apply handedOut_id, Hid].
    + exists (Some (createRequest v)), None, None, None.
      split; [unfold shape; rewrite Hb; reflexivity|]. split; discriminate.
  - destruct (settle _ _) as [b|] eqn:Hb; [|discriminate]. injection Hstep as <-.
    exists (Some (createRequest v)), None, None, None.
    split; [unfold shape; rewrite Hb; reflexivity|]. split; discriminate.
  - destruct (timers (browser w) !! t) as [x|] eqn:Hx; [|discriminate].
    injection Hstep as <-.
    exists None, (if repeating x then None else Some t), (Some (GetJob (target x))), None.
    split; [destruct (repeating x); reflexivity|]. split; [|discriminate].
    intros rq [= <-]. right. exists t, x. repeat split. exact Hx.
  - destruct (settle _ _) as [b|] eqn:Hb; [|discriminate]. injection Hstep as <-.
    exists (Some (GetJob jobId)), (if terminal r then pollingInterval w else None),
      None, None.
    split; [|split; discriminate].
    unfold shape. rewrite Hb. rewrite resolved_browser, stopPolling_browser.
    destruct (terminal r); [|reflexivity]. cbn. destruct (pollingInterval w); reflexivity.
  - destruct (settle _ _) as [b|] eqn:Hb; [|discriminate]. injection Hstep as <-.
    pose proof (settle_fields _ _ _ Hb) as (Hin & _).
    destruct (is_num (response_status err) 404) eqn:H404.
    + destruct (max_cases jobId (retryCount (set_browser b w))) as [Hlt|Hge].
      * rewrite catch_retry by assumption.
        exists (Some (GetJob jobId)), None, None, (Some (mkTimer false 2000 jobId)).
        split; [unfold shape; rewrite Hb; reflexivity|]. split; [discriminate|].
        intros x [= <-]. right. exists err. split; [reflexivity | exact Hin].
      * rewrite catch_finalizing by assumption. cbv zeta.
        destruct (pollingInterval w) as [t|] eqn:Hh.
        -- exists (Some (GetJob jobId)), (Some t), None, (Some (mkTimer true 5000 jobId)).
           split; [unfold shape; rewrite Hb; cbn; rewrite Hh; reflexivity|].
           split; [discriminate|].
           intros x [= <-]. right. exists err. split; [reflexivity | exact Hin].
        -- exists (Some (GetJob jobId)), None, None, None.
           split; [unfold shape; rewrite Hb; cbn; rewrite Hh; reflexivity|].
           split; discriminate.
    + rewrite catch_other by assumption.
      exists (Some (GetJob jobId)), None, None, None.
      split; [unfold shape; rewrite Hb; reflexivity|]. split; discriminate.
  - injection Hstep as <-. exists None, (pollingInterval w), None, None.
    split; [|split; discriminate].
    unfold unmount. destruct (pollingInterval w); reflexivity.
Qed.

Lemma fresh_initial : fresh freshBrowser.
Proof. intros t x H. cbn in H. rewrite lookup_empty in H. discriminate. Qed.

Lemma accounted_initial : accounted freshBrowser.
Proof. intros rq H. cbn in H. apply elem_of_nil in H. contradiction. Qed.

(** Timer handles are handed out in increasing order and requests in
    flight are requests sent, in every reachable world. *)
Lemma run_fresh env (evs : list Event) :
  forall w w', fresh (browser w) -> accounted (browser w) ->
               run env evs w = Some w' ->
               fresh (browser w') /\ accounted (browser w').
Proof.
  induction evs as [|ev evs IH]; simpl; intros w w' Hf Ha Hrun.
  - injection Hrun as <-. split; assumption.
  - destruct (step env ev w) as [w1|] eqn:Hstep; [|discriminate].
    destruct (step_shape env ev w w1 Hstep) as (st & cl & sd & tm & Hs & _).
    apply (IH w1 w'); [| |exact Hrun].
    + exact (proj1 (shape_fresh _ _ _ _ _ _ Hs Hf)).
    + exact (shape_accounted _ _ _ _ _ _ Hs Ha).
Qed.

End Part000Shape.

Section AppShape.

Import App.

Lemma step_shape_A env ev (w w' : World) :
  step env ev w = Some w' ->
  exists st cl sd tm,
    shape st cl sd tm (browser w) = Some (browser w') /\
    (forall rq, sd = Some rq -> AppTrace.legit_send ev w rq) /\
    (forall x, tm = Some x -> AppTrace.legit_set ev w x).
Proof.
  destruct ev as [v| |v data|v err|t|jobId r|jobId err|]; simpl; intros Hstep.
  - injection Hstep as <-. exists None, None, None, None.
    split; [reflexivity|]. split; discriminate.
  - injection Hstep as <-. unfold form_onSubmit.
    destruct (Form.hasErrors (validate (formValues w))) eqn:Herr.
    + exists None, None, None, None. split; [reflexivity|]. split; discriminate.
    + exists None, None, (Some (createRequest (formValues w))), None.
      split; [reflexivity|]. split; [|discriminate].
      intros rq [= <-]. left. repeat split. exact Herr.
  - destruct (settle _ _) as [b|] eqn:Hb; [|discriminate]. injection Hstep as <-.
    unfold handleGenerate_resolved.
    destruct (truthy data && truthy (opt_prop data "id")) eqn:Hid.
    + exists (Some (createRequest v)), (pollingInterval w),
        (Some (GetJob (js_to_string (opt_prop data "id")))),
        (Some (mkTimer true 2000 (js_to_string (opt_prop data "id")))).
      split.
      * unfold shape. rewrite Hb.
        unfold startJobPolling, setInterval, poll_begin, stopPolling.
        cbn. destruct (pollingInterval w); reflexivity.
      * split.
        -- intros rq [= <-]. right; right. exists v, data, (js_to_string (opt_prop data "id")).
           split; [reflexivity|]. split; [apply handedOut_id, Hid | reflexivity].
        -- intros x [= <-]. exists v, data.
           split; [reflexivity | apply handedOut_id, Hid].
    + exists (Some (createRequest v)), None, None, None.
      split; [unfold shape; rewrite Hb; reflexivity|]. split; discriminate.
  - destruct (settle _ _) as [b|] eqn:Hb; [|discriminate]. injection Hstep as <-.
    exists (Some (createRequest v)), None, None, None.
    split; [unfold shape; rewrite Hb; reflexivity|]. split; discriminate.
  - destruct (timers (browser w) !! t) as [x|] eqn:Hx; [|discriminate].
    injection Hstep as <-.
    exists None, (if repeating x then None else Some t), (Some (GetJob (target x))), None.
    split; [destruct (repeating x); reflexivity|]. split; [|discriminate].
    intros rq [= <-]. right; left. exists t, x. repeat split. exact Hx.
  - destruct (settle _ _) as [b|] eqn:Hb; [|discriminate]. injection Hstep as <-.
    exists (Some (GetJob jobId)), (if terminal r then pollingInterval w else None),
      None, None.
    split; [|split; discriminate].
    unfold shape. rewrite Hb. rewrite poll_resolved_browser, stopPolling_browser_A.
    destruct (terminal r); [|reflexivity]. cbn. destruct (pollingInterval w); reflexivity.
  - destruct (settle _ _) as [b|] eqn:Hb; [|discriminate]. injection Hstep as <-.
    exists (Some (GetJob jobId)), (pollingInterval w), None, None.
    split; [|split; discriminate].
    unfold shape. rewrite Hb. rewrite poll_catch_browser, stopPolling_browser_A.
    cbn. destruct (pollingInterval w); reflexivity.
  - injection Hstep as <-. exists None, (pollingInterval w), None, None.
    split; [|split; discriminate].
    unfold unmount. rewrite stopPolling_browser_A. destruct (pollingInterval w); reflexivity.
Qed.

Lemma run_fresh_A env (evs : list Event) :
  forall w w', fresh (browser w) -> accounted (browser w) ->
               run env evs w = Some w' ->
               fresh (browser w') /\ accounted (browser w').
Proof.
  induction evs as [|ev evs IH]; simpl; intros w w' Hf Ha Hrun.
  - injection Hrun as <-. split; assumption.
  - destruct (step env ev w) as [w1|] eqn:Hstep; [|discriminate].
    destruct (step_shape_A env ev w w1 Hstep) as (st & cl & sd & tm & Hs & _).
    apply (IH w1 w'); [| |exact Hrun].
    + exact (proj1 (shape_fresh _ _ _ _ _ _ Hs Hf)).
    + exact (shape_accounted _ _ _ _ _ _ Hs Ha).
Qed.

End AppShape.

Section ValidRequests.

Lemma rules_passed (p r : string) (d : Z) :
  validate_prompt p = None -> validate_duration d = None ->
  blank p = false /\ (1 <= d <= 10)%Z.
Proof.
  intros Hp Hd. split.
  - destruct (blank p) eqn:E; [|reflexivity].
    rewrite (validate_prompt_blank p E) in Hp. discriminate.
  - destruct (Z_lt_le_dec d 1) as [H1|H1];
      [exfalso; apply (validate_duration_bad d); [lia | exact Hd]|].
    destruct (Z_lt_le_dec 10 d) as [H2|H2];
      [exfalso; apply (validate_duration_bad d); [lia | exact Hd]|].
    lia.
Qed.

Lemma resolution_passed (r : string) :
  Part000.validate_resolution r = None ->
  In r (map fst Part000.supportedResolutions).
Proof.
  intros H. destruct (in_dec string_dec r (map fst Part000.supportedResolutions))
    as [Hin|Hout]; [exact Hin|].
  rewrite (validate_resolution_bad r Hout) in H. discriminate.
Qed.

Lemma noErrors_fields (e : Form.Errors) :
  Form.hasErrors e = false ->
  Form.prompt_error e = None /\ Form.duration_error e = None /\
  Form.resolution_error e = None.
Proof.
  unfold Form.hasErrors.
  destruct (Form.prompt_error e), (Form.duration_error e), (Form.resolution_error e);
    intros H; try discriminate H. repeat split.
Qed.

Lemma legit_send_valid ev (w : Part000.World) (rq : Request) :
  Part000Trace.legit_send ev w rq -> Part000Trace.valid_request rq.
Proof.
  intros [(_ & -> & Herr)|(t & x & _ & _ & ->)]; [|exact I].
  apply noErrors_fields in Herr as (Hp & Hd & Hr). cbn in Hp, Hd, Hr.
  destruct (rules_passed _ (Form.resolution (Part000.formValues w)) _ Hp Hd) as [H1 H2].
  cbn. split; [exact H1|]. split; [exact H2 | apply resolution_passed, Hr].
Qed.

Lemma legit_send_valid_A ev (w : App.World) (rq : Request) :
  AppTrace.legit_send ev w rq -> AppTrace.valid_request rq.
Proof.
  intros [(_ & -> & Herr)|[(t & x & _ & _ & ->)|(v & data & j & _ & _ & ->)]];
    [|exact I|exact I].
  apply noErrors_fields in Herr as (Hp & Hd & _). cbn in Hp, Hd.
  exact (rules_passed _ (Form.resolution (App.formValues w)) _ Hp Hd).
Qed.

Lemma run_valid env (evs : list Part000.Event) :
  forall w w',
    (forall rq, rq ∈ requests (Part000.browser w) -> Part000Trace.valid_request rq) ->
    Part000.run env evs w = Some w' ->
    forall rq, rq ∈ requests (Part000.browser w') -> Part000Trace.valid_request rq.
Proof.
  induction evs as [|ev evs IH]; simpl; intros w w' Hw Hrun.
  - injection Hrun as <-. exact Hw.
  - destruct (Part000.step env ev w) as [w1|] eqn:Hstep; [|discriminate].
    apply (IH w1 w'); [|exact Hrun].
    destruct (step_shape env ev w w1 Hstep) as (st & cl & sd & tm & Hs & Hsd & _).
    intros rq Hrq. rewrite (shape_requests _ _ _ _ _ _ Hs) in Hrq.
    destruct sd as [x|]; simpl in Hrq; [|exact (Hw rq Hrq)].
    apply elem_of_cons in Hrq as [->|Hrq]; [|exact (Hw rq Hrq)].
    exact (legit_send_valid ev w x (Hsd x eq_refl)).
Qed.

Lemma run_valid_A env (evs : list App.Event) :
  forall w w',
    (forall rq, rq ∈ requests (App.browser w) -> AppTrace.valid_request rq) ->
    App.run env evs w = Some w' ->
    forall rq, rq ∈ requests (App.browser w') -> AppTrace.valid_request rq.
Proof.
  induction evs as [|ev evs IH]; simpl; intros w w' Hw Hrun.
  - injection Hrun as <-. exact Hw.
  - destruct (App.step env ev w) as [w1|] eqn:Hstep; [|discriminate].
    apply (IH w1 w'); [|exact Hrun].
    destruct (step_shape_A env ev w w1 Hstep) as (st & cl & sd & tm & Hs & Hsd & _).
    intros rq Hrq. rewrite (shape_requests _ _ _ _ _ _ Hs) in Hrq.
    destruct sd as [x|]; simpl in Hrq; [|exact (Hw rq Hrq)].
    apply elem_of_cons in Hrq as [->|Hrq]; [|exact (Hw rq Hrq)].
    exact (legit_send_valid_A ev w x (Hsd x eq_refl)).
Qed.

End ValidRequests.

(** X7.  No create request ever leaves with parameters that fail the
    rules: in every world the component can reach, every create request
    that was sent has a prompt that is not blank and a duration between 1
    and 10, and in the variant with the resolution rule also a supported
    resolution. *)
Theorem only_validated_requests_are_sent :
  forall (env : Env),
    (forall w : Part000.World, Part000.reachable env w ->
       forall p r d, PostGenerate p r d ∈ requests (Part000.browser w) ->
         blank p = false /\ (1 <= d <= 10)%Z /\
         In r (map fst Part000.supportedResolutions)) /\
    (forall a : App.World, App.reachable env a ->
       forall p r d, PostGenerate p r d ∈ requests (App.browser a) ->
         blank p = false /\ (1 <= d <= 10)%Z).
Proof.
  intros env. split.
  - intros w [evs Hrun] p r d Hin.
    refine (run_valid env evs Part000.initial w _ Hrun (PostGenerate p r d) Hin).
    intros rq H. cbn in H. apply elem_of_nil in H. contradiction.
  - intros a [evs Hrun] p r d Hin.
    refine (run_valid_A env evs App.initial a _ Hrun (PostGenerate p r d) Hin).
    intros rq H. cbn in H. apply elem_of_nil in H. contradiction.
Qed.

Lemma only_validated_requests_are_sent_witness :
  Part000.reachable env0 (worldAfter submitted) /\
  PostGenerate "cat on a skateboard" "854x480" 5
    ∈ requests (Part000.browser (worldAfter submitted)) /\
  blank "cat on a skateboard" = false /\
  In "854x480" (map fst Part000.supportedResolutions).
Proof.
  assert (Hr : Part000.reachable env0 (worldAfter submitted)).
  { exists submitted. vm_compute. reflexivity. }
  assert (Hin : PostGenerate "cat on a skateboard" "854x480" 5
                ∈ requests (Part000.browser (worldAfter submitted))).
  { vm_compute. apply list_elem_of_here. }
  destruct (proj1 (only_validated_requests_are_sent env0) _ Hr _ _ _ Hin)
    as (H1 & _ & H3).
  split; [exact Hr|]. split; [exact Hin|]. split; [exact H1 | exact H3].
Defined.

Section KnownJobs.

Lemma only_for_mono (ids ids' : list string) (b : Browser) :
  (forall j, j ∈ ids -> j ∈ ids') -> only_for ids b -> only_for ids' b.
Proof.
  intros Hsub [Ht Hr]. split.
  - intros t x Hx. apply Hsub. exact (Ht t x Hx).
  - intros j Hj. apply Hsub. exact (Hr j Hj).
Qed.

Lemma jobIds_cons (ev : Part000.Event) (evs : list Part000.Event) :
  Part000Trace.jobIds (ev :: evs) =
  (Part000Trace.jobIds [ev] ++ Part000Trace.jobIds evs)%list.
Proof. destruct ev; simpl; rewrite ?app_nil_r; reflexivity. Qed.

Lemma jobIds_cons_A (ev : App.Event) (evs : list App.Event) :
  AppTrace.jobIds (ev :: evs) = (AppTrace.jobIds [ev] ++ AppTrace.jobIds evs)%list.
Proof. destruct ev; simpl; rewrite ?app_nil_r; reflexivity. Qed.

Lemma step_only_for env ev (w w' : Part000.World) (ids : list string) :
  only_for ids (Part000.browser w) -> accounted (Part000.browser w) ->
  Part000.step env ev w = Some w' ->
  only_for (ids ++ Part000Trace.jobIds [ev]) (Part000.browser w').
Proof.
  intros [Ht Hr] Ha Hstep.
  destruct (step_shape env ev w w' Hstep) as (st & cl & sd & tm & Hs & Hsd & Htm).
  split.
  - intros t x Hx. apply elem_of_app.
    destruct (shape_timers _ _ _ _ _ _ t x Hs Hx) as [->|Hold];
      [|left; exact (Ht t x Hold)].
    destruct (Htm x eq_refl) as [(envS & v & data & -> & Hid)|(err & -> & Hin)].
    + right. simpl. rewrite Hid, app_nil_r. apply list_elem_of_here.
    + left. apply Hr, Ha, Hin.
  - intros j Hj. apply elem_of_app. left.
    rewrite (shape_requests _ _ _ _ _ _ Hs) in Hj.
    destruct sd as [rq|]; simpl in Hj; [|exact (Hr j Hj)].
    apply elem_of_cons in Hj as [Hj|Hj]; [|exact (Hr j Hj)].
    destruct (Hsd rq eq_refl) as [(_ & Hrq & _)|(t & x & _ & Hx & Hrq)].
    + rewrite Hrq in Hj. discriminate Hj.
    + rewrite Hrq in Hj. injection Hj as ->. exact (Ht t x Hx).
Qed.

Lemma step_only_for_A env ev (w w' : App.World) (ids : list string) :
  only_for ids (App.browser w) ->
  App.step env ev w = Some w' ->
  only_for (ids ++ AppTrace.jobIds [ev]) (App.browser w').
Proof.
  intros [Ht Hr] Hstep.
  destruct (step_shape_A env ev w w' Hstep) as (st & cl & sd & tm & Hs & Hsd & Htm).
  split.
  - intros t x Hx. apply elem_of_app.
    destruct (shape_timers _ _ _ _ _ _ t x Hs Hx) as [->|Hold];
      [|left; exact (Ht t x Hold)].
    destruct (Htm x eq_refl) as (v & data & -> & Hid).
    right. simpl. rewrite Hid, app_nil_r. apply list_elem_of_here.
  - intros j Hj. apply elem_of_app.
    rewrite (shape_requests _ _ _ _ _ _ Hs) in Hj.
    destruct sd as [rq|]; simpl in Hj; [|left; exact (Hr j Hj)].
    apply elem_of_cons in Hj as [Hj|Hj]; [|left; exact (Hr j Hj)].
    destruct (Hsd rq eq_refl)
      as [(_ & Hrq & _)|[(t & x & _ & Hx & Hrq)|(v & data & j' & -> & Hid & Hrq)]].
    + rewrite Hrq in Hj. discriminate Hj.
    + rewrite Hrq in Hj. injection Hj as ->. left. exact (Ht t x Hx).
    + rewrite Hrq in Hj. injection Hj as ->. right. simpl.
      rewrite Hid, app_nil_r. apply list_elem_of_here.
Qed.

Lemma run_only_for env (evs : list Part000.Event) :
  forall (w w' : Part000.World) (ids : list string),
    only_for ids (Part000.browser w) ->
    fresh (Part000.browser w) -> accounted (Part000.browser w) ->
    Part000.run env evs w = Some w' ->
    only_for (ids ++ Part000Trace.jobIds evs) (Part000.browser w').
Proof.
  induction evs as [|ev evs IH]; intros w w' ids Hw Hf Ha Hrun.
  - simpl in Hrun. injection Hrun as <-. simpl. rewrite app_nil_r. exact Hw.
  - simpl in Hrun.
    destruct (Part000.step env ev w) as [w1|] eqn:Hstep; [|discriminate].
    rewrite jobIds_cons, app_assoc.
    destruct (run_fresh env [ev] w w1 Hf Ha) as [Hf1 Ha1];
      [simpl; rewrite Hstep; reflexivity|].
    exact (IH w1 w' _ (step_only_for env ev w w1 ids Hw Ha Hstep) Hf1 Ha1 Hrun).
Qed.

Lemma run_only_for_A env (evs : list App.Event) :
  forall (w w' : App.World) (ids : list string),
    only_for ids (App.browser w) ->
    App.run env evs w = Some w' ->
    only_for (ids ++ AppTrace.jobIds evs) (App.browser w').
Proof.
  induction evs as [|ev evs IH]; intros w w' ids Hw Hrun.
  - simpl in Hrun. injection Hrun as <-. simpl. rewrite app_nil_r. exact Hw.
  - simpl in Hrun.
    destruct (App.step env ev w) as [w1|] eqn:Hstep; [|discriminate].
    rewrite jobIds_cons_A, app_assoc.
    exact (IH w1 w' _ (step_only_for_A env ev w w1 ids Hw Hstep) Hrun).
Qed.

Lemma only_for_initial : only_for [] freshBrowser.
Proof.
  split.
  - intros t x H. cbn in H. rewrite lookup_empty in H. discriminate.
  - intros j H. cbn in H. apply elem_of_nil in H. contradiction.
Qed.

End KnownJobs.

(** X8.  The component polls nothing but the jobs the server handed out:
    after any run of events from the mounted component, every status
    request that was sent and every timer of the table is for an
    identifier that a create response of that run carried. *)
Theorem only_handed_out_jobs_are_polled :
  forall (env : Env),
    (forall (evs : list Part000.Event) (w : Part000.World),
       Part000.run env evs Part000.initial = Some w ->
       (forall jobId, GetJob jobId ∈ requests (Part000.browser w) ->
          jobId ∈ Part000Trace.jobIds evs) /\
       (forall t x, timers (Part000.browser w) !! t = Some x ->
          target x ∈ Part000Trace.jobIds evs)) /\
    (forall (evs : list App.Event) (a : App.World),
       App.run env evs App.initial = Some a ->
       (forall jobId, GetJob jobId ∈ requests (App.browser a) ->
          jobId ∈ AppTrace.jobIds evs) /\
       (forall t x, timers (App.browser a) !! t = Some x ->
          target x ∈ AppTrace.jobIds evs)).
Proof.
  intros env. split.
  - intros evs w Hrun.
    destruct (run_only_for env evs Part000.initial w [] only_for_initial
                fresh_initial accounted_initial Hrun) as [Ht Hr].
    split; [exact Hr | exact Ht].
  - intros evs a Hrun.
    destruct (run_only_for_A env evs App.initial a [] only_for_initial Hrun)
      as [Ht Hr].
    split; [exact Hr | exact Ht].
Qed.

Lemma only_handed_out_jobs_are_polled_witness :
  Part000.run env0 (submitted ++ miss) Part000.initial
    = Some (worldAfter (submitted ++ miss)) /\
  Part000Trace.jobIds (submitted ++ miss) = ["job-1"] /\
  (forall jobId,
     GetJob jobId ∈ requests (Part000.browser (worldAfter (submitted ++ miss))) ->
     jobId ∈ ["job-1"]).
Proof.
  assert (Hrun : Part000.run env0 (submitted ++ miss) Part000.initial
                 = Some (worldAfter (submitted ++ miss))).
  { vm_compute. reflexivity. }
  split; [exact Hrun|]. split; [reflexivity|].
  exact (proj1 (proj1 (only_handed_out_jobs_are_polled env0) _ _ Hrun)).
Defined.

(** * The poll loop *)

Section PollLoop.

Import Part000.

Lemma step_polling env ev (w w' : World) :
  Part000Trace.ends_polling ev = false ->
  fresh (browser w) -> Part000Trace.polling w ->
  step env ev w = Some w' -> Part000Trace.polling w'.
Proof.
  intros Hev Hf (t & x & Hh & Hx & Hrep) Hstep.
  destruct ev as [v| |env1 v data|v err|t'|jobId r|jobId err|]; simpl in Hstep, Hev;
    try discriminate Hev.
  - injection Hstep as <-. exists t, x. repeat split; assumption.
  - injection Hstep as <-. exists t, x. unfold form_onSubmit.
    destruct (Form.hasErrors _); repeat split; assumption.
  - destruct (settle _ _) as [b|] eqn:Hb; [|discriminate]. injection Hstep as <-.
    apply settle_fields in Hb as (_ & Ht & Hn & _).
    unfold handleSubmit_resolved. destruct (truthy data && _).
    + eexists _, _. rewrite startJobPolling_ref, startJobPolling_timers.
      split; [reflexivity|]. split; [apply lookup_insert_eq | reflexivity].
    + exists t, x. cbn. rewrite Ht. repeat split; assumption.
  - destruct (settle _ _) as [b|] eqn:Hb; [|discriminate]. injection Hstep as <-.
    apply settle_fields in Hb as (_ & Ht & Hn & _).
    exists t, x. cbn. rewrite Ht. repeat split; assumption.
  - destruct (timers (browser w) !! t') as [y|] eqn:Hy; [|discriminate].
    injection Hstep as <-. exists t, x.
    destruct (repeating y) eqn:Hry; cbn; [repeat split; assumption|].
    split; [exact Hh|]. split; [|exact Hrep].
    rewrite lookup_delete_ne; [exact Hx|]. intros ->. congruence.
  - destruct (settle _ _) as [b|] eqn:Hb; [|discriminate]. injection Hstep as <-.
    apply settle_fields in Hb as (_ & Ht & Hn & _).
    exists t, x. rewrite resolved_ref, resolved_browser, Hev. cbn. rewrite Ht.
    repeat split; assumption.
  - destruct (settle _ _) as [b|] eqn:Hb; [|discriminate]. injection Hstep as <-.
    apply settle_fields in Hb as (_ & Ht & Hn & _).
    apply negb_false_iff in Hev.
    destruct (max_cases jobId (retryCount (set_browser b w))) as [Hlt|Hge].
    + rewrite catch_retry by assumption. exists t, x. cbn.
      split; [exact Hh|]. split; [|exact Hrep].
      rewrite Ht, Hn. rewrite lookup_insert_ne; [exact Hx|].
      specialize (Hf t x Hx). lia.
    + rewrite catch_finalizing by assumption. cbv zeta. cbn. rewrite Hh. cbn.
      eexists _, _. split; [reflexivity|].
      split; [apply lookup_insert_eq | reflexivity].
Qed.

End PollLoop.

(** X9.  Not-founds and answers without a terminal status never end the
    poll loop: from a reachable world in which the ref holds a recurring
    timer, after any run of events with no terminal answer, no poll error
    other than a not-found and no teardown, the ref still holds a
    recurring timer of the table.  No number of not-founds makes the
    client give up. *)
Theorem poll_loop_survives_not_found :
  forall (env : Env) (evs : list Part000.Event) (w w' : Part000.World),
    Part000.reachable env w ->
    Part000Trace.polling w ->
    Part000Trace.keeps_polling evs = true ->
    Part000.run env evs w = Some w' ->
    Part000Trace.polling w'.
Proof.
  intros env evs w w' [evs0 Hreach] Hpoll Hevs Hrun.
  destruct (run_fresh env evs0 Part000.initial w fresh_initial accounted_initial Hreach)
    as [Hf Ha].
  clear Hreach evs0. revert w Hpoll Hf Ha Hevs Hrun.
  induction evs as [|ev evs IH]; simpl; intros w Hpoll Hf Ha Hevs Hrun.
  - injection Hrun as <-. exact Hpoll.
  - apply andb_prop in Hevs as [Hev Hevs]. apply negb_true_iff in Hev.
    destruct (Part000.step env ev w) as [w1|] eqn:Hstep; [|discriminate].
    destruct (run_fresh env [ev] w w1 Hf Ha) as [Hf1 Ha1];
      [simpl; rewrite Hstep; reflexivity|].
    exact (IH w1 (step_polling env ev w w1 Hev Hf Hpoll Hstep) Hf1 Ha1 Hevs Hrun).
Qed.

Lemma poll_loop_survives_not_found_witness :
  Part000.reachable env0 (worldAfter submitted) /\
  Part000Trace.polling (worldAfter submitted) /\
  Part000Trace.polling
    (worldAfter (submitted ++ miss ++ miss ++ miss ++ miss ++ miss ++
                 [ Part000.Fire 6; Part000.PollRejected "job-1" notFound ])).
Proof.
  assert (Hr : Part000.reachable env0 (worldAfter submitted)).
  { exists submitted. vm_compute. reflexivity. }
  assert (Hp : Part000Trace.polling (worldAfter submitted)).
  { exists 1%positive, (mkTimer true 2000 "job-1"). repeat split. }
  split; [exact Hr|]. split; [exact Hp|].
  apply (poll_loop_survives_not_found env0
           (miss ++ miss ++ miss ++ miss ++ miss ++
            [ Part000.Fire 6; Part000.PollRejected "job-1" notFound ])
           (worldAfter submitted) _ Hr Hp);
    [reflexivity | vm_compute; reflexivity].
Defined.

(** * The retry counter *)

Section Counter.

Import Part000.

Lemma lookup_written jobId c (m : gmap string Count) :
  jobId <> "__proto__" -> writeCount jobId c m !! jobId = Some c.
Proof.
  intros H. apply String.eqb_neq in H. unfold writeCount. rewrite H.
  apply lookup_insert_eq.
Qed.

Lemma lookup_written_other jobId other c (m : gmap string Count) :
  other <> jobId -> writeCount jobId c m !! other = m !! other.
Proof.
  intros H. unfold writeCount. destruct (String.eqb jobId "__proto__"); [reflexivity|].
  apply lookup_insert_ne. congruence.
Qed.

Lemma notFounds_number (n : nat) jobId err (w : World) (k : Z) :
  is_num (response_status err) 404 = true ->
  jobId <> "__proto__" ->
  retryCount w !! jobId = Some (Num k) ->
  retryCount (Part000Trace.notFounds n jobId err w) !! jobId
    = Some (Num (k + Z.of_nat n)).
Proof.
  intros H404 Hne Hk. induction n as [|n IH].
  - cbn. rewrite Hk, Z.add_0_r. reflexivity.
  - cbn [Part000Trace.notFounds]. rewrite catch_retryCount, H404.
    unfold incremented, readCount.
    apply String.eqb_neq in Hne. rewrite Hne, IH. apply String.eqb_neq in Hne.
    rewrite lookup_written by exact Hne. cbn [increment].
    do 2 f_equal. destruct (Z.eqb_spec (k + Z.of_nat n) 0); lia.
Qed.

Lemma notFounds_other (n : nat) jobId err (w : World) (other : string) :
  is_num (response_status err) 404 = true ->
  other <> jobId ->
  retryCount (Part000Trace.notFounds n jobId err w) !! other = retryCount w !! other.
Proof.
  intros H404 Hne. induction n as [|n IH]; [reflexivity|].
  cbn [Part000Trace.notFounds]. rewrite catch_retryCount, H404.
  unfold incremented. rewrite lookup_written_other by exact Hne. exact IH.
Qed.

(** A counter that is no number keeps every not-found in the retry branch. *)
Lemma notFounds_stuck (n : nat) jobId err (w : World) :
  is_num (response_status err) 404 = true ->
  count (retryCount w) jobId = None ->
  count (retryCount (Part000Trace.notFounds n jobId err w)) jobId = None /\
  job (Part000Trace.notFounds n jobId err w) = job w /\
  pollingInterval (Part000Trace.notFounds n jobId err w) = pollingInterval w.
Proof.
  intros H404 Hc. induction n as [|n (IH1 & IH2 & IH3)]; [repeat split; exact Hc|].
  cbn [Part000Trace.notFounds].
  destruct (count_stuck _ _ IH1) as [Hnone Hmax].
  rewrite catch_retry by assumption. cbn.
  split; [exact Hnone|]. split; assumption.
Qed.

End Counter.

(** X10.  The counter of a job counts the not-founds since its last
    successful answer, for every job id but "__proto__": a successful
    answer sets it to 0 and [n] not-founds after it bring it to [n].  A poll
    error other than a not-found leaves the counter object as it is, and
    neither a successful answer nor a not-found touches the counter of
    another job.  A counter that is no number stays so under any number of
    not-founds, none of which changes the job record or the ref: that is
    the counter of "__proto__" always, since the object discards what is
    written under that name, and the counter of another name inherited
    from [Object.prototype] as long as nothing is stored under it. *)
Theorem retry_counter_counts_not_founds_since_success :
  forall (n : nat) (jobId : string) (err other : JsError) (r : Resp.t)
         (w : Part000.World),
    is_num (response_status err) 404 = true ->
    is_num (response_status other) 404 = false ->
    (jobId <> "__proto__" ->
     Part000.retryCount
       (Part000Trace.notFounds n jobId err (Part000.checkJobStatus_resolved jobId r w))
       !! jobId = Some (Part000.Num (Z.of_nat n))) /\
    Part000.retryCount (Part000.checkJobStatus_catch jobId other w)
      = Part000.retryCount w /\
    (forall j, j <> jobId ->
       Part000.retryCount (Part000.checkJobStatus_resolved jobId r w) !! j
         = Part000.retryCount w !! j /\
       Part000.retryCount (Part000Trace.notFounds n jobId err w) !! j
         = Part000.retryCount w !! j) /\
    (Part000.count (Part000.retryCount w) jobId = None ->
     let w' := Part000Trace.notFounds n jobId err w in
     Part000.count (Part000.retryCount w') jobId = None /\
     Part000.job w' = Part000.job w /\
     Part000.pollingInterval w' = Part000.pollingInterval w) /\
    Part000.count
      (Part000.retryCount (Part000.checkJobStatus_resolved "__proto__" r w))
      "__proto__" = None /\
    (Part000.inherited jobId = true -> Part000.retryCount w !! jobId = None ->
     Part000.count (Part000.retryCount w) jobId = None).
Proof.
  intros n jobId err other r w H404 Hother.
  split; [|split; [|split; [|split; [|split]]]].
  - intros Hne.
    rewrite (notFounds_number n jobId err _ 0 H404 Hne).
    + reflexivity.
    + rewrite resolved_retryCount. apply lookup_written. exact Hne.
  - rewrite catch_retryCount, Hother. reflexivity.
  - intros j Hj. split.
    + rewrite resolved_retryCount. apply lookup_written_other. exact Hj.
    + exact (notFounds_other n jobId err w j H404 Hj).
  - intros Hc. exact (notFounds_stuck n jobId err w H404 Hc).
  - reflexivity.
  - intros Hin Hnone. unfold Part000.count, Part000.readCount.
    rewrite Hnone, Hin. destruct (String.eqb jobId "__proto__"); reflexivity.
Qed.

Lemma retry_counter_counts_not_founds_since_success_witness :
  Part000.retryCount
    (Part000Trace.notFounds 3 "job-1" notFound
       (Part000.checkJobStatus_resolved "job-1" processingResp fourMisses))
    !! "job-1" = Some (Part000.Num 3) /\
  Part000.retryCount (Part000.checkJobStatus_catch "job-1" serverError fourMisses)
    !! "job-1" = Some (Part000.Num 4) /\
  Part000.count (Part000.retryCount firstPoll) "constructor" = None /\
  Part000.count
    (Part000.retryCount (Part000Trace.notFounds 6 "constructor" notFound firstPoll))
    "constructor" = None.
Proof.
  destruct (retry_counter_counts_not_founds_since_success 3 "job-1" notFound
              serverError processingResp fourMisses eq_refl eq_refl) as (H1 & H2 & _).
  destruct (retry_counter_counts_not_founds_since_success 6 "constructor" notFound
              serverError processingResp firstPoll eq_refl eq_refl)
    as (_ & _ & _ & H4 & _ & H6).
  split; [apply H1; discriminate|].
  split; [rewrite H2; vm_compute; reflexivity|].
  assert (Hc : Part000.count (Part000.retryCount firstPoll) "constructor" = None)
    by (apply H6; vm_compute; reflexivity).
  split; [exact Hc|]. exact (proj1 (H4 Hc)).
Defined.

(** * The overlay *)

Section Overlay.

Import Part000.

Lemma catch_isGenerating jobId err (w : World) :
  isGenerating (checkJobStatus_catch jobId err w) = isGenerating w.
Proof.
  destruct (is_num (response_status err) 404) eqn:H404.
  - destruct (max_cases jobId (retryCount w)) as [Hlt|Hge].
    + rewrite catch_retry by assumption. reflexivity.
    + rewrite catch_finalizing by assumption. cbv zeta.
      destruct (pollingInterval w); reflexivity.
  - rewrite catch_other by assumption. reflexivity.
Qed.

Lemma step_isGenerating env ev (w w' : World) :
  Part000Trace.terminal_answer ev = false -> isGenerating w = true ->
  step env ev w = Some w' -> isGenerating w' = true.
Proof.
  intros Hev Hg Hstep.
  destruct ev as [v| |env1 v data|v err|t|jobId r|jobId err|]; simpl in Hstep, Hev.
  - injection Hstep as <-. exact Hg.
  - injection Hstep as <-. unfold form_onSubmit.
    destruct (Form.hasErrors _); [exact Hg | reflexivity].
  - destruct (settle _ _) as [b|]; [|discriminate]. injection Hstep as <-.
    unfold handleSubmit_resolved. destruct (truthy data && _); [|exact Hg].
    unfold startJobPolling, setInterval, stopPolling. cbn.
    destruct (pollingInterval w); exact Hg.
  - destruct (settle _ _) as [b|]; [|discriminate]. injection Hstep as <-. exact Hg.
  - destruct (timers (browser w) !! t) as [x|]; [|discriminate].
    injection Hstep as <-. destruct (repeating x); exact Hg.
  - destruct (settle _ _) as [b|]; [|discriminate]. injection Hstep as <-.
    unfold checkJobStatus_resolved. unfold terminal in Hev.
    apply orb_false_iff in Hev as [-> ->]. exact Hg.
  - destruct (settle _ _) as [b|]; [|discriminate]. injection Hstep as <-.
    rewrite catch_isGenerating. exact Hg.
  - injection Hstep as <-. unfold unmount. destruct (pollingInterval w); exact Hg.
Qed.

End Overlay.

(** X11.  Only a terminal answer of a poll takes the overlay away.  A
    submission sets [isGenerating], and neither the error path of the
    create request nor any poll error resets it: after a failed create
    request the form is enabled again ([isLoading] is false) but the
    full-screen overlay is still rendered, and it stays rendered along
    every run of events without a terminal answer. *)
Theorem overlay_outlives_failed_submission :
  forall (env : Env) (v : Form.Values) (err : JsError) (w : Part000.World),
    let failed := Part000.handleSubmit_catch err (Part000.handleSubmit_begin env v w) in
    Part000View.formDisabled failed = false /\
    Part000View.showsOverlay failed = true /\
    (forall (evs : list Part000.Event) (w1 w2 : Part000.World),
        Part000.isGenerating w1 = true ->
        Part000Trace.no_terminal_answer evs = true ->
        Part000.run env evs w1 = Some w2 ->
        Part000View.showsOverlay w2 = true).
Proof.
  intros env v err w failed. subst failed.
  split; [reflexivity|]. split; [reflexivity|].
  intros evs. induction evs as [|ev evs IH]; simpl; intros w1 w2 Hg Hevs Hrun.
  - injection Hrun as <-. unfold Part000View.showsOverlay. rewrite Hg.
    apply orb_true_r.
  - apply andb_prop in Hevs as [Hev Hevs]. apply negb_true_iff in Hev.
    destruct (Part000.step env ev w1) as [w'|] eqn:Hstep; [|discriminate].
    exact (IH w' w2 (step_isGenerating env ev w1 w' Hev Hg Hstep) Hevs Hrun).
Qed.

Lemma overlay_outlives_failed_submission_witness :
  Part000.isGenerating (worldAfter createFailed) = true /\
  Part000View.formDisabled (worldAfter createFailed) = false /\
  Part000View.showsOverlay
    (worldAfter (createFailed ++ [ Part000.Input catValues; Part000.Unmount ])) = true.
Proof.
  destruct (overlay_outlives_failed_submission env0 catValues serverError
              Part000.initial) as (_ & _ & H).
  split; [reflexivity|]. split; [reflexivity|].
  apply (H [ Part000.Input catValues; Part000.Unmount ] (worldAfter createFailed));
    [reflexivity | reflexivity | vm_compute; reflexivity].
Defined.

(** X12.  In [src/App.tsx] every poll error ends the poll loop for good,
    a not-found like any other: from a reachable world the [catch] block
    leaves no timer and a cleared ref, shows an error message and enables
    the form, and no status request is sent and no timer is set until the
    poll loop of a new job is started. *)
Theorem any_poll_error_ends_polling_in_App :
  forall (env : Env) (err : JsError) (a : App.World),
    App.reachable env a ->
    let a' := App.poll_catch err a in
    App.stopped a' /\
    truthy (App.error a') = true /\
    App.statusEmoji a' = CrossMark /\
    App.isLoading a' = false /\
    App.job a' = App.job a /\
    (forall evs a'',
        App.no_new_job evs = true -> App.run env evs a' = Some a'' ->
        App.stopped a'' /\ polls (App.browser a'') = polls (App.browser a')).
Proof.
  intros env err a Ha a'. subst a'.
  pose proof (poll_catch_stops_A err a (reachable_tracked_A env a Ha)) as Hstop.
  split; [exact Hstop|]. split.
  { unfold App.poll_catch, App.stopPolling. cbn.
    destruct (App.pollingInterval a); reflexivity. }
  split.
  { unfold App.poll_catch, App.stopPolling. cbn.
    destruct (App.pollingInterval a); reflexivity. }
  split.
  { unfold App.poll_catch. reflexivity. }
  split; [apply poll_catch_job|].
  intros evs a'' Hevs Hrun. exact (run_stopped_A env evs _ a'' Hevs Hstop Hrun).
Qed.

Lemma any_poll_error_ends_polling_in_App_witness :
  App.reachable env0 firstPollApp /\
  App.pollingInterval firstPollApp = Some 1%positive /\
  App.stopped (App.poll_catch notFound firstPollApp).
Proof.
  assert (Hr : App.reachable env0 firstPollApp).
  { exists submittedApp. vm_compute. reflexivity. }
  split; [exact Hr|]. split; [reflexivity|].
  exact (proj1 (any_poll_error_ends_polling_in_App env0 notFound firstPollApp Hr)).
Defined.

(** * The download helper *)

Section DownloadHelper.

Import AppDownload.

Lemma removeChild_appended (n : nat) (a : Anchor.t) (l : list (nat * Anchor.t)) :
  Forall (fun x => x.1 < n) l -> removeChild n (l ++ [(n, a)]) = l.
Proof.
  induction l as [|x l IH]; simpl; intros H.
  - rewrite Nat.eqb_refl. reflexivity.
  - apply Forall_cons in H as [Hx Hl].
    destruct (Nat.eqb x.1 n) eqn:E; [apply Nat.eqb_eq in E; lia|].
    rewrite (IH Hl). reflexivity.
Qed.

End DownloadHelper.



(** * Teardown *)

(** X14.  The two cleanups differ.  In the variant with the retries the
    cleanup clears the recurring timer but keeps the ref and leaves the
    one-off retries in the table, so a not-found that arrives after the
    teardown and brings the counter to 5 finds a ref to replace: a new
    recurring timer of 5000 ms is set.  In [src/App.tsx] the cleanup
    leaves no timer and a cleared ref, and nothing is scheduled again
    until a new job is started. *)
Theorem teardown_keeps_the_ref :
  forall (env : Env) (jobId : string) (err : JsError) (t : positive)
         (w : Part000.World) (a : App.World) (n : Z),
    Part000.pollingInterval w = Some t ->
    is_num (response_status err) 404 = true ->
    Part000.count (Part000.retryCount w) jobId = Some n ->
    (5 <= n + 1)%Z ->
    App.reachable env a ->
    let w1 := Part000.unmount w in
    let w2 := Part000.checkJobStatus_catch jobId err w1 in
    timers (Part000.browser w1) !! t = None /\
    Part000.pollingInterval w1 = Some t /\
    (forall k, k <> t ->
       timers (Part000.browser w1) !! k = timers (Part000.browser w) !! k) /\
    Part000.pollingInterval w2 = Some (nextTimer (Part000.browser w)) /\
    timers (Part000.browser w2) !! nextTimer (Part000.browser w)
      = Some (mkTimer true 5000 jobId) /\
    App.stopped (App.unmount a) /\
    (forall evs a',
        App.no_new_job evs = true -> App.run env evs (App.unmount a) = Some a' ->
        App.stopped a').
Proof.
  intros env jobId err t w a n Hh H404 Hc Hn Ha w1 w2. subst w1 w2.
  assert (Hmax : Part000.atLeast
                   (Part000.readCount
                      (Part000.incremented jobId (Part000.retryCount w)) jobId) 5 = true)
    by (apply atLeast_count; eauto).
  assert (Hu : Part000.unmount w = Part000.clearInterval t w).
  { unfold Part000.unmount. rewrite Hh. reflexivity. }
  rewrite Hu.
  split; [cbn; apply lookup_delete_eq|]. split; [exact Hh|].
  split; [intros k Hk; cbn; apply lookup_delete_ne; congruence|].
  rewrite catch_finalizing by assumption. cbv zeta. cbn. rewrite Hh. cbn.
  split; [reflexivity|]. split; [apply lookup_insert_eq|].
  pose proof (stopPolling_stopped_A a (reachable_tracked_A env a Ha)) as Hstop.
  split; [exact Hstop|].
  intros evs a' Hevs Hrun.
  exact (proj1 (run_stopped_A env evs _ a' Hevs Hstop Hrun)).
Qed.

Lemma teardown_keeps_the_ref_witness :
  Part000.pollingInterval fourMisses = Some 1%positive /\
  App.reachable env0 firstPollApp /\
  Part000.pollingInterval
    (Part000.checkJobStatus_catch "job-1" notFound (Part000.unmount fourMisses))
    = Some 6%positive /\
  timers (Part000.browser
            (Part000.checkJobStatus_catch "job-1" notFound (Part000.unmount fourMisses)))
    !! 6%positive = Some (mkTimer true 5000 "job-1") /\
  App.stopped (App.unmount firstPollApp).
Proof.
  assert (Hr : App.reachable env0 firstPollApp).
  { exists submittedApp. vm_compute. reflexivity. }
  destruct (teardown_keeps_the_ref env0 "job-1" notFound 1%positive fourMisses
              firstPollApp 4 eq_refl eq_refl ltac:(vm_compute; reflexivity)
              ltac:(lia) Hr)
    as (_ & _ & _ & H4 & H5 & H6 & _).
  split; [reflexivity|]. split; [exact Hr|].
  split; [exact H4|]. split; [exact H5 | exact H6].
Defined.

(** * The request interceptor *)

Section Interceptor.

Import ApiClient.

Lemma onRequest_headers now (config : Config) (k : string) :
  headers (onRequest now config) !! k =
  if decide (k = "Accept") then Some "application/json"
  else if decide (k = "Content-Type") then Some "application/json"
       else headers config !! k.
Proof.
  unfold onRequest. cbn.
  destruct (decide (k = "Accept")) as [->|H1]; [apply lookup_insert_eq|].
  rewrite lookup_insert_ne by congruence.
  destruct (decide (k = "Content-Type")) as [->|H2]; [apply lookup_insert_eq|].
  apply lookup_insert_ne. congruence.
Qed.

Lemma isGet_onRequest now (config : Config) :
  isGet (onRequest now config) = isGet config.
Proof. reflexivity. Qed.

End Interceptor.

(** X15.  The request interceptor.  Every request leaves with the two
    JSON headers, which replace what the caller set for them, and with its
    other headers, its method, its address and its body as they were.  A
    request whose method is "get" in any letter case gets the parameter
    [_t] set to the clock, in place of a [_t] of the caller and beside its
    other parameters; any other request, and one without a method, keeps
    its parameters.  Passing a request through the interceptor twice at
    the same clock reading is the same as once.  So two status requests
    of one job sent at different times never have the same parameters. *)
Theorem interceptor_sets_headers_and_busts_the_cache :
  forall (now later : Z) (config : ApiClient.Config) (jobId : string),
    let out := ApiClient.onRequest now config in
    ApiClient.headers out !! "Content-Type" = Some "application/json" /\
    ApiClient.headers out !! "Accept" = Some "application/json" /\
    (forall k, k <> "Content-Type" -> k <> "Accept" ->
       ApiClient.headers out !! k = ApiClient.headers config !! k) /\
    ApiClient.method out = ApiClient.method config /\
    ApiClient.url out = ApiClient.url config /\
    ApiClient.data out = ApiClient.data config /\
    (ApiClient.isGet config = true ->
       ApiClient.params out !! "_t" = Some (JNum now) /\
       forall k, k <> "_t" ->
         ApiClient.params out !! k = ApiClient.params config !! k) /\
    (ApiClient.isGet config = false ->
       ApiClient.params out = ApiClient.params config) /\
    (forall m, ApiClient.method config = Some m ->
       ApiClient.isGet config = true <-> ApiClient.lower m = "get") /\
    ApiClient.onRequest now out = out /\
    ApiClient.params (ApiClient.statusRequest now jobId) = {[ "_t" := JNum now ]} /\
    (now <> later ->
       ApiClient.statusRequest now jobId <> ApiClient.statusRequest later jobId).
Proof.
  intros now later config jobId out. subst out.
  split; [rewrite onRequest_headers; reflexivity|].
  split; [rewrite onRequest_headers; reflexivity|].
  split.
  { intros k H1 H2. rewrite onRequest_headers.
    destruct (decide (k = "Accept")); [contradiction|].
    destruct (decide (k = "Content-Type")); [contradiction | reflexivity]. }
  split; [reflexivity|]. split; [reflexivity|]. split; [reflexivity|].
  split.
  { intros Hget. unfold ApiClient.onRequest. cbn. rewrite Hget.
    split; [apply lookup_insert_eq|].
    intros k Hk. apply lookup_insert_ne. congruence. }
  split.
  { intros Hget. unfold ApiClient.onRequest. cbn. rewrite Hget. reflexivity. }
  split.
  { intros m Hm. unfold ApiClient.isGet. rewrite Hm. apply String.eqb_eq. }
  split.
  { unfold ApiClient.onRequest at 1. rewrite isGet_onRequest.
    unfold ApiClient.onRequest. cbn. f_equal.
    - apply map_eq. intros k.
      destruct (decide (k = "Accept")) as [->|H1];
        [rewrite !lookup_insert_eq; reflexivity|].
      destruct (decide (k = "Content-Type")) as [->|H2].
      + rewrite !(lookup_insert_ne _ "Accept") by congruence.
        rewrite !lookup_insert_eq. reflexivity.
      + repeat first [ rewrite (lookup_insert_ne _ "Accept") by congruence
                     | rewrite (lookup_insert_ne _ "Content-Type") by congruence ].
        reflexivity.
    - destruct (ApiClient.isGet config); [|reflexivity].
      apply insert_insert_eq. }
  split; [reflexivity|].
  intros Hne Heq. apply (f_equal ApiClient.params) in Heq.
  assert (Ht : forall t, ApiClient.params (ApiClient.statusRequest t jobId) !! "_t"
                         = Some (JNum t)).
  { intros t. unfold ApiClient.statusRequest, ApiClient.onRequest.
    cbn [ApiClient.params]. apply lookup_insert_eq. }
  pose proof (Ht now) as Hn. rewrite Heq, Ht in Hn. congruence.
Qed.

Lemma interceptor_sets_headers_and_busts_the_cache_witness :
  ApiClient.isGet (ApiClient.mkConfig (Some "GET") "/api/job/job-1" ∅
                     {[ "_t" := JNum 1 ]} JUndefined) = true /\
  ApiClient.params
    (ApiClient.onRequest 1735689600000
       (ApiClient.mkConfig (Some "GET") "/api/job/job-1" ∅
          {[ "_t" := JNum 1 ]} JUndefined)) !! "_t" = Some (JNum 1735689600000) /\
  ApiClient.isGet (ApiClient.postConfig "/api/generate" JNull) = false /\
  ApiClient.params (ApiClient.onRequest 1735689600000
                      (ApiClient.postConfig "/api/generate" JNull)) = ∅ /\
  ApiClient.statusRequest 1 "job-1" <> ApiClient.statusRequest 2 "job-1".
Proof.
  pose proof (interceptor_sets_headers_and_busts_the_cache 1735689600000 0
                (ApiClient.mkConfig (Some "GET") "/api/job/job-1" ∅
                   {[ "_t" := JNum 1 ]} JUndefined) "job-1") as H1.
  pose proof (interceptor_sets_headers_and_busts_the_cache 1735689600000 0
                (ApiClient.postConfig "/api/generate" JNull) "job-1") as H2.
  pose proof (interceptor_sets_headers_and_busts_the_cache 1 2
                (ApiClient.getConfig "/") "job-1") as H3.
  cbv zeta in H1, H2, H3.
  destruct H1 as (_ & _ & _ & _ & _ & _ & Hget & _).
  destruct H2 as (_ & _ & _ & _ & _ & _ & _ & Hpost & _).
  destruct H3 as (_ & _ & _ & _ & _ & _ & _ & _ & _ & _ & _ & Hdiff).
  split; [reflexivity|]. split; [exact (proj1 (Hget eq_refl))|].
  split; [reflexivity|]. split; [exact (Hpost eq_refl)|].
  apply Hdiff. discriminate.
Defined.

(** * The download helper of the variant with the retries *)

Section DownloadsInARow.

Lemma handleDownload_wellNumbered (u f : string) (pg : Part000Download.Page) :
  Part000Download.wellNumbered pg ->
  Part000Download.body (Part000Download.handleDownload u f pg)
    = Part000Download.body pg /\
  Part000Download.wellNumbered (Part000Download.handleDownload u f pg).
Proof.
  intros H. unfold Part000Download.wellNumbered, Part000Download.handleDownload in *.
  cbn. rewrite (removeChild_appended _ _ _ H). split; [reflexivity|].
  eapply Forall_impl; [exact H|]. cbn. intros x Hx. lia.
Qed.

End DownloadsInARow.

(** X16.  The download helper of [unnamed/part_000], when no DOM call
    throws, works in one go: whatever downloads are started one after the other on a page, the
    children of the body are afterwards the ones that were there, every
    call has clicked one anchor with its address and its file name (the
    newest first) and has revoked its address, no element number is used
    twice, and the job, the timers and the error state are as before. *)
Theorem downloads_leave_the_page_as_it_was :
  forall (calls : list (string * string)) (pg : Part000Download.Page),
    Part000Download.wellNumbered pg ->
    let pg' := Part000Download.downloads calls pg in
    Part000Download.body pg' = Part000Download.body pg /\
    Part000Download.clicked pg'
      = (rev (map Part000Download.anchorOf calls) ++ Part000Download.clicked pg)%list /\
    Part000Download.revoked pg'
      = (rev (map fst calls) ++ Part000Download.revoked pg)%list /\
    Part000Download.nextNode pg' = length calls + Part000Download.nextNode pg /\
    Part000Download.world pg' = Part000Download.world pg /\
    (calls <> [] -> Part000Download.isSaving pg' = false) /\
    Part000Download.wellNumbered pg'.
Proof.
  intros calls. induction calls as [|[u f] calls IH]; intros pg Hwn; cbv zeta.
  - cbn. repeat split; try reflexivity; [congruence | exact Hwn].
  - destruct (handleDownload_wellNumbered u f pg Hwn) as [Hb Hwn1].
    specialize (IH _ Hwn1). cbv zeta in IH.
    destruct IH as (I1 & I2 & I3 & I4 & I5 & I6 & I7).
    change (Part000Download.downloads ((u, f) :: calls) pg)
      with (Part000Download.downloads calls (Part000Download.handleDownload u f pg)).
    rewrite I1, I2, I3, I4, I5, Hb.
    split; [reflexivity|].
    split; [cbn; rewrite <- app_assoc; reflexivity|].
    split; [cbn; rewrite <- app_assoc; reflexivity|].
    split; [cbn; lia|].
    split; [reflexivity|].
    split; [|exact I7].
    intros _. destruct calls as [|c calls]; [reflexivity|].
    apply I6. discriminate.
Qed.

Lemma downloads_leave_the_page_as_it_was_witness :
  Part000Download.wellNumbered (Part000Download.idle firstPoll) /\
  Part000Download.body
    (Part000Download.downloads
       [("https://x/y.mp4", "cat_on.mp4"); ("https://x/y.mp4", "cat_on.mp4")]
       (Part000Download.idle firstPoll)) = [] /\
  length (Part000Download.clicked
    (Part000Download.downloads
       [("https://x/y.mp4", "cat_on.mp4"); ("https://x/y.mp4", "cat_on.mp4")]
       (Part000Download.idle firstPoll))) = 2.
Proof.
  assert (Hwn : Part000Download.wellNumbered
                  (Part000Download.idle firstPoll))
    by apply Forall_nil_2.
  destruct (downloads_leave_the_page_as_it_was
              [("https://x/y.mp4", "cat_on.mp4"); ("https://x/y.mp4", "cat_on.mp4")]
              _ Hwn) as (H1 & H2 & _).
  split; [exact Hwn|]. split; [exact H1|]. rewrite H2. reflexivity.
Defined.

(** * What a completed answer offers *)

Section Offer.

Lemma is_str_eq (v : JsVal) (s : string) : is_str v s = true -> v = JStr s.
Proof.
  destruct v; simpl; try discriminate. intros H. apply String.eqb_eq in H.
  congruence.
Qed.

Lemma truthy_js_or (a b : JsVal) : truthy (js_or a b) = truthy a || truthy b.
Proof. unfold js_or. destruct (truthy a) eqn:E; [exact E | reflexivity]. Qed.

Lemma truthy_pollVideoUrl (env : Env) (r : Resp.t) :
  truthy (App.pollVideoUrl env r)
  = truthy (opt_prop (Resp.result r) "video_url")
    || truthy (opt_prop (Resp.result r) "video_id").
Proof.
  unfold App.pollVideoUrl.
  destruct (truthy (opt_prop (Resp.result r) "video_url")) eqn:E1; [exact E1|].
  destruct (truthy (opt_prop (Resp.result r) "video_id")) eqn:E2; [|reflexivity].
  cbn [truthy]. destruct (origin env); reflexivity.
Qed.

End Offer.

(** X17.  What the page offers after a status answer 'completed'.  Both
    variants open the download dialog whatever the answer carries.  In
    [unnamed/part_000] the download button is shown exactly when the result
    kept on the record (the one of the answer when it is truthy, else the
    earlier one) has a video address: an answer whose result has none hides
    the button although the record still holds the earlier address in
    [videoUrl].  In [src/App.tsx] the button is shown exactly when the
    answer carries a video address or a video id, or the record had an
    address before, also when there was no record. *)
Theorem completed_answer_and_the_download_offer :
  forall (env : Env) (jobId : string) (r : Resp.t)
         (w : Part000.World) (p : Part000.VideoJob.t) (a : App.World),
    is_str (Resp.status r) "completed" = true ->
    Part000.job w = Some p ->
    let w' := Part000.checkJobStatus_resolved jobId r w in
    let a' := App.poll_resolved env jobId r a in
    Part000.showDownloadModal w' = true /\
    App.showDownloadModal a' = true /\
    Part000View.offersDownload w'
      = truthy (opt_prop (js_or (Resp.result r) (Part000.VideoJob.result p))
                  "video_url") /\
    (truthy (Resp.result r) = true ->
     truthy (opt_prop (Resp.result r) "video_url") = false ->
     Part000View.offersDownload w' = false /\
     exists p', Part000.job w' = Some p' /\
       Part000.VideoJob.videoUrl p' = Part000.VideoJob.videoUrl p) /\
    AppView.offersDownload a'
      = truthy (opt_prop (Resp.result r) "video_url")
        || truthy (opt_prop (Resp.result r) "video_id")
        || match App.job a with
           | Some q => truthy (App.VideoJob.videoUrl q)
           | None => false
           end /\
    Part000View.downloadName w' = Part000View.downloadName w /\
    AppView.downloadName a' = AppView.downloadName a.
Proof.
  intros env jobId r w p a Hst Hjob w' a'.
  pose proof (is_str_eq _ _ Hst) as Hs.
  assert (Hw : Part000.job w' = Some (Part000.mergePoll p r)).
  { subst w'. unfold Part000.checkJobStatus_resolved. rewrite Hst.
    unfold Part000.stopPolling. cbn.
    destruct (Part000.pollingInterval w); cbn; rewrite Hjob; reflexivity. }
  assert (Ha : App.job a' = Some match App.job a with
                                 | Some q => App.mergePoll env q r
                                 | None => App.createdByPoll env jobId r
                                 end).
  { subst a'. unfold App.poll_resolved. rewrite Hst.
    unfold App.stopPolling.
    destruct (truthy (Resp.openai_status r)); cbn;
      destruct (App.pollingInterval a); cbn; destruct (App.job a); reflexivity. }
  split.
  { subst w'. unfold Part000.checkJobStatus_resolved. rewrite Hst. reflexivity. }
  split.
  { subst a'. unfold App.poll_resolved. rewrite Hst. reflexivity. }
  split.
  { unfold Part000View.offersDownload. rewrite Hw. cbn. rewrite Hs. reflexivity. }
  split.
  { intros Hres Hno. split.
    - unfold Part000View.offersDownload. rewrite Hw. cbn. rewrite Hs. cbn.
      unfold js_or. rewrite Hres. exact Hno.
    - eexists. split; [exact Hw|]. cbn. unfold js_or. rewrite Hno. reflexivity. }
  split.
  { unfold AppView.offersDownload. rewrite Ha.
    destruct (App.job a) as [q|]; cbn; rewrite Hs; cbn.
    - rewrite truthy_js_or, truthy_pollVideoUrl. reflexivity.
    - rewrite truthy_pollVideoUrl, orb_false_r. reflexivity. }
  split.
  { subst w'. unfold Part000View.downloadName, Part000.checkJobStatus_resolved.
    rewrite Hst. unfold Part000.stopPolling. cbn.
    destruct (Part000.pollingInterval w); reflexivity. }
  subst a'. unfold AppView.downloadName, App.poll_resolved.
  rewrite Hst. unfold App.stopPolling.
  destruct (truthy (Resp.openai_status r)); cbn;
    destruct (App.pollingInterval a); reflexivity.
Qed.

Lemma completed_answer_and_the_download_offer_witness :
  is_str (Resp.status completedResp) "completed" = true /\
  (exists p, Part000.job firstPoll = Some p) /\
  Part000View.offersDownload
    (Part000.checkJobStatus_resolved "job-1" completedResp firstPoll) = true /\
  AppView.offersDownload
    (App.poll_resolved env0 "job-1" completedResp firstPollApp) = true.
Proof.
  eassert (Hj : Part000.job firstPoll = Some _) by (vm_compute; reflexivity).
  destruct (completed_answer_and_the_download_offer env0 "job-1" completedResp
              firstPoll _ firstPollApp eq_refl Hj)
    as (_ & _ & H3 & _ & H5 & _).
  split; [reflexivity|]. split; [eexists; exact Hj|].
  split; [rewrite H3; reflexivity | rewrite H5; reflexivity].
Defined.
